(** * gammapy: MapDataset prediction, masking and stacking engine, PSF map engine

    A shallow embedding of [gammapy/datasets/map.py] (classes [MapDataset] and
    [MapDatasetOnOff]) and of [gammapy/irf/psf/psf_map.py] (class [PSFMap]).

    Array data are [numpy] arrays of IEEE-754 binary64 numbers; they are
    modelled as lists of Rocq's primitive floats, so that [NaN], infinities,
    signed zeros and rounding behave as they do in the program.  Boolean masks
    are lists of [bool].  Python exceptions are modelled by the [result] type. *)

From Stdlib Require Import String List ZArith Bool Floats Lia.
Import ListNotations.

Set Implicit Arguments.
Open Scope string_scope.
Open Scope list_scope.

(** ** Exceptions *)

Inductive exn : Type :=
  | ValueError
  | KeyError
  | TypeError
  | AttributeError
  | IndexError
  | NotImplementedError.

Inductive result (A : Type) : Type :=
  | Ok (a : A)
  | Raise (e : exn).

Arguments Ok {A} a.
Arguments Raise {A} e.

Definition bind {A B : Type} (r : result A) (k : A -> result B) : result B :=
  match r with
  | Ok a => k a
  | Raise e => Raise e
  end.

Notation "'do' x <- r ; k" := (bind r (fun x => k))
  (at level 10, x name, r at level 100, k at level 200).

Definition is_ok {A : Type} (r : result A) : bool :=
  match r with Ok _ => true | Raise _ => false end.

(** ** numpy element-wise operations on binary64 arrays *)

Module Np.

Definition isfinite (x : float) : bool := PrimFloat.ltb (PrimFloat.abs x) infinity.

Definition isnan (x : float) : bool := negb (PrimFloat.eqb x x).

(** [data[~np.isfinite(data)] = 0], the replacement done by [Map.stack]. *)
Definition zero_not_finite (x : float) : float :=
  if isfinite x then x else 0%float.

(** Largest finite binary64 number, [np.finfo(float).max]. *)
Definition float_max : float := 0x1.fffffffffffffp+1023%float.

(** [np.nan_to_num(x)] with its default arguments: [nan -> 0.0],
    [+inf -> finfo.max], [-inf -> finfo.min]. *)
Definition nan_to_num (x : float) : float :=
  if isnan x then 0%float
  else if PrimFloat.eqb x infinity then float_max
  else if PrimFloat.eqb x neg_infinity then PrimFloat.opp float_max
  else x.

(** [np.nan_to_num(x, nan=0.0, posinf=0.0, neginf=0.0)]. *)
Definition nan_to_num_zero (x : float) : float := zero_not_finite x.

(** A boolean array element promoted to float64 in arithmetic. *)
Definition of_bool (b : bool) : float := if b then 1%float else 0%float.

Fixpoint zip_with {A B C : Type} (f : A -> B -> C) (l1 : list A) (l2 : list B) : list C :=
  match l1, l2 with
  | x :: l1', y :: l2' => f x y :: zip_with f l1' l2'
  | _, _ => []
  end.

Definition add (a b : list float) : list float := zip_with PrimFloat.add a b.
Definition mul (a b : list float) : list float := zip_with PrimFloat.mul a b.
Definition div (a b : list float) : list float := zip_with PrimFloat.div a b.
Definition logical_or (a b : list bool) : list bool := zip_with orb a b.

(** [a * w] for a float array [a] and a boolean array [w]. *)
Definition mul_bool (a : list float) (w : list bool) : list float :=
  zip_with (fun x b => PrimFloat.mul x (of_bool b)) a w.

Definition any (l : list bool) : bool := existsb (fun b => b) l.
Definition all (l : list bool) : bool := forallb (fun b => b) l.

(** [a.sum()]: numpy adds the elements of a float64 array pairwise, in an
    order that depends on the array size; the summation order is left to
    the caller of the definitions below as a parameter [np_sum]. The
    left-to-right sum is the order numpy uses for fewer than 8 elements. *)
Definition sum_seq (l : list float) : float := fold_left PrimFloat.add l 0%float.

Lemma zip_with_length {A B C : Type} (f : A -> B -> C) (l1 : list A) (l2 : list B) :
  length l1 = length l2 -> length (zip_with f l1 l2) = length l1.
Proof.
  revert l2; induction l1 as [|x l1 IH]; intros [|y l2]; simpl; intros H;
    try discriminate; auto.
Qed.

Lemma zip_with_nth {A B C : Type} (f : A -> B -> C) (l1 : list A) (l2 : list B)
      (i : nat) (a : A) (b : B) (c : C) :
  i < length l1 -> i < length l2 ->
  nth i (zip_with f l1 l2) c = f (nth i l1 a) (nth i l2 b).
Proof.
  revert l2 i; induction l1 as [|x l1 IH]; intros [|y l2] [|i]; simpl; intros H1 H2;
    try lia; auto.
  apply IH; lia.
Qed.

End Np.

(** ** Geometries and maps *)

(** A non-spatial axis: its name, its number of bins and, for a
    [LabelMapAxis], its labels. *)
Record MapAxis : Type := mkAxis {
  axis_name : string;
  nbin : nat;
  labels : list string
}.

(** A map geometry: the spatial pixel grid and the non-spatial axes,
    innermost axis first, as [Geom.axes]. *)
Record Geom : Type := mkGeom {
  npix : nat * nat;
  axes : list MapAxis
}.

Fixpoint labels_eqb (l1 l2 : list string) : bool :=
  match l1, l2 with
  | [], [] => true
  | a :: l1', b :: l2' => String.eqb a b && labels_eqb l1' l2'
  | _, _ => false
  end.

Definition axis_eqb (a b : MapAxis) : bool :=
  String.eqb (axis_name a) (axis_name b) && Nat.eqb (nbin a) (nbin b)
  && labels_eqb (labels a) (labels b).

Fixpoint axes_eqb (l1 l2 : list MapAxis) : bool :=
  match l1, l2 with
  | [], [] => true
  | a :: l1', b :: l2' => axis_eqb a b && axes_eqb l1' l2'
  | _, _ => false
  end.

Definition npix_eqb (p q : nat * nat) : bool :=
  Nat.eqb (fst p) (fst q) && Nat.eqb (snd p) (snd q).

Definition geom_eqb (g h : Geom) : bool :=
  npix_eqb (npix g) (npix h) && axes_eqb (axes g) (axes h).

Definition image_size (g : Geom) : nat := fst (npix g) * snd (npix g).

Definition n_planes (g : Geom) : nat :=
  fold_right (fun a acc => nbin a * acc) 1 (axes g).

(** Number of bins, the product of [Geom.data_shape]. *)
Definition data_size (g : Geom) : nat := n_planes g * image_size g.

Definition to_image (g : Geom) : Geom := mkGeom (npix g) [].

Definition axes_names (g : Geom) : list string := List.map axis_name (axes g).

(** A [Map]: geometry, flattened data array (C order: the spatial axes are the
    innermost ones) and unit. *)
Record Map (T : Type) : Type := mkMap {
  geom : Geom;
  data : list T;
  unit : string
}.

Definition FMap := Map float.
Definition BMap := Map bool.

Lemma labels_eqb_refl (l : list string) : labels_eqb l l = true.
Proof.
  induction l as [|a l IH]; simpl; auto. now rewrite String.eqb_refl.
Qed.

Lemma labels_eqb_eq (l1 l2 : list string) : labels_eqb l1 l2 = true -> l1 = l2.
Proof.
  revert l2; induction l1 as [|a l1 IH]; intros [|b l2]; simpl; intros H;
    try discriminate; auto.
  apply andb_prop in H as [H1 H2]. apply String.eqb_eq in H1. subst.
  f_equal. now apply IH.
Qed.

Lemma axes_eqb_refl (l : list MapAxis) : axes_eqb l l = true.
Proof.
  induction l as [|a l IH]; simpl; auto.
  unfold axis_eqb. now rewrite String.eqb_refl, Nat.eqb_refl, labels_eqb_refl, IH.
Qed.

Lemma geom_eqb_refl (g : Geom) : geom_eqb g g = true.
Proof.
  unfold geom_eqb, npix_eqb. now rewrite !Nat.eqb_refl, axes_eqb_refl.
Qed.

Lemma axes_eqb_eq (l1 l2 : list MapAxis) : axes_eqb l1 l2 = true -> l1 = l2.
Proof.
  revert l2; induction l1 as [|[n k ls] l1 IH]; intros [|[m j ls'] l2]; simpl; intros H;
    try discriminate; auto.
  apply andb_prop in H as [H1 H2]. unfold axis_eqb in H1; simpl in H1.
  apply andb_prop in H1 as [H1 Hl]. apply andb_prop in H1 as [Hn Hk].
  apply String.eqb_eq in Hn. apply Nat.eqb_eq in Hk. apply labels_eqb_eq in Hl. subst.
  f_equal. now apply IH.
Qed.

Lemma geom_eqb_eq (g h : Geom) : geom_eqb g h = true -> g = h.
Proof.
  destruct g as [[a b] l], h as [[c d] l']. unfold geom_eqb, npix_eqb; simpl.
  intros H. apply andb_prop in H as [H1 H2]. apply andb_prop in H1 as [Ha Hb].
  apply Nat.eqb_eq in Ha, Hb. apply axes_eqb_eq in H2. now subst.
Qed.

Module MapOps.

(** Modelled from the spec: [Map.from_geom] of [gammapy.maps], which is not
    among the sources; "constructed empty (zero-filled, via a create factory
    from a target geometry)". *)
Definition from_geom (g : Geom) (u : string) : FMap :=
  mkMap g (repeat 0%float (data_size g)) u.

(** Modelled from the spec: [Map.from_geom(geom, dtype=bool)], an all-false mask. *)
Definition from_geom_bool (g : Geom) : BMap :=
  mkMap g (repeat false (data_size g)) EmptyString.

(** A weight array broadcast to [n] elements: an array of that size is
    taken as it is, an image is repeated over the planes of the cube. *)
Definition broadcast_to (w : list bool) (n : nat) : list bool :=
  if Nat.eqb (length w) n then w else concat (repeat w (n / length w)).

(** Modelled from the spec: [Map.stack(other, weights, nan_to_num)] of
    [gammapy.maps], which is not among the sources; "additive, weighted by
    other's safe mask; non-finite values replaced by 0 unless disabled", and
    maps combine "only between maps whose geometries are compatible".  The
    weights are a boolean map, multiplied into the data of [other]. *)
Definition stack (self other : FMap) (weights : option BMap) (nan_to_num : bool)
  : result FMap :=
  if negb (geom_eqb (geom self) (geom other)) then Raise ValueError
  else
    let d := if nan_to_num then List.map Np.zero_not_finite (data other) else data other in
    match weights with
    | None => Ok (mkMap (geom self) (Np.add (data self) d) (unit self))
    | Some w =>
        if negb (npix_eqb (npix (geom other)) (npix (geom w))) then Raise ValueError
        else
          let wd := broadcast_to (data w) (length d) in
          Ok (mkMap (geom self) (Np.add (data self) (Np.mul_bool d wd)) (unit self))
    end.

(** Modelled from the spec: [Map.stack] on boolean masks, "mask_safe:
    logical OR". *)
Definition stack_bool (self other : BMap) : result BMap :=
  if negb (geom_eqb (geom self) (geom other)) then Raise ValueError
  else Ok (mkMap (geom self) (Np.logical_or (data self) (data other)) (unit self)).

(** Binary arithmetic between two maps, e.g. [self + other]. *)
Definition arith (f : float -> float -> float) (self other : FMap) : result FMap :=
  if negb (geom_eqb (geom self) (geom other)) then Raise ValueError
  else Ok (mkMap (geom self) (Np.zip_with f (data self) (data other)) (unit self)).

(** [Map.from_stack(maps, axis=label_axis)]: the maps are laid one after
    the other along a new outermost axis. *)
Definition from_stack (g : Geom) (maps : list FMap) (axis : MapAxis) : FMap :=
  mkMap (mkGeom (npix g) (axes g ++ [axis])) (concat (List.map (@data float) maps))
        EmptyString.

End MapOps.

(** ** The reduced masks of a dataset *)

Fixpoint chunks {A : Type} (n size : nat) (l : list A) : list (list A) :=
  match n with
  | O => []
  | S n' => firstn size l :: chunks n' size (skipn size l)
  end.

(** [Map.reduce_over_axes(func=np.logical_or)]: the logical OR of the planes
    of a mask cube, an image on the spatial axes. *)
Definition reduce_over_axes_or (m : BMap) : BMap :=
  let size := image_size (geom m) in
  mkMap (to_image (geom m))
        (fold_left Np.logical_or (chunks (n_planes (geom m)) size (data m))
                   (repeat false size))
        (unit m).

(** ** MapDataset *)

(** What a caller may pass as [psf] or [edisp]; the constructor checks the
    type of the object only when the object is truthy. *)
Inductive irf_obj : Type :=
  | IrfPSFMap (psf_map : FMap)
  | IrfEDispMap (edisp_map : FMap)
  | IrfEDispKernelMap (edisp_map : FMap)
  | IrfHDULocation
  | IrfOther (truthy : bool).

Inductive stat : Type := Cash | WStat.

Section Dataset.

(** The model evaluator ([gammapy.datasets.evaluator.MapEvaluator]) and the
    background model ([FoVBackgroundModel]) are external collaborators of
    the dataset; the dataset uses them through this interface only. *)
Variable Evaluator : Type.

(** What [MapEvaluator.update] receives: exposure, psf, edisp, the
    reference geometry and the reduced mask. *)
Record UpdateArgs : Type := mkArgs {
  arg_exposure : option FMap;
  arg_psf : option irf_obj;
  arg_edisp : option irf_obj;
  arg_geom : Geom;
  arg_mask : BMap
}.

Variable needs_update : Evaluator -> bool.
Variable update : Evaluator -> UpdateArgs -> Evaluator.
Variable contributes : Evaluator -> bool.
Variable compute_npred : Evaluator -> FMap * Evaluator.
Variable reset_cache_properties : Evaluator -> Evaluator.

(** [FoVBackgroundModel.evaluate_geom]: the scaling values on a geometry,
    a function of the parameter values of the model. *)
Variable evaluate_geom : list float -> Geom -> list float.

(** The module-level flag [USE_NPRED_CACHE]. *)
Variable USE_NPRED_CACHE : bool.

Record MapDataset : Type := mkDataset {
  name : string;
  counts : option FMap;
  exposure : option FMap;
  background : option FMap;
  psf : option irf_obj;
  edisp : option irf_obj;
  mask_safe : option BMap;
  mask_fit : option BMap;
  (** [background_model.parameters.value] of the [FoVBackgroundModel]
      attached to the dataset, if there is one. *)
  background_model : option (list float);
  _background_cached : option FMap;
  _background_parameters_cached : option (list float);
  (** [_evaluators]: a dict, in insertion order. *)
  evaluators : list (string * Evaluator);
  stat_type : stat
}.

(** [MapDataset._geom] *)
Definition _geom (ds : MapDataset) : result Geom :=
  match counts ds with
  | Some m => Ok (geom m)
  | None =>
    match background ds with
    | Some m => Ok (geom m)
    | None =>
      match mask_safe ds with
      | Some m => Ok (geom m)
      | None =>
        match mask_fit ds with
        | Some m => Ok (geom m)
        | None => Raise ValueError
        end
      end
    end
  end.

(** [Dataset.mask]: [mask_safe & mask_fit] when both are set, else the
    one that is set. *)
Definition mask (ds : MapDataset) : option BMap :=
  match mask_safe ds, mask_fit ds with
  | Some s, Some f => Some (mkMap (geom s) (Np.zip_with andb (data s) (data f)) (unit s))
  | Some s, None => Some s
  | None, Some f => Some f
  | None, None => None
  end.

(** [MapDataset.mask_safe_image] *)
Definition mask_safe_image (ds : MapDataset) : option BMap :=
  option_map reduce_over_axes_or (mask_safe ds).

(** [MapDataset.mask_image] *)
Definition mask_image (ds : MapDataset) : result BMap :=
  match mask ds with
  | None =>
      do g <- _geom ds;
      Ok (mkMap (to_image g) (repeat true (image_size g)) EmptyString)
  | Some m => Ok (reduce_over_axes_or m)
  end.

(** *** npred_signal *)

Fixpoint lookup (n : string) (evs : list (string * Evaluator)) : option Evaluator :=
  match evs with
  | [] => None
  | (k, e) :: evs' => if String.eqb k n then Some e else lookup n evs'
  end.

Fixpoint store (n : string) (e : Evaluator) (evs : list (string * Evaluator))
  : list (string * Evaluator) :=
  match evs with
  | [] => []
  | (k, e0) :: evs' => if String.eqb k n then (k, e) :: evs' else (k, e0) :: store n e evs'
  end.

Definition mem (n : string) (l : list string) : bool := existsb (String.eqb n) l.

(** [{name: self.evaluators[name] for name in model_names}]: a name that
    is not a key raises [KeyError]; a repeated name keeps its first place. *)
Fixpoint select (evs : list (string * Evaluator)) (seen model_names : list string)
  : result (list (string * Evaluator)) :=
  match model_names with
  | [] => Ok []
  | n :: rest =>
      match lookup n evs with
      | None => Raise KeyError
      | Some e =>
          do tl <- select evs (n :: seen) rest;
          Ok (if mem n seen then tl else (n, e) :: tl)
      end
  end.

(** The state of the loop of [npred_signal]. *)
Record SignalLoop : Type := mkLoop {
  npred_total : FMap;
  npred_list : list FMap;
  loop_labels : list string;
  loop_evaluators : list (string * Evaluator)
}.

(** One iteration of [for evaluator_name, evaluator in evaluators.items()]. *)
Definition signal_step (args : UpdateArgs) (stack : bool) (st : SignalLoop)
           (entry : string * Evaluator) : result SignalLoop :=
  let '(evaluator_name, evaluator) := entry in
  let evaluator := if needs_update evaluator then update evaluator args else evaluator in
  if contributes evaluator then
    let '(npred, evaluator) := compute_npred evaluator in
    let evaluator := if USE_NPRED_CACHE then evaluator
                     else reset_cache_properties evaluator in
    let evs := store evaluator_name evaluator (loop_evaluators st) in
    if stack then
      do total <- MapOps.stack (npred_total st) npred None true;
      Ok (mkLoop total (npred_list st) (loop_labels st) evs)
    else
      do npred_geom <- MapOps.stack (MapOps.from_geom (arg_geom args) EmptyString)
                                    npred None true;
      Ok (mkLoop (npred_total st) (npred_list st ++ [npred_geom])
                 (loop_labels st ++ [evaluator_name]) evs)
  else
    Ok (mkLoop (npred_total st) (npred_list st) (loop_labels st)
               (store evaluator_name evaluator (loop_evaluators st))).

Fixpoint signal_loop (args : UpdateArgs) (stack : bool) (st : SignalLoop)
         (evs : list (string * Evaluator)) : result SignalLoop :=
  match evs with
  | [] => Ok st
  | entry :: evs' =>
      do st' <- signal_step args stack st entry;
      signal_loop args stack st' evs'
  end.

Definition set_evaluators (ds : MapDataset) (evs : list (string * Evaluator)) : MapDataset :=
  mkDataset (name ds) (counts ds) (exposure ds) (background ds) (psf ds) (edisp ds)
            (mask_safe ds) (mask_fit ds) (background_model ds) (_background_cached ds)
            (_background_parameters_cached ds) evs (stat_type ds).

(** [MapDataset.npred_signal(model_names, stack)]: the map and the dataset
    with its evaluators as the call leaves them. *)
Definition npred_signal (ds : MapDataset) (model_names : option (list string))
           (stack : bool) : result (FMap * MapDataset) :=
  do g <- _geom ds;
  let zero_map := MapOps.from_geom g EmptyString in
  do selected <- match model_names with
                 | None => Ok (evaluators ds)
                 | Some names => select (evaluators ds) [] names
                 end;
  do image <- mask_image ds;
  let args := mkArgs (exposure ds) (psf ds) (edisp ds) g image in
  do st <- signal_loop args stack (mkLoop zero_map [] [] (evaluators ds)) selected;
  let ds' := set_evaluators ds (loop_evaluators st) in
  match npred_list st with
  | [] => Ok (npred_total st, ds')
  | _ :: _ =>
      let label_axis := mkAxis "models" (length (loop_labels st)) (loop_labels st) in
      Ok (MapOps.from_stack g (npred_list st) label_axis, ds')
  end.

(** *** npred_background and npred *)

(** [cached == values] on numpy arrays: [None == values] compares every
    element with [None] and is false everywhere; two arrays are compared
    element by element with the IEEE equality, for which [NaN] differs from
    every number, itself included. *)
Definition np_equal (cached : option (list float)) (values : list float) : list bool :=
  match cached with
  | None => List.map (fun _ => false) values
  | Some c => Np.zip_with PrimFloat.eqb c values
  end.

Definition set_background_cache (ds : MapDataset) (cached : option FMap)
           (params : option (list float)) : MapDataset :=
  mkDataset (name ds) (counts ds) (exposure ds) (background ds) (psf ds) (edisp ds)
            (mask_safe ds) (mask_fit ds) (background_model ds) cached params
            (evaluators ds) (stat_type ds).

(** [MapDataset._background_parameters_changed], a property that updates
    the cached parameter values when they changed; [values] are the
    current parameter values of the background model. *)
Definition _background_parameters_changed (ds : MapDataset) (values : list float)
  : bool * MapDataset :=
  let changed := negb (Np.all (np_equal (_background_parameters_cached ds) values)) in
  if changed then (changed, set_background_cache ds (_background_cached ds) (Some values))
  else (changed, ds).

(** The outcome of [npred_background]: the returned map ([None] is Python's
    [None]), the dataset as the call leaves it, and whether the call
    evaluated the background model ([evaluate_geom]). *)
Record BackgroundCall : Type := mkCall {
  returned : option FMap;
  after : MapDataset;
  evaluated : bool
}.

(** [MapDataset.npred_background] *)
Definition npred_background (ds : MapDataset) : BackgroundCall :=
  match background_model ds, background ds with
  | Some values, Some bkg =>
      let '(changed, ds1) := _background_parameters_changed ds values in
      if changed then
        let scale := evaluate_geom values (geom bkg) in
        let scaled := mkMap (geom bkg) (Np.mul (data bkg) scale) (unit bkg) in
        let ds2 := set_background_cache ds1 (Some scaled)
                                        (_background_parameters_cached ds1) in
        mkCall (_background_cached ds2) ds2 true
      else mkCall (_background_cached ds1) ds1 false
  | _, _ => mkCall (background ds) ds false
  end.

(** [npred_total.data[npred_total.data < 0.0] = 0] *)
Definition clip_negative (x : float) : float :=
  if PrimFloat.ltb x 0%float then 0%float else x.

(** [MapDataset.npred] *)
Definition npred (ds : MapDataset) : result (FMap * MapDataset) :=
  do sig <- npred_signal ds None true;
  let '(npred_total, ds1) := sig in
  do total <-
     match background ds1 with
     | Some _ =>
         let call := npred_background ds1 in
         match returned call with
         | Some bkg =>
             do sum <- MapOps.arith PrimFloat.add npred_total bkg;
             Ok (sum, after call)
         | None => Raise TypeError
         end
     | None => Ok (npred_total, ds1)
     end;
  let '(npred_total, ds2) := total in
  Ok (mkMap (geom npred_total) (List.map clip_negative (data npred_total))
            (unit npred_total), ds2).

End Dataset.

(** ** Stacking *)

Section Stacking.

Variable Evaluator : Type.
Variable evaluate_geom : list float -> Geom -> list float.

(** [a.sum()] of numpy, whose order of additions depends on the size of the
    array. *)
Variable np_sum : list float -> float.

Abbreviation Dataset := (MapDataset Evaluator).

Definition set_maps (ds : Dataset) (c e b : option FMap) (cached : option FMap)
           (params : option (list float)) (ms mf : option BMap) : Dataset :=
  mkDataset (name ds) c e b (psf ds) (edisp ds) ms mf (background_model ds) cached params
            (evaluators ds) (stat_type ds).

(** [if self.x and other.x: self.x.stack(other.x, weights, nan_to_num)] *)
Definition stack_role (self other : option FMap) (weights : option BMap)
           (nan_to_num : bool) : result (option FMap) :=
  match self, other with
  | Some a, Some b => do m <- MapOps.stack a b weights nan_to_num; Ok (Some m)
  | _, _ => Ok self
  end.

(** The Cash branch of [stack]: [background = self.npred_background()],
    [background.stack(other.npred_background(), weights, nan_to_num)] and
    [self.background = background].  The result holds the new background map
    and the two cache fields: when a background model is attached, the map
    that [npred_background] returns is the cached one, and stacking in place
    changes the cache too. *)
Definition stack_background (self other : Dataset) (nan_to_num : bool)
  : result (option FMap * option FMap * option (list float)) :=
  match stat_type self, background self, background other with
  | Cash, Some _, Some _ =>
      let call := npred_background evaluate_geom self in
      match returned call, returned (npred_background evaluate_geom other) with
      | Some background, Some other_background =>
          do stacked <- MapOps.stack background other_background (mask_safe other)
                                     nan_to_num;
          Ok (Some stacked,
              match background_model self with
              | Some _ => Some stacked
              | None => _background_cached (after call)
              end,
              _background_parameters_cached (after call))
      | _, _ => Raise AttributeError
      end
  | _, _, _ => Ok (background self, _background_cached self,
                   _background_parameters_cached self)
  end.

Definition stack_mask_safe (self other : Dataset) : result (option BMap) :=
  match mask_safe self, mask_safe other with
  | Some a, Some b => do m <- MapOps.stack_bool a b; Ok (Some m)
  | _, _ => Ok (mask_safe self)
  end.

Definition stack_mask_fit (self other : Dataset) : result (option BMap) :=
  match mask_fit self, mask_fit other with
  | Some a, Some b => do m <- MapOps.stack_bool a b; Ok (Some m)
  | None, Some b => Ok (Some b)
  | _, None => Ok (mask_fit self)
  end.

(** [MapDataset.stack(other, nan_to_num)]: the dataset [self] after the
    call.  The PSF and the energy dispersion, the good time intervals and the
    meta data, which are stacked by their own classes, are left out. *)
Definition stack (self other : Dataset) (nan_to_num : bool) : result Dataset :=
  do counts' <- stack_role (counts self) (counts other) (mask_safe other) nan_to_num;
  do exposure' <- stack_role (exposure self) (exposure other) (mask_safe_image other)
                             nan_to_num;
  do bkg <- stack_background self other nan_to_num;
  do mask_safe' <- stack_mask_safe self other;
  do mask_fit' <- stack_mask_fit self other;
  Ok (set_maps self counts' exposure' (fst (fst bkg)) (snd (fst bkg)) (snd bkg)
               mask_safe' mask_fit').

(** [MapDataset.from_geoms(geom)]: zero-filled counts and background, an
    all-false safe mask. *)
Definition from_geoms (g : Geom) (n : string) : Dataset :=
  mkDataset n (Some (MapOps.from_geom g EmptyString)) None
            (Some (MapOps.from_geom g EmptyString)) None None
            (Some (MapOps.from_geom_bool g)) None None None None [] Cash.

(** Three datasets stacked, one after the other, into the empty dataset
    that [from_geoms] creates on the geometry [g]. *)
Definition stack_three (g : Geom) (a b c : Dataset) (nan_to_num : bool) : result Dataset :=
  do s1 <- stack (from_geoms g "stacked") a nan_to_num;
  do s2 <- stack s1 b nan_to_num;
  stack s2 c nan_to_num.

(** [data[mask]]: the elements of an array at which a boolean array holds. *)
Fixpoint take_where (mask : list bool) (l : list float) : list float :=
  match mask, l with
  | b :: mask', x :: l' => if b then x :: take_where mask' l' else take_where mask' l'
  | _, _ => []
  end.

(** The masked total counts, [counts.data[mask_safe.data].sum()]. *)
Definition masked_total (ds : Dataset) : option float :=
  match counts ds, mask_safe ds with
  | Some c, Some m => Some (np_sum (take_where (data m) (data c)))
  | _, _ => None
  end.

(** *** MapDatasetOnOff *)

Record MapDatasetOnOff : Type := mkOnOff {
  base : Dataset;
  counts_off : option FMap;
  acceptance : option FMap;
  acceptance_off : option FMap
}.

(** [MapDatasetOnOff._geom] *)
Definition onoff_geom (ds : MapDatasetOnOff) : result Geom :=
  match counts (base ds), counts_off ds, acceptance ds, acceptance_off ds with
  | Some m, _, _, _ => Ok (geom m)
  | None, Some m, _, _ => Ok (geom m)
  | None, None, Some m, _ => Ok (geom m)
  | None, None, None, Some m => Ok (geom m)
  | None, None, None, None => Raise ValueError
  end.

(** [MapDatasetOnOff.alpha]: [acceptance / acceptance_off] through
    [np.nan_to_num]. *)
Definition alpha (ds : MapDatasetOnOff) : result FMap :=
  match acceptance ds, acceptance_off ds with
  | Some a, Some a_off =>
      do g <- onoff_geom ds;
      Ok (mkMap g (List.map Np.nan_to_num (Np.div (data a) (data a_off))) EmptyString)
  | _, _ => Raise AttributeError
  end.

(** [MapDatasetOnOff._is_stackable] *)
Definition _is_stackable (ds : MapDatasetOnOff) : result bool :=
  let incomplete :=
    match acceptance_off ds, acceptance ds, counts_off ds with
    | Some _, Some _, Some _ => false
    | _, _, _ => true
    end in
  match mask_safe (base ds) with
  | None => Raise AttributeError
  | Some m =>
      let unmasked := Np.any (data m) in
      Ok (negb (incomplete && unmasked))
  end.

(** [if ds.counts_off: total.stack(x, weights, nan_to_num)], with [x] either
    [counts_off] or [alpha * counts_off]. *)
Definition stack_off (total_off total_alpha : FMap) (ds : MapDatasetOnOff)
           (weights : option BMap) (nan_to_num : bool) : result (FMap * FMap) :=
  match counts_off ds with
  | Some off =>
      do t_off <- MapOps.stack total_off off weights nan_to_num;
      do al <- alpha ds;
      do alpha_off <- MapOps.arith PrimFloat.mul al off;
      do t_alpha <- MapOps.stack total_alpha alpha_off weights nan_to_num;
      Ok (t_off, t_alpha)
  | None => Ok (total_off, total_alpha)
  end.

(** [acceptance_off.data[is_zero] = total_acceptance.data[is_zero] / average_alpha] *)
Fixpoint where_zero (total_off total_acceptance acceptance_off : list float)
         (average_alpha : float) : list float :=
  match total_off, total_acceptance, acceptance_off with
  | off :: offs, acc :: accs, x :: xs =>
      (if PrimFloat.eqb off 0%float then PrimFloat.div acc average_alpha else x)
        :: where_zero offs accs xs average_alpha
  | _, _, _ => acceptance_off
  end.

(** [MapDatasetOnOff.stack(other, nan_to_num)] *)
Definition onoff_stack (self other : MapDatasetOnOff) (nan_to_num : bool)
  : result MapDatasetOnOff :=
  do ok_self <- _is_stackable self;
  do ok_other <- (if ok_self then _is_stackable other else Ok true);
  if negb ok_self || negb ok_other then Raise ValueError
  else
    match counts (base self), acceptance self, acceptance other with
    | Some c, Some acc, Some acc_other =>
        let g := geom c in
        let zero := MapOps.from_geom g EmptyString in
        do t_acc <- MapOps.stack zero acc None nan_to_num;
        do total_acceptance <- MapOps.stack t_acc acc_other (mask_safe (base other))
                                            nan_to_num;
        do totals <- stack_off zero zero self None nan_to_num;
        do totals <- stack_off (fst totals) (snd totals) other (mask_safe (base other))
                               nan_to_num;
        let '(total_off, total_alpha) := totals in
        do product <- MapOps.arith PrimFloat.mul total_acceptance total_off;
        do acceptance_off <- MapOps.arith PrimFloat.div product total_alpha;
        let average_alpha := PrimFloat.div (np_sum (data total_alpha))
                                           (np_sum (data total_off)) in
        let acceptance_off' :=
          mkMap (geom acceptance_off)
                (where_zero (data total_off) (data total_acceptance) (data acceptance_off)
                            average_alpha)
                (unit acceptance_off) in
        (* self.acceptance.data[...] = total_acceptance.data *)
        let acceptance' := mkMap (geom acc) (data total_acceptance) (unit acc) in
        do base' <- stack (base self) (base other) nan_to_num;
        (* with stat_type "cash" the base class assigns [self.background],
           which is a property without a setter in this class *)
        match stat_type (base self), counts_off other with
        | Cash, Some _ => Raise AttributeError
        | _, _ => Ok (mkOnOff base' (Some total_off) (Some acceptance') (Some acceptance_off'))
        end
    | _, _, _ => Raise AttributeError
    end.

End Stacking.

(** ** Writing and reading a dataset

    [to_hdulist] lays the populated maps of a dataset out as a list of HDUs
    and [from_hdulist] reads a dataset back.  Writing the list to a file and
    opening the file ([write], [read]) is left to [astropy.io.fits]. *)

Module IO.

(** A numpy array with its dtype. *)
Inductive ndarray : Type :=
  | FloatArray (l : list float)
  | IntArray (l : list Z)
  | BoolArray (l : list bool).

(** [a.astype(bool)]: an element is true when it is not zero. *)
Definition astype_bool (a : ndarray) : ndarray :=
  match a with
  | FloatArray l => BoolArray (List.map (fun x => negb (PrimFloat.eqb x 0%float)) l)
  | IntArray l => BoolArray (List.map (fun k => negb (Z.eqb k 0)) l)
  | BoolArray l => BoolArray l
  end.

Definition is_bool (a : ndarray) : bool :=
  match a with
  | BoolArray _ => true
  | _ => false
  end.

(** A map as it is stored: the data array carries its dtype. *)
Record Image : Type := mkImage {
  im_geom : Geom;
  im_data : ndarray;
  im_unit : string
}.

Inductive hdu : Type :=
  | PrimaryHDU
  | ImageHDU (hdu_name : string) (image : Image)
  | BandsHDU (hdu_name : string) (bands : list MapAxis).

Definition name_of (h : hdu) : string :=
  match h with
  | PrimaryHDU => "PRIMARY"
  | ImageHDU n _ => n
  | BandsHDU n _ => n
  end.

(** [name in hdulist] *)
Definition contains (n : string) (hdulist : list hdu) : bool :=
  existsb (fun h => String.eqb (name_of h) n) hdulist.

(** [del hdulist[name]]: a name that is not in the list raises [KeyError]. *)
Fixpoint delete (n : string) (hdulist : list hdu) : result (list hdu) :=
  match hdulist with
  | [] => Raise KeyError
  | h :: rest =>
      if String.eqb (name_of h) n then Ok rest
      else do rest' <- delete n rest; Ok (h :: rest')
  end.

(** Modelled from the spec: [Map.to_hdulist(hdu=name)] of [gammapy.maps]
    without its primary HDU, which is not among the sources; "one sub-unit
    per populated role".  A map with non-spatial axes comes with a second HDU
    that describes them, named after the first with the suffix [_BANDS]. *)
Definition image_hdus (n : string) (g : Geom) (d : ndarray) (u : string) : list hdu :=
  ImageHDU n (mkImage g d u)
  :: match axes g with
     | [] => []
     | _ :: _ => [BandsHDU (n ++ "_BANDS") (axes g)]
     end.

Definition map_to_hdulist (n : string) (m : FMap) : list hdu :=
  image_hdus n (geom m) (FloatArray (data m)) (unit m).

(** Modelled from the spec: a boolean mask is stored "as an integer mask". *)
Definition mask_to_hdulist (n : string) (m : BMap) : list hdu :=
  image_hdus n (geom m) (IntArray (List.map (fun b : bool => if b then 1%Z else 0%Z) (data m)))
             (unit m).

Definition optional {A : Type} (f : A -> list hdu) (o : option A) : list hdu :=
  match o with
  | Some a => f a
  | None => []
  end.

(** [edisp.to_hdulist()] and [psf.to_hdulist()] without their primary HDU:
    only an IRF map has the method. *)
Definition irf_to_hdulist (o : option irf_obj) : result (list hdu) :=
  match o with
  | None => Ok []
  | Some (IrfPSFMap m) => Ok (map_to_hdulist "PSF" m)
  | Some (IrfEDispMap m) => Ok (map_to_hdulist "EDISP" m)
  | Some (IrfEDispKernelMap m) => Ok (map_to_hdulist "EDISP" m)
  | Some IrfHDULocation => Raise AttributeError
  | Some (IrfOther _) => Raise AttributeError
  end.

Section Writing.

Variable Evaluator : Type.

(** [MapDataset.to_hdulist], for the background map that [self.background]
    gives: the attribute for a [MapDataset], the property [alpha *
    counts_off] for a [MapDatasetOnOff].  The tables (good time intervals,
    meta table) are left out. *)
Definition to_hdulist_with (bkg : option FMap) (ds : MapDataset Evaluator)
  : result (list hdu) :=
  do edisp_hdus <- irf_to_hdulist (edisp ds);
  do psf_hdus <- irf_to_hdulist (psf ds);
  Ok (PrimaryHDU
      :: optional (map_to_hdulist "COUNTS") (counts ds)
      ++ optional (map_to_hdulist "EXPOSURE") (exposure ds)
      ++ optional (map_to_hdulist "BACKGROUND") bkg
      ++ edisp_hdus
      ++ psf_hdus
      ++ optional (mask_to_hdulist "MASK_SAFE") (mask_safe ds)
      ++ optional (mask_to_hdulist "MASK_FIT") (mask_fit ds)).

(** [MapDataset.to_hdulist] *)
Definition to_hdulist (ds : MapDataset Evaluator) : result (list hdu) :=
  to_hdulist_with (background ds) ds.

(** [MapDatasetOnOff.background]: [None] without off counts, else
    [alpha * counts_off]. *)
Definition onoff_background (ds : MapDatasetOnOff Evaluator) : result (option FMap) :=
  match counts_off ds with
  | None => Ok None
  | Some off =>
      do al <- alpha ds;
      do b <- MapOps.arith PrimFloat.mul al off;
      Ok (Some b)
  end.

(** [MapDatasetOnOff.to_hdulist] *)
Definition onoff_to_hdulist (ds : MapDatasetOnOff Evaluator) : result (list hdu) :=
  do bkg <- onoff_background ds;
  do hdulist <- to_hdulist_with bkg (base ds);
  do hdulist <- delete "BACKGROUND" hdulist;
  do hdulist <- delete "BACKGROUND_BANDS" hdulist;
  Ok (hdulist
      ++ optional (map_to_hdulist "COUNTS_OFF") (counts_off ds)
      ++ optional (map_to_hdulist "ACCEPTANCE") (acceptance ds)
      ++ optional (map_to_hdulist "ACCEPTANCE_OFF") (acceptance_off ds)).

End Writing.

Section Reading.

(** What [Map.from_hdulist] makes of the array stored in the HDU of a given
    name; [gammapy.maps] is not among the sources. *)
Variable decode : string -> ndarray -> ndarray.

Fixpoint find_image (n : string) (hdulist : list hdu) : option (Image) :=
  match hdulist with
  | [] => None
  | ImageHDU k m :: rest => if String.eqb k n then Some m else find_image n rest
  | _ :: rest => find_image n rest
  end.

(** Modelled from the spec: [Map.from_hdulist(hdulist, hdu=name)]; "round
    trip must reproduce all populated roles". *)
Definition map_from_hdulist (hdulist : list hdu) (n : string) : result (Image) :=
  match find_image n hdulist with
  | Some m => Ok (mkImage (im_geom m) (decode n (im_data m)) (im_unit m))
  | None => Raise KeyError
  end.

(** [if name in hdulist: kwargs[role] = Map.from_hdulist(hdulist, hdu=name)] *)
Definition read_role (hdulist : list hdu) (n : string) : result (option (Image)) :=
  if contains n hdulist then do m <- map_from_hdulist hdulist n; Ok (Some m)
  else Ok None.

(** The dataset that [from_hdulist] builds: its maps carry the dtype they
    were read with. *)
Record Loaded : Type := mkLoaded {
  ld_counts : option (Image);
  ld_exposure : option (Image);
  ld_background : option (Image);
  ld_edisp : option (Image);
  ld_psf : option (Image);
  ld_mask_safe : option (Image);
  ld_mask_fit : option (Image);
  ld_counts_off : option (Image);
  ld_acceptance : option (Image);
  ld_acceptance_off : option (Image)
}.

(** [if exposure.geom.axes[0].name == "energy":
        exposure.geom.axes[0].name = "energy_true"] *)
Definition rename_energy (m : Image) : result (Image) :=
  match axes (im_geom m) with
  | [] => Raise IndexError
  | a :: rest =>
      if String.eqb (axis_name a) "energy"
      then Ok (mkImage (mkGeom (npix (im_geom m))
                               (mkAxis "energy_true" (nbin a) (labels a) :: rest))
                       (im_data m) (im_unit m))
      else Ok m
  end.

(** [mask.data = mask.data.astype(bool)] *)
Definition cast_mask (m : Image) : Image :=
  mkImage (im_geom m) (astype_bool (im_data m)) (im_unit m).

(** [MapDataset.from_hdulist] *)
Definition from_hdulist (hdulist : list hdu) : result Loaded :=
  do counts <- read_role hdulist "COUNTS";
  do exposure <- read_role hdulist "EXPOSURE";
  do exposure <- match exposure with
                 | Some m => do m' <- rename_energy m; Ok (Some m')
                 | None => Ok None
                 end;
  do background <- read_role hdulist "BACKGROUND";
  do edisp <- read_role hdulist "EDISP";
  do psf <- read_role hdulist "PSF";
  do mask_safe <- read_role hdulist "MASK_SAFE";
  do mask_fit <- read_role hdulist "MASK_FIT";
  Ok (mkLoaded counts exposure background edisp psf
               (option_map cast_mask mask_safe) (option_map cast_mask mask_fit)
               None None None).

(** [MapDatasetOnOff.from_hdulist] *)
Definition onoff_from_hdulist (hdulist : list hdu) : result Loaded :=
  do counts <- read_role hdulist "COUNTS";
  do counts_off <- read_role hdulist "COUNTS_OFF";
  do acceptance <- read_role hdulist "ACCEPTANCE";
  do acceptance_off <- read_role hdulist "ACCEPTANCE_OFF";
  do exposure <- read_role hdulist "EXPOSURE";
  do edisp <- read_role hdulist "EDISP";
  do psf <- read_role hdulist "PSF";
  do mask_safe <- read_role hdulist "MASK_SAFE";
  do mask_fit <- read_role hdulist "MASK_FIT";
  Ok (mkLoaded counts exposure None edisp psf mask_safe mask_fit
               counts_off acceptance acceptance_off).

End Reading.

End IO.

(** ** Facts about binary64 numbers

    The primitive operations are specified by the Standard Library through
    [Prim2SF] and the operations on [spec_float]. *)

Module FloatFacts.

Lemma SFcompare_refl (s : spec_float) :
  s <> S754_nan -> SFcompare s s = Some Eq.
Proof.
  destruct s as [b|b| |b m e]; simpl; intros H; try congruence.
  - now destruct b.
  - destruct b; rewrite Z.compare_refl, Pos.compare_cont_refl; reflexivity.
Qed.

(** A number that differs from itself is the NaN. *)
Lemma isnan_spec (x : float) : Np.isnan x = true -> Prim2SF x = S754_nan.
Proof.
  unfold Np.isnan. rewrite eqb_spec. unfold SFeqb. intros H.
  destruct (Prim2SF x) eqn:Hx; auto;
    rewrite SFcompare_refl in H by congruence; discriminate.
Qed.

(** The NaN is equal to no number. *)
Lemma eqb_nan_r (y x : float) : Np.isnan x = true -> PrimFloat.eqb y x = false.
Proof.
  intros H. rewrite eqb_spec, (isnan_spec x H). unfold SFeqb.
  now destruct (Prim2SF y).
Qed.

Lemma eqb_nan_l (x y : float) : Np.isnan x = true -> PrimFloat.eqb x y = false.
Proof.
  intros H. rewrite eqb_spec, (isnan_spec x H). reflexivity.
Qed.

Lemma SFcompare_antisym (a b : spec_float) :
  SFcompare a b = option_map CompOpp (SFcompare b a).
Proof.
  destruct a as [sa|sa| |sa ma ea], b as [sb|sb| |sb mb eb]; simpl; auto;
    try (destruct sa; reflexivity); try (destruct sb; reflexivity);
    try (destruct sa, sb; reflexivity).
  destruct sa, sb; simpl; auto; rewrite (Z.compare_antisym ea eb);
    destruct (ea ?= eb)%Z eqn:He; simpl; auto;
    rewrite (Pos.compare_cont_antisym mb ma Eq); simpl;
    now destruct (Pos.compare_cont Eq ma mb).
Qed.

Lemma not_nan_spec (x : float) : Np.isnan x = false -> Prim2SF x <> S754_nan.
Proof.
  unfold Np.isnan. rewrite eqb_spec. intros H Hx. rewrite Hx in H. discriminate.
Qed.

Lemma SFcompare_total (a b : spec_float) :
  a <> S754_nan -> b <> S754_nan -> exists c, SFcompare a b = Some c.
Proof.
  destruct a, b; simpl; intros Ha Hb; try congruence; eauto.
Qed.

(** Between two numbers, [x <= y] holds when [y < x] fails. *)
Lemma not_ltb_leb (x y : float) :
  Np.isnan x = false -> Np.isnan y = false ->
  PrimFloat.ltb y x = false -> PrimFloat.leb x y = true.
Proof.
  intros Hx Hy. rewrite ltb_spec, leb_spec. unfold SFltb, SFleb.
  rewrite (SFcompare_antisym (Prim2SF x) (Prim2SF y)).
  destruct (SFcompare_total (not_nan_spec _ Hy) (not_nan_spec _ Hx)) as (c & ->).
  now destruct c.
Qed.

Lemma ltb_leb (x y : float) : PrimFloat.ltb x y = true -> PrimFloat.leb x y = true.
Proof.
  rewrite ltb_spec, leb_spec. unfold SFltb, SFleb.
  now destruct (SFcompare (Prim2SF x) (Prim2SF y)) as [[]|].
Qed.

Lemma leb_refl (x : float) : Np.isnan x = false -> PrimFloat.leb x x = true.
Proof.
  intros Hx. rewrite leb_spec. unfold SFleb.
  now rewrite SFcompare_refl by now apply not_nan_spec.
Qed.

Lemma Prim2SF_zero : Prim2SF 0%float = S754_zero false.
Proof. reflexivity. Qed.

Lemma Prim2SF_infinity : Prim2SF infinity = S754_infinity false.
Proof. reflexivity. Qed.

(** A finite number is a zero or a number with a mantissa. *)
Lemma isfinite_spec (x : float) :
  Np.isfinite x = true ->
  (exists s, Prim2SF x = S754_zero s) \/ (exists s m e, Prim2SF x = S754_finite s m e).
Proof.
  unfold Np.isfinite. rewrite ltb_spec, abs_spec, Prim2SF_infinity.
  destruct (Prim2SF x) as [s|s| |s m e]; simpl; intros H; try discriminate; eauto.
Qed.

Lemma zero_not_finite_finite (x : float) : Np.isfinite (Np.zero_not_finite x) = true.
Proof.
  unfold Np.zero_not_finite. destruct (Np.isfinite x) eqn:H; auto.
Qed.

Lemma zero_not_finite_id (x : float) : Np.isfinite x = true -> Np.zero_not_finite x = x.
Proof. unfold Np.zero_not_finite. now intros ->. Qed.

(** Two array elements hold the same number: they are equal, or both are the
    NaN. *)
Definition same (x y : float) : bool :=
  PrimFloat.eqb x y || (Np.isnan x && Np.isnan y).

(** A finite number times the weight of a masked bin adds nothing. *)
Lemma add_masked (a x : float) :
  Np.isfinite x = true ->
  same (PrimFloat.add a (PrimFloat.mul x (Np.of_bool false))) a = true.
Proof.
  intros Hx. unfold same, Np.isnan. rewrite !eqb_spec, add_spec, mul_spec. simpl Np.of_bool.
  rewrite Prim2SF_zero.
  destruct (isfinite_spec Hx) as [(s & ->)|(s & m & e & ->)];
    destruct (Prim2SF a) as [sa|sa| |sa ma ea]; simpl; auto.
  - destruct sa, s; reflexivity.
  - destruct sa; reflexivity.
  - unfold SFeqb. now rewrite SFcompare_refl.
  - destruct sa, s; reflexivity.
  - destruct sa; reflexivity.
  - unfold SFeqb. now rewrite SFcompare_refl.
Qed.

End FloatFacts.

(** ** Natural numbers held by binary64 numbers

    Counts are natural numbers stored as floats.  Below [2 ^ 53] the float
    that holds a natural number is found by [binary_normalize] without
    rounding, and the sum of two of them is the float that holds the sum of
    the numbers. *)

Module IntegerFloats.

Section Exact.

Local Open Scope Z_scope.

Ltac format_lia :=
  change (SpecFloat.emin prec emax) with (-1074) in *;
  change prec with 53 in *; change emax with 1024 in *; lia.

Definition shl (p : positive) (k : nat) : positive := Nat.iter k xO p.

Lemma shl_S (p : positive) (k : nat) : shl p (S k) = xO (shl p k).
Proof. reflexivity. Qed.

Lemma shl_S_inner (p : positive) (k : nat) : shl p (S k) = shl (xO p) k.
Proof. unfold shl. now rewrite Nat.iter_succ_r. Qed.

Lemma shl_add (p : positive) (j k : nat) : shl (shl p j) k = shl p (j + k).
Proof.
  unfold shl. rewrite Nat.add_comm. now rewrite Nat.iter_add.
Qed.

Lemma shl_plus (p q : positive) (k : nat) : (shl p k + shl q k = shl (p + q) k)%positive.
Proof.
  induction k as [|k IH]; simpl; auto. rewrite <- IH. reflexivity.
Qed.

Lemma iter_xO_shl (p d : positive) : Pos.iter xO p d = shl p (Pos.to_nat d).
Proof. unfold shl. rewrite Pos2Nat.inj_iter. reflexivity. Qed.

Definition digits (p : positive) : Z := Zpos (digits2_pos p).

Lemma digits_pos (p : positive) : 1 <= digits p.
Proof. unfold digits. lia. Qed.

Lemma digits_shl (p : positive) (k : nat) : digits (shl p k) = digits p + Z.of_nat k.
Proof.
  unfold digits. induction k as [|k IH].
  - simpl. lia.
  - rewrite shl_S. simpl digits2_pos. rewrite Pos2Z.inj_succ, IH. lia.
Qed.

Lemma digits_bounds (p : positive) : 2 ^ (digits p - 1) <= Zpos p < 2 ^ digits p.
Proof.
  unfold digits. induction p as [p IH|p IH|]; simpl digits2_pos.
  - rewrite Pos2Z.inj_succ.
    set (d := Zpos (digits2_pos p)) in *.
    assert (E1 : 2 ^ d = 2 * 2 ^ (d - 1)).
    { rewrite <- Z.pow_succ_r by lia. f_equal. lia. }
    assert (E2 : 2 ^ Z.succ d = 2 * 2 ^ d) by (apply Z.pow_succ_r; lia).
    replace (Z.succ d - 1) with d by lia. lia.
  - rewrite Pos2Z.inj_succ.
    set (d := Zpos (digits2_pos p)) in *.
    assert (E1 : 2 ^ d = 2 * 2 ^ (d - 1)).
    { rewrite <- Z.pow_succ_r by lia. f_equal. lia. }
    assert (E2 : 2 ^ Z.succ d = 2 * 2 ^ d) by (apply Z.pow_succ_r; lia).
    replace (Z.succ d - 1) with d by lia. lia.
  - simpl. lia.
Qed.

Lemma digits_le (p q : positive) : (p <= q)%positive -> digits p <= digits q.
Proof.
  intros H. destruct (Z_le_gt_dec (digits p) (digits q)) as [|Hgt]; auto.
  exfalso. pose proof (digits_bounds p) as [Hp _]. pose proof (digits_bounds q) as [_ Hq].
  assert (2 ^ digits q <= 2 ^ (digits p - 1)).
  { apply Z.pow_le_mono_r; try lia. }
  lia.
Qed.

Lemma digits_lt_pow (p : positive) (n : Z) : 0 <= n -> Zpos p < 2 ^ n -> digits p <= n.
Proof.
  intros Hn H. destruct (Z_le_gt_dec (digits p) n) as [|Hgt]; auto.
  exfalso. pose proof (digits_bounds p) as [Hp _].
  assert (2 ^ n <= 2 ^ (digits p - 1)) by (apply Z.pow_le_mono_r; lia).
  lia.
Qed.

Lemma iter_pos_nat {A : Type} (f : A -> A) (n : positive) (x : A) :
  iter_pos f n x = Nat.iter (Pos.to_nat n) f x.
Proof.
  revert x; induction n as [n IH|n IH|]; intros x; simpl iter_pos.
  - rewrite !IH, Pos2Nat.inj_xI. rewrite <- Nat.iter_add.
    replace (S (2 * Pos.to_nat n)) with (S (Pos.to_nat n + Pos.to_nat n)) by lia.
    now rewrite Nat.iter_succ_r.
  - rewrite !IH, Pos2Nat.inj_xO. rewrite <- Nat.iter_add.
    f_equal. lia.
  - reflexivity.
Qed.

Definition exact_record (m : positive) : shr_record :=
  {| shr_m := Zpos m; shr_r := false; shr_s := false |}.

Lemma shr_1_exact (n : nat) (m : positive) :
  Nat.iter n shr_1 (exact_record (shl m n)) = exact_record m.
Proof.
  induction n as [|n IH]; auto.
  rewrite Nat.iter_succ_r, shl_S. exact IH.
Qed.

Lemma fexp_small (e : Z) : emin <= e - prec -> fexp prec emax e = e - prec.
Proof. unfold fexp. lia. Qed.

Lemma shr_fexp_exact (m : positive) (k : nat) (e : Z) :
  digits m = prec -> emin <= e + Z.of_nat k ->
  shr_fexp prec emax (Zpos (shl m k)) e loc_Exact = (exact_record m, e + Z.of_nat k).
Proof.
  intros Hd He. unfold shr_fexp. simpl Zdigits2.
  change (Zpos (digits2_pos (shl m k))) with (digits (shl m k)).
  rewrite digits_shl, Hd, fexp_small by lia.
  replace (prec + Z.of_nat k + e - prec - e) with (Z.of_nat k) by lia.
  simpl shr_record_of_loc. fold (exact_record (shl m k)).
  destruct k as [|k].
  - simpl. f_equal. lia.
  - unfold shr. destruct (Z.of_nat (S k)) as [|p|p] eqn:Hp; try lia.
    rewrite iter_pos_nat. assert (Hk : Pos.to_nat p = S k) by lia.
    rewrite Hk, shr_1_exact. reflexivity.
Qed.

(** Rounding a mantissa of [prec] digits followed by [k] zero bits is exact. *)
Lemma binary_round_aux_exact (s : bool) (m : positive) (k : nat) (e : Z) :
  digits m = prec -> emin <= e + Z.of_nat k <= emax - prec ->
  binary_round_aux prec emax s (Zpos (shl m k)) e loc_Exact
  = S754_finite s m (e + Z.of_nat k).
Proof.
  intros Hd He. unfold binary_round_aux.
  rewrite shr_fexp_exact by lia. simpl shr_m. simpl loc_of_shr_record.
  simpl round_nearest_even.
  change m with (shl m 0) at 1. rewrite shr_fexp_exact by lia.
  simpl shr_m. replace (e + Z.of_nat k + Z.of_nat 0) with (e + Z.of_nat k) by lia.
  destruct (Z.leb_spec (e + Z.of_nat k) (emax - prec)); auto. lia.
Qed.

(** The mantissa of [prec] digits of a number of at most [prec] digits. *)
Definition mantissa (p : positive) : positive := shl p (Z.to_nat (prec - digits p)).

Lemma digits_mantissa (p : positive) : digits p <= prec -> digits (mantissa p) = prec.
Proof.
  intros H. unfold mantissa. rewrite digits_shl. pose proof (digits_pos p). lia.
Qed.

(** Rounding a number of at most [prec] digits, followed by zero bits, is exact. *)
Lemma binary_round_exact (s : bool) (p : positive) (j : nat) (e : Z) :
  digits p <= prec ->
  emin <= e + Z.of_nat j - (prec - digits p) <= emax - prec ->
  binary_round prec emax s (shl p j) e
  = S754_finite s (mantissa p) (e + Z.of_nat j - (prec - digits p)).
Proof.
  intros Hd He. unfold binary_round.
  change (Zpos (digits2_pos (shl p j))) with (digits (shl p j)).
  rewrite digits_shl, fexp_small by lia.
  unfold shl_align.
  pose proof (digits_pos p) as Hp.
  destruct (digits p + Z.of_nat j + e - prec - e) as [|d|d] eqn:Hdiff.
  - replace (shl p j) with (shl (mantissa p) 0).
    + rewrite binary_round_aux_exact; [f_equal; lia| now apply digits_mantissa | lia].
    + unfold mantissa. rewrite shl_add. f_equal. lia.
  - replace (shl p j) with (shl (mantissa p) (Pos.to_nat d)).
    + rewrite binary_round_aux_exact; [f_equal; lia| now apply digits_mantissa | lia].
    + unfold mantissa. rewrite shl_add. f_equal. lia.
  - rewrite iter_xO_shl, shl_add.
    replace (shl p (j + Pos.to_nat d)) with (shl (mantissa p) 0).
    + rewrite binary_round_aux_exact; [f_equal; lia| now apply digits_mantissa | lia].
    + unfold mantissa. rewrite shl_add. f_equal. lia.
Qed.

(** The binary64 number that holds a natural number below [2 ^ prec]. *)
Definition SFcount (k : Z) : spec_float := binary_normalize prec emax k 0 false.

Lemma SFcount_pos (p : positive) :
  digits p <= prec ->
  SFcount (Zpos p) = S754_finite false (mantissa p) (digits p - prec).
Proof.
  intros H. unfold SFcount, binary_normalize. pose proof (digits_pos p).
  change p with (shl p 0) at 1. rewrite binary_round_exact; try lia.
  - f_equal. lia.
  - format_lia.
Qed.

Lemma shl_align_mantissa (p : positive) (dmin : Z) :
  digits p <= prec -> 1 <= dmin <= digits p ->
  fst (shl_align (mantissa p) (digits p - prec) (dmin - prec))
  = shl p (Z.to_nat (prec - dmin)).
Proof.
  intros Hd Hm. unfold shl_align, mantissa.
  destruct (dmin - prec - (digits p - prec)) as [|d|d] eqn:Hdiff; cbn [fst].
  - replace dmin with (digits p) by lia. reflexivity.
  - lia.
  - rewrite iter_xO_shl, shl_add.
    replace (Z.to_nat (prec - digits p) + Pos.to_nat d)%nat
      with (Z.to_nat (prec - dmin)) by lia.
    reflexivity.
Qed.

(** The sum of two natural numbers is exact when it is below [2 ^ prec]. *)
Lemma SFadd_count (a b : Z) :
  0 <= a -> 0 <= b -> a + b < 2 ^ prec ->
  SFadd prec emax (SFcount a) (SFcount b) = SFcount (a + b).
Proof.
  intros Ha Hb Hab.
  destruct a as [|p|p]; [|clear Ha|lia].
  { destruct b as [|q|q]; [reflexivity| |lia].
    simpl Z.add. rewrite SFcount_pos by (apply digits_lt_pow; unfold prec in *; lia).
    reflexivity. }
  destruct b as [|q|q]; [|clear Hb|lia].
  { rewrite Z.add_0_r. rewrite SFcount_pos by (apply digits_lt_pow; unfold prec in *; lia).
    reflexivity. }
  assert (Hpq : digits (p + q) <= prec) by (apply digits_lt_pow; unfold prec in *; lia).
  assert (Hp : digits p <= digits (p + q)) by (apply digits_le; lia).
  assert (Hq : digits q <= digits (p + q)) by (apply digits_le; lia).
  pose proof (digits_pos p) as Hp1. pose proof (digits_pos q) as Hq1.
  rewrite !SFcount_pos by lia.
  change (Zpos p + Zpos q) with (Zpos (p + q)). rewrite SFcount_pos by lia.
  unfold SFadd.
  set (dmin := Z.min (digits p) (digits q)).
  replace (Z.min (digits p - prec) (digits q - prec)) with (dmin - prec) by (unfold dmin; lia).
  rewrite !shl_align_mantissa by (unfold dmin; lia).
  unfold cond_Zopp. change (Zpos ?x + Zpos ?y) with (Zpos (x + y)).
  rewrite shl_plus. unfold binary_normalize.
  rewrite binary_round_exact; try lia.
  - f_equal. unfold dmin. lia.
  - unfold dmin. format_lia.
Qed.

Lemma SFcount_valid (k : Z) : 0 <= k < 2 ^ prec -> valid_binary (SFcount k) = true.
Proof.
  intros [H0 Hk]. destruct k as [|p|p]; [reflexivity| |lia].
  assert (Hd : digits p <= prec) by (apply digits_lt_pow; unfold prec in *; lia).
  rewrite SFcount_pos by exact Hd. pose proof (digits_pos p).
  unfold SpecFloat.valid_binary, bounded, canonical_mantissa.
  change (Zpos (digits2_pos (mantissa p))) with (digits (mantissa p)).
  rewrite digits_mantissa, fexp_small by format_lia.
  apply andb_true_intro. split.
  - apply Z.eqb_eq. lia.
  - apply Z.leb_le. format_lia.
Qed.

(** The float that holds the natural number [k]. *)
Definition count (k : Z) : float := SF2Prim (SFcount k).

Lemma Prim2SF_count (k : Z) : 0 <= k < 2 ^ prec -> Prim2SF (count k) = SFcount k.
Proof. intros H. apply Prim2SF_SF2Prim. now apply SFcount_valid. Qed.

Theorem count_add (a b : Z) :
  0 <= a -> 0 <= b -> a + b < 2 ^ prec ->
  PrimFloat.add (count a) (count b) = count (a + b).
Proof.
  intros Ha Hb Hab. apply Prim2SF_inj.
  rewrite add_spec, !Prim2SF_count by lia. now apply SFadd_count.
Qed.

Lemma shl_mul (m : positive) (k : nat) : (m * shl 1 k = shl m k)%positive.
Proof.
  induction k as [|k IH]; simpl.
  - apply Pos.mul_1_r.
  - rewrite <- IH. apply Pos.mul_xO_r.
Qed.

Lemma SFmul_count_one (k : Z) :
  0 <= k < 2 ^ prec -> SFmul prec emax (SFcount k) (Prim2SF 1%float) = SFcount k.
Proof.
  intros [H0 Hk]. destruct k as [|p|p]; [reflexivity| |lia].
  assert (Hd : digits p <= prec) by (apply digits_lt_pow; unfold prec in *; lia).
  rewrite SFcount_pos by exact Hd. pose proof (digits_pos p).
  change (Prim2SF 1%float) with (S754_finite false (shl 1 52) (-52)).
  unfold SFmul. rewrite shl_mul. simpl xorb.
  rewrite binary_round_aux_exact.
  - f_equal. lia.
  - now apply digits_mantissa.
  - format_lia.
Qed.

Lemma SFmul_count_zero (k : Z) :
  0 <= k < 2 ^ prec -> SFmul prec emax (SFcount k) (Prim2SF 0%float) = SFcount 0.
Proof.
  intros [H0 Hk]. destruct k as [|p|p]; [reflexivity| |lia].
  assert (Hd : digits p <= prec) by (apply digits_lt_pow; unfold prec in *; lia).
  rewrite SFcount_pos by exact Hd. reflexivity.
Qed.

Theorem count_mul_bool (k : Z) (w : bool) :
  0 <= k < 2 ^ prec ->
  PrimFloat.mul (count k) (if w then 1%float else 0%float) = count (if w then k else 0).
Proof.
  intros Hk. apply Prim2SF_inj. rewrite mul_spec.
  destruct w.
  - rewrite !Prim2SF_count by lia. now apply SFmul_count_one.
  - rewrite Prim2SF_count by lia. rewrite SFmul_count_zero by lia. reflexivity.
Qed.

Theorem count_finite (k : Z) :
  0 <= k < 2 ^ prec -> PrimFloat.ltb (PrimFloat.abs (count k)) infinity = true.
Proof.
  intros Hk. rewrite ltb_spec, abs_spec, Prim2SF_count by lia.
  destruct Hk as [H0 Hk]. destruct k as [|p|p]; [reflexivity| |lia].
  rewrite SFcount_pos by (apply digits_lt_pow; unfold prec in *; lia). reflexivity.
Qed.

Example count_3 : count 3 = 3%float.
Proof. reflexivity. Qed.

Lemma count_0 : count 0 = 0%float.
Proof. reflexivity. Qed.

End Exact.

End IntegerFloats.

(** ** Properties of npred_signal *)

Section SignalProperties.

Variable Evaluator : Type.
Variable needs_update : Evaluator -> bool.
Variable update : Evaluator -> UpdateArgs -> Evaluator.
Variable contributes : Evaluator -> bool.
Variable compute_npred : Evaluator -> FMap * Evaluator.
Variable reset_cache_properties : Evaluator -> Evaluator.
Variable USE_NPRED_CACHE : bool.

Abbreviation signal_step' :=
  (signal_step needs_update update contributes compute_npred reset_cache_properties
               USE_NPRED_CACHE).
Abbreviation signal_loop' :=
  (signal_loop needs_update update contributes compute_npred reset_cache_properties
               USE_NPRED_CACHE).
Abbreviation npred_signal' :=
  (npred_signal needs_update update contributes compute_npred reset_cache_properties
                USE_NPRED_CACHE).

(** The evaluator as [npred_signal] asks it whether it contributes: after
    the update that a stale evaluator gets first. *)
Definition refreshed (args : UpdateArgs) (e : Evaluator) : Evaluator :=
  if needs_update e then update e args else e.

(** The arguments [npred_signal] passes to [evaluator.update]. *)
Definition update_args (ds : MapDataset Evaluator) (g : Geom) : UpdateArgs :=
  mkArgs (exposure ds) (psf ds) (edisp ds) g
         (match mask ds with
          | None => mkMap (to_image g) (repeat true (image_size g)) EmptyString
          | Some m => reduce_over_axes_or m
          end).

Lemma lookup_In (n : string) (evs : list (string * Evaluator)) (e : Evaluator) :
  lookup n evs = Some e -> In (n, e) evs.
Proof.
  induction evs as [|[k e0] evs IH]; simpl; intros H; try discriminate.
  destruct (String.eqb k n) eqn:Hk.
  - apply String.eqb_eq in Hk. inversion H; subst. now left.
  - right. now apply IH.
Qed.

Lemma select_In (evs : list (string * Evaluator)) (names seen : list string)
      (sel : list (string * Evaluator)) :
  select evs seen names = Ok sel -> forall entry, In entry sel -> In entry evs.
Proof.
  revert seen sel; induction names as [|n names IH]; simpl; intros seen sel H entry Hin.
  - inversion H; subst. destruct Hin.
  - destruct (lookup n evs) as [e|] eqn:Hl; try discriminate.
    destruct (select evs (n :: seen) names) as [tl|] eqn:Hs; simpl in H; try discriminate.
    inversion H; subst; clear H.
    destruct (mem n seen).
    + eapply IH; eauto.
    + destruct Hin as [<-|Hin].
      * now apply lookup_In.
      * eapply IH; eauto.
Qed.

Lemma signal_loop_idle (args : UpdateArgs) (stack : bool)
      (evs : list (string * Evaluator)) (st : SignalLoop Evaluator) :
  (forall entry, In entry evs -> contributes (refreshed args (snd entry)) = false) ->
  exists st', signal_loop' args stack st evs = Ok st'
              /\ npred_total st' = npred_total st
              /\ npred_list st' = npred_list st
              /\ loop_labels st' = loop_labels st.
Proof.
  revert st; induction evs as [|[n e] evs IH]; intros st H; simpl.
  - now exists st.
  - assert (He : contributes (refreshed args e) = false) by (apply (H (n, e)); now left).
    unfold refreshed in He. unfold signal_step. rewrite He. simpl.
    destruct (IH (mkLoop (npred_total st) (npred_list st) (loop_labels st)
                         (store n (if needs_update e then update e args else e)
                                (loop_evaluators st)))) as (st' & Hst & H1 & H2 & H3).
    + intros entry Hin. apply H. now right.
    + exists st'. now repeat split.
Qed.

(** C10: on a dataset none of whose selected evaluators contributes (a
    dataset without evaluators included), [npred_signal] returns the
    all-zero float map on the reference geometry of the dataset, with
    [stack=True] and with [stack=False] alike; the geometry of the result is
    the reference geometry, so no ["models"] label axis is added. *)
Theorem npred_signal_no_contribution
        (ds : MapDataset Evaluator) (g : Geom) (model_names : option (list string))
        (selected : list (string * Evaluator)) (stack : bool) :
  _geom ds = Ok g ->
  match model_names with
  | None => Ok (evaluators ds)
  | Some names => select (evaluators ds) [] names
  end = Ok selected ->
  (forall entry, In entry selected ->
                 contributes (refreshed (update_args ds g) (snd entry)) = false) ->
  exists ds',
    npred_signal' ds model_names stack = Ok (MapOps.from_geom g EmptyString, ds')
    /\ geom (MapOps.from_geom g EmptyString) = g
    /\ data (MapOps.from_geom g EmptyString) = repeat 0%float (data_size g).
Proof.
  intros Hg Hsel Hidle.
  unfold npred_signal. rewrite Hg. simpl. rewrite Hsel. simpl.
  assert (Hmask : mask_image ds
                  = Ok (match mask ds with
                        | None => mkMap (to_image g) (repeat true (image_size g)) EmptyString
                        | Some m => reduce_over_axes_or m
                        end)).
  { unfold mask_image. destruct (mask ds); auto. now rewrite Hg. }
  rewrite Hmask. simpl.
  destruct (signal_loop_idle (update_args ds g) stack selected
              (mkLoop (MapOps.from_geom g EmptyString) [] [] (evaluators ds)) Hidle)
    as (st' & Hst & H1 & H2 & H3).
  unfold update_args in Hst. rewrite Hst. simpl. simpl in H1, H2. rewrite H2, H1.
  eexists. repeat split.
Qed.

End SignalProperties.

(** ** Properties of npred *)

Section NpredProperties.

Variable Evaluator : Type.
Variable needs_update : Evaluator -> bool.
Variable update : Evaluator -> UpdateArgs -> Evaluator.
Variable contributes : Evaluator -> bool.
Variable compute_npred : Evaluator -> FMap * Evaluator.
Variable reset_cache_properties : Evaluator -> Evaluator.
Variable evaluate_geom : list float -> Geom -> list float.
Variable USE_NPRED_CACHE : bool.

Abbreviation signal_loop'' :=
  (signal_loop needs_update update contributes compute_npred reset_cache_properties
               USE_NPRED_CACHE).
Abbreviation npred_signal'' :=
  (npred_signal needs_update update contributes compute_npred reset_cache_properties
                USE_NPRED_CACHE).
Abbreviation npred_background'' := (npred_background evaluate_geom).
Abbreviation npred'' :=
  (npred needs_update update contributes compute_npred reset_cache_properties
         evaluate_geom USE_NPRED_CACHE).
Abbreviation refreshed'' := (refreshed needs_update update).

(** The map an evaluator adds to the total in one pass of the loop of
    [npred_signal], if it contributes. *)
Definition contribution (args : UpdateArgs) (e : Evaluator) : option FMap :=
  let e1 := refreshed'' args e in
  if contributes e1 then Some (fst (compute_npred e1)) else None.

(** The evaluator as one pass of the loop leaves it. *)
Definition settled (args : UpdateArgs) (e : Evaluator) : Evaluator :=
  let e1 := refreshed'' args e in
  if contributes e1 then
    let e2 := snd (compute_npred e1) in
    if USE_NPRED_CACHE then e2 else reset_cache_properties e2
  else e1.

(** The contributions stacked on a running total. *)
Fixpoint stack_all (total : FMap) (l : list (option FMap)) : result FMap :=
  match l with
  | [] => Ok total
  | None :: l' => stack_all total l'
  | Some m :: l' => do t <- MapOps.stack total m None true; stack_all t l'
  end.

Definition store_settled (args : UpdateArgs) (stored : list (string * Evaluator))
           (entry : string * Evaluator) : list (string * Evaluator) :=
  store (fst entry) (settled args (snd entry)) stored.

Lemma signal_loop_stacked (args : UpdateArgs) (evs : list (string * Evaluator))
      (st : SignalLoop Evaluator) :
  signal_loop'' args true st evs =
  do t <- stack_all (npred_total st) (List.map (fun en => contribution args (snd en)) evs);
  Ok (mkLoop t (npred_list st) (loop_labels st)
             (fold_left (store_settled args) evs (loop_evaluators st))).
Proof.
  revert st; induction evs as [|[n e] evs IH]; intros [total l lbl stored]; simpl; auto.
  unfold signal_step, contribution, store_settled, settled, refreshed; simpl.
  destruct (contributes (if needs_update e then update e args else e)) eqn:Hc.
  - destruct (compute_npred (if needs_update e then update e args else e)) as [m e2]; simpl.
    destruct (MapOps.stack total m None true) as [t|err]; simpl; auto.
  - simpl. now rewrite IH.
Qed.

Lemma store_not_key (n : string) (e : Evaluator) (evs : list (string * Evaluator)) :
  ~ In n (List.map fst evs) -> store n e evs = evs.
Proof.
  induction evs as [|[k e0] evs IH]; simpl; intros H; auto.
  destruct (String.eqb k n) eqn:Hk.
  - apply String.eqb_eq in Hk. subst. exfalso. apply H. now left.
  - f_equal. apply IH. intros Hin. apply H. now right.
Qed.

Lemma fold_store_app (args : UpdateArgs) (evs done rest : list (string * Evaluator)) :
  (forall entry, In entry evs -> ~ In (fst entry) (List.map fst done)) ->
  fold_left (store_settled args) evs (done ++ rest)
  = done ++ fold_left (store_settled args) evs rest.
Proof.
  revert rest; induction evs as [|[n e] evs IH]; intros rest H; simpl; auto.
  unfold store_settled at 2 4; simpl.
  assert (Hn : ~ In n (List.map fst done)) by (apply (H (n, e)); now left).
  assert (Hs : forall x, store n x (done ++ rest) = done ++ store n x rest).
  { intros x. clear - Hn. induction done as [|[k e0] done IHd]; simpl; auto.
    destruct (String.eqb k n) eqn:Hk.
    - apply String.eqb_eq in Hk. subst. exfalso. apply Hn. now left.
    - f_equal. apply IHd. intros Hin. apply Hn. now right. }
  rewrite Hs. apply IH. intros entry Hin. apply H. now right.
Qed.

(** With distinct keys, as in a dict, the loop leaves every evaluator settled. *)
Lemma fold_store_settled (args : UpdateArgs) (evs : list (string * Evaluator)) :
  NoDup (List.map fst evs) ->
  fold_left (store_settled args) evs evs
  = List.map (fun en => (fst en, settled args (snd en))) evs.
Proof.
  induction evs as [|[n e] evs IH]; simpl; intros Hnd; auto.
  inversion Hnd as [|? ? Hn Hnd']; subst.
  unfold store_settled at 2; simpl. rewrite String.eqb_refl.
  change ((n, settled args e) :: evs) with ([(n, settled args e)] ++ evs).
  rewrite fold_store_app.
  - simpl. f_equal. now apply IH.
  - intros [k e0] Hin. simpl. intros [Hk|[]]. apply Hn. rewrite Hk.
    change k with (fst (k, e0)). now apply in_map.
Qed.

(** What [npred_signal()] computes with its default arguments: the
    contributions of the evaluators stacked on a zero map. *)
Definition signal_value (ds : MapDataset Evaluator) (g : Geom) : result FMap :=
  stack_all (MapOps.from_geom g EmptyString)
            (List.map (fun en => contribution (update_args ds g) (snd en)) (evaluators ds)).

Lemma npred_signal_stacked (ds : MapDataset Evaluator) (g : Geom) :
  _geom ds = Ok g ->
  npred_signal'' ds None true =
  do t <- signal_value ds g;
  Ok (t, set_evaluators ds (fold_left (store_settled (update_args ds g))
                                      (evaluators ds) (evaluators ds))).
Proof.
  intros Hg. unfold npred_signal. rewrite Hg. simpl.
  assert (Hmask : mask_image ds = Ok (arg_mask (update_args ds g))).
  { unfold mask_image, update_args; simpl. destruct (mask ds); auto. now rewrite Hg. }
  rewrite Hmask. simpl. rewrite signal_loop_stacked. unfold signal_value. simpl.
  destruct (stack_all _ _); simpl; auto.
Qed.

Lemma stack_all_ok (g : Geom) (l : list (option FMap)) (total : FMap) :
  geom total = g ->
  (forall m, In (Some m) l -> geom m = g) ->
  exists t, stack_all total l = Ok t /\ geom t = g.
Proof.
  revert total; induction l as [|[m|] l IH]; intros total Ht Hl; simpl.
  - now exists total.
  - unfold MapOps.stack. rewrite Ht, (Hl m) by now left. rewrite geom_eqb_refl. simpl.
    apply IH; auto. intros m' Hin. apply Hl. now right.
  - apply IH; auto. intros m' Hin. apply Hl. now right.
Qed.

(** A dataset on which [npred] can run: it has a reference geometry [g],
    its evaluators have distinct names and predict on [g], its background
    map and the cached scaled background are on [g], an attached background
    model has parameters, and parameter values are cached only together with
    a scaled background.  With unchanged model parameters an evaluator
    predicts after one pass of the loop what it predicted in that pass. *)
Record well_formed (ds : MapDataset Evaluator) (g : Geom) : Prop := mkWf {
  wf_geom : _geom ds = Ok g;
  wf_keys : NoDup (List.map fst (evaluators ds));
  wf_on_geom : forall entry m, In entry (evaluators ds) ->
      contribution (update_args ds g) (snd entry) = Some m -> geom m = g;
  wf_unchanged : forall entry, In entry (evaluators ds) ->
      contribution (update_args ds g) (settled (update_args ds g) (snd entry))
      = contribution (update_args ds g) (snd entry);
  wf_background : forall b, background ds = Some b -> geom b = g;
  wf_cached : forall c, _background_cached ds = Some c -> geom c = g;
  wf_parameters : background_model ds <> Some [];
  wf_cache : _background_parameters_cached ds <> None -> _background_cached ds <> None
}.

(** The term [npred] adds to the signal: nothing when the dataset has no
    background, else what [npred_background] returns. *)
Definition background_term (ds : MapDataset Evaluator) : option FMap :=
  match background ds with
  | Some _ => returned (npred_background'' ds)
  | None => None
  end.

Lemma all_np_equal_none (values : list float) :
  values <> [] -> Np.all (np_equal None values) = false.
Proof. destruct values; simpl; congruence. Qed.

Lemma npred_background_returns (ds : MapDataset Evaluator) (g : Geom) (b : FMap) :
  background ds = Some b -> geom b = g ->
  (forall c, _background_cached ds = Some c -> geom c = g) ->
  background_model ds <> Some [] ->
  (_background_parameters_cached ds <> None -> _background_cached ds <> None) ->
  exists bk, returned (npred_background'' ds) = Some bk /\ geom bk = g.
Proof.
  intros Hb Hgb Hcached Hparams Hcache. unfold npred_background. rewrite Hb.
  destruct (background_model ds) as [values|] eqn:Hm.
  - unfold _background_parameters_changed.
    destruct (Np.all (np_equal (_background_parameters_cached ds) values)) eqn:Hall; simpl.
    + destruct (_background_parameters_cached ds) as [c|] eqn:Hc.
      * destruct (_background_cached ds) as [bk|] eqn:Hbk.
        -- exists bk. split; auto.
        -- exfalso. apply Hcache; auto. congruence.
      * rewrite all_np_equal_none in Hall; try discriminate.
        intros ->. now apply Hparams.
    + eexists. split; eauto.
  - exists b. split; auto.
Qed.

(** A second call of [npred_background], with the parameters of the
    background model unchanged and whatever happened to the evaluators,
    returns what the first call returned. *)
Lemma npred_background_again (ds : MapDataset Evaluator)
      (evs : list (string * Evaluator)) :
  returned (npred_background'' (set_evaluators (after (npred_background'' ds)) evs))
  = returned (npred_background'' ds).
Proof.
  unfold npred_background.
  destruct (background_model ds) as [values|] eqn:Hm;
    destruct (background ds) as [b|] eqn:Hb; simpl; try (rewrite Hm, ?Hb; reflexivity).
  unfold _background_parameters_changed.
  destruct (Np.all (np_equal (_background_parameters_cached ds) values)) eqn:Hall; simpl.
  - rewrite Hm, Hb. simpl. rewrite Hall. reflexivity.
  - rewrite Hm, Hb. simpl.
    destruct (Np.all (Np.zip_with PrimFloat.eqb values values)); reflexivity.
Qed.

Lemma clip_negative_not_negative (x : float) :
  PrimFloat.ltb (clip_negative x) 0%float = false.
Proof.
  unfold clip_negative. destruct (PrimFloat.ltb x 0%float) eqn:H; auto.
Qed.

(** [npred_background] touches the two cache fields only. *)
Lemma npred_background_frame (ds : MapDataset Evaluator) :
  let ds' := after (npred_background'' ds) in
  counts ds' = counts ds /\ exposure ds' = exposure ds /\ background ds' = background ds
  /\ psf ds' = psf ds /\ edisp ds' = edisp ds /\ mask_safe ds' = mask_safe ds
  /\ mask_fit ds' = mask_fit ds /\ evaluators ds' = evaluators ds
  /\ background_model ds' = background_model ds.
Proof.
  unfold npred_background.
  destruct (background_model ds) as [values|] eqn:Hm;
    destruct (background ds) as [b|] eqn:Hb; simpl; try now repeat split.
  unfold _background_parameters_changed.
  destruct (Np.all (np_equal (_background_parameters_cached ds) values)); simpl;
    now repeat split.
Qed.

Lemma signal_value_frame (ds ds' : MapDataset Evaluator) (g : Geom) :
  exposure ds' = exposure ds -> psf ds' = psf ds -> edisp ds' = edisp ds ->
  mask_safe ds' = mask_safe ds -> mask_fit ds' = mask_fit ds ->
  update_args ds' g = update_args ds g.
Proof.
  intros He Hp Hd Hs Hf. unfold update_args, mask. now rewrite He, Hp, Hd, Hs, Hf.
Qed.


End NpredProperties.

(** ** The cache of the scaled background *)

Section BackgroundCache.

Variable Evaluator : Type.
Variable evaluate_geom : list float -> Geom -> list float.

Abbreviation npred_background_ := (npred_background (Evaluator := Evaluator) evaluate_geom).

(** The parameter values differ from the cached copy: there is no cached
    copy of a non-empty vector, or some value is not equal, for the IEEE
    equality, to the cached value in the same slot. *)
Definition differs (cached : option (list float)) (values : list float) : Prop :=
  match cached with
  | None => values <> []
  | Some c => exists i, i < length values
                        /\ PrimFloat.eqb (nth i c 0%float) (nth i values 0%float) = false
  end.

Definition has_nan (values : list float) : Prop :=
  exists i, i < length values /\ Np.isnan (nth i values 0%float) = true.

Lemma all_zip_eqb_false (c values : list float) :
  length c = length values ->
  Np.all (Np.zip_with PrimFloat.eqb c values) = false
  <-> exists i, i < length values
                /\ PrimFloat.eqb (nth i c 0%float) (nth i values 0%float) = false.
Proof.
  revert values; induction c as [|x c IH]; intros [|y values]; simpl; intros Hlen;
    try discriminate.
  - split; [discriminate|]. intros (i & Hi & _). lia.
  - injection Hlen as Hlen. specialize (IH values Hlen).
    destruct (PrimFloat.eqb x y) eqn:Hxy; simpl.
    + rewrite IH. split.
      * intros (i & Hi & He). exists (S i). split; [lia|exact He].
      * intros ([|i] & Hi & He); [congruence|]. exists i. split; [lia|exact He].
    + split; auto. intros _. exists 0. split; [lia|exact Hxy].
Qed.

Lemma changed_iff_differs (cached : option (list float)) (values : list float) :
  (forall c, cached = Some c -> length c = length values) ->
  negb (Np.all (np_equal cached values)) = true <-> differs cached values.
Proof.
  intros Hlen. rewrite negb_true_iff. destruct cached as [c|]; simpl.
  - apply all_zip_eqb_false. now apply Hlen.
  - destruct values; simpl; split; congruence.
Qed.


End BackgroundCache.

(** ** Construction of a dataset *)

(** The models a caller attaches: sky models, for which the dataset builds
    an evaluator, and background models, named after the dataset they scale. *)
Inductive model : Type :=
  | SkyModel (model_name : string) (datasets_names : option (list string))
  | FoVBackgroundModel (model_name : string) (datasets_names : list string)
                       (values : list float).

(** [DatasetModels.select(datasets_names=name)]: the models that name the
    dataset, or that name no dataset at all. *)
Definition selects (dataset : string) (m : model) : bool :=
  match m with
  | SkyModel _ None => true
  | SkyModel _ (Some names) => existsb (String.eqb dataset) names
  | FoVBackgroundModel _ names _ => existsb (String.eqb dataset) names
  end.

Section Construction.

Variable Evaluator : Type.

(** [MapEvaluator(model=model, psf=psf, ...)] *)
Variable MapEvaluator : model -> option FMap -> Evaluator.

(** [MapDataset._psf_kernel]: the kernel precomputed from the PSF and the
    reference map, when the PSF has a single spatial bin. *)
Variable _psf_kernel : option irf_obj -> option FMap -> option FMap -> option FMap.

(** The keyword arguments of [MapDataset.__init__]. *)
Record InitArgs : Type := mkInit {
  init_models : option (list model);
  init_counts : option FMap;
  init_exposure : option FMap;
  init_background : option FMap;
  init_psf : option irf_obj;
  init_edisp : option irf_obj;
  init_mask_safe : option BMap;
  init_mask_fit : option BMap;
  init_name : string;
  init_stat_type : stat
}.

(** Python truth value of what is passed as [psf] or [edisp]. *)
Definition truthy (o : option irf_obj) : bool :=
  match o with
  | None => false
  | Some (IrfOther t) => t
  | Some _ => true
  end.

(** [isinstance(psf, (PSFMap, HDULocation))] *)
Definition is_psf (o : option irf_obj) : bool :=
  match o with
  | Some (IrfPSFMap _) | Some IrfHDULocation => true
  | _ => false
  end.

(** [isinstance(edisp, (EDispMap, EDispKernelMap, HDULocation))] *)
Definition is_edisp (o : option irf_obj) : bool :=
  match o with
  | Some (IrfEDispMap _) | Some (IrfEDispKernelMap _) | Some IrfHDULocation => true
  | _ => false
  end.

(** The setter of [models]: one evaluator for every model that is not a
    background model. *)
Fixpoint build_evaluators (kernel : option FMap) (models : list model)
  : list (string * Evaluator) :=
  match models with
  | [] => []
  | SkyModel n d :: rest =>
      (n, MapEvaluator (SkyModel n d) kernel) :: build_evaluators kernel rest
  | FoVBackgroundModel _ _ _ :: rest => build_evaluators kernel rest
  end.

(** [MapDataset.background_model]: the background model of this dataset. *)
Fixpoint find_background_model (models : list model) : option (list float) :=
  match models with
  | [] => None
  | FoVBackgroundModel _ _ values :: _ => Some values
  | SkyModel _ _ :: rest => find_background_model rest
  end.

(** [MapDataset.__init__] *)
Definition __init__ (a : InitArgs) : result (MapDataset Evaluator) :=
  if truthy (init_psf a) && negb (is_psf (init_psf a)) then Raise ValueError
  else if truthy (init_edisp a) && negb (is_edisp (init_edisp a)) then Raise ValueError
  else
    let models := match init_models a with
                  | Some l => filter (selects (init_name a)) l
                  | None => []
                  end in
    let kernel := _psf_kernel (init_psf a) (init_exposure a) (init_counts a) in
    Ok (mkDataset (init_name a) (init_counts a) (init_exposure a) (init_background a)
                  (init_psf a) (init_edisp a) (init_mask_safe a) (init_mask_fit a)
                  (find_background_model models) None None
                  (build_evaluators kernel models) (init_stat_type a)).

(** None of the maps that determine the reference geometry is given. *)
Definition no_geometry (a : InitArgs) : Prop :=
  init_counts a = None /\ init_background a = None
  /\ init_mask_fit a = None /\ init_mask_safe a = None.

(** C6, as amended: constructing a [MapDataset] with none of [counts],
    [background], [mask_fit] and [mask_safe] raises nothing on that account:
    the constructor raises only for a [psf] or an [edisp] of a wrong type, and
    otherwise returns a dataset, on which the first use of the reference
    geometry, [_geom], raises the [ValueError]. *)
Theorem no_geometry_raises_on_use (a : InitArgs) :
  no_geometry a ->
  (__init__ a = Raise ValueError
   <-> (truthy (init_psf a) && negb (is_psf (init_psf a))
        || truthy (init_edisp a) && negb (is_edisp (init_edisp a))) = true)
  /\ ((truthy (init_psf a) && negb (is_psf (init_psf a))
       || truthy (init_edisp a) && negb (is_edisp (init_edisp a))) = false ->
      exists ds, __init__ a = Ok ds /\ _geom ds = Raise ValueError).
Proof.
  intros (Hc & Hb & Hf & Hs). unfold __init__.
  destruct (truthy (init_psf a) && negb (is_psf (init_psf a))); simpl.
  - split; [tauto | discriminate].
  - destruct (truthy (init_edisp a) && negb (is_edisp (init_edisp a))); simpl.
    + split; [tauto | discriminate].
    + split; [split; discriminate|].
      intros _. eexists. split; [reflexivity|].
      unfold _geom; simpl. now rewrite Hc, Hb, Hs, Hf.
Qed.

End Construction.

(** ** The PSF map *)

Module PSF.

(** The target geometry of a kernel: pixel counts and angular width in
    degrees along longitude and latitude. *)
Record WcsGeom : Type := mkWcs {
  wcs_npix : nat * nat;
  width : float * float
}.

(** The PSF map, as far as the kernel and the sampling use it: the centres
    and the widths of the bins of its [rad] axis, in degrees. *)
Record PSFMap : Type := mkPSF {
  rad_center : list float;
  rad_bin_width : list float
}.

(** [np.maximum] and [np.minimum]: the NaN wins. *)
Definition np_maximum (a b : float) : float :=
  if Np.isnan a then a else if Np.isnan b then b
  else if PrimFloat.ltb a b then b else a.

Definition np_minimum (a b : float) : float :=
  if Np.isnan a then a else if Np.isnan b then b
  else if PrimFloat.ltb b a then b else a.

(** [np.max] of a one-dimensional array; an empty array raises. *)
Definition np_max (l : list float) : result float :=
  match l with
  | [] => Raise ValueError
  | x :: l' => Ok (fold_left np_maximum l' x)
  end.

(** Python's [min(a, b)]: [b] if [b < a], else [a]. *)
Definition py_min (a b : float) : float := if PrimFloat.ltb b a then b else a.

Definition is_odd (n : nat) : bool := Nat.odd n.

Section Kernel.

(** Modelled from the spec: [WcsGeom.to_odd_npix(max_radius)] of
    [gammapy.maps], which is not among the sources; "force the target
    geometry to odd pixel counts (required for a centerable kernel)". *)
Variable to_odd_npix : WcsGeom -> float -> WcsGeom.

Variable SkyCoord : Type.
Variable PSFKernel : Type.

(** The centre of the PSF map, the default position. *)
Variable center_skydir : PSFMap -> SkyCoord.

(** The rest of [get_psf_kernel]: the PSF evaluated on the upsampled
    geometry, clipped, downsampled and normalised. *)
Variable evaluate_kernel : PSFMap -> WcsGeom -> SkyCoord -> nat -> PSFKernel.

(** The [max_radius] with which [get_psf_kernel] builds the kernel. *)
Definition kernel_max_radius (psf : PSFMap) (geom : WcsGeom) (max_radius : option float)
  : result float :=
  match max_radius with
  | None =>
      do max_radius <- np_max (rad_center psf);
      let min_radius_geom := PrimFloat.div (np_minimum (fst (width geom)) (snd (width geom)))
                                           2%float in
      Ok (py_min max_radius min_radius_geom)
  | Some r => Ok r
  end.

(** The geometry on which [get_psf_kernel] builds the kernel. *)
Definition kernel_geom (psf : PSFMap) (geom : WcsGeom) (max_radius : option float)
  : result WcsGeom :=
  do r <- kernel_max_radius psf geom max_radius;
  Ok (to_odd_npix geom r).

(** [PSFMap.get_psf_kernel(geom, position, max_radius, factor)] *)
Definition get_psf_kernel (psf : PSFMap) (geom : WcsGeom) (position : option SkyCoord)
           (max_radius : option float) (factor : nat) : result PSFKernel :=
  let position := match position with
                  | None => center_skydir psf
                  | Some p => p
                  end in
  do geom' <- kernel_geom psf geom max_radius;
  Ok (evaluate_kernel psf geom' position factor).

End Kernel.

(** *** Sampling *)

(** [RandomState.uniform(low, high)] of numpy for one draw [u] of
    [random_sample()], a number of the interval [0, 1): [low + (high - low) * u]. *)
Definition uniform (low high u : float) : float :=
  PrimFloat.add low (PrimFloat.mul (PrimFloat.sub high low) u).

(** [random_state.uniform(360, size=n)]: the first positional argument of
    [uniform] is [low], and [high] keeps its default, [1.0]. *)
Definition position_angle (draws : list float) : list float :=
  List.map (uniform 360 1) draws.

End PSF.

(** ** Properties of the PSF kernel *)

Section KernelProperties.

Variable to_odd_npix : PSF.WcsGeom -> float -> PSF.WcsGeom.

(** What the spec says of [to_odd_npix]: the pixel counts it returns are odd. *)
Hypothesis to_odd_npix_odd : forall g r,
  PSF.is_odd (fst (PSF.wcs_npix (to_odd_npix g r)))
  && PSF.is_odd (snd (PSF.wcs_npix (to_odd_npix g r))) = true.

Lemma py_min_lesser (a b : float) :
  (PSF.py_min a b = a \/ PSF.py_min a b = b)
  /\ (Np.isnan a = false -> Np.isnan b = false ->
      PrimFloat.leb (PSF.py_min a b) a = true /\ PrimFloat.leb (PSF.py_min a b) b = true).
Proof.
  unfold PSF.py_min. destruct (PrimFloat.ltb b a) eqn:Hlt.
  - split; auto. intros Ha Hb. split.
    + now apply FloatFacts.ltb_leb.
    + now apply FloatFacts.leb_refl.
  - split; auto. intros Ha Hb. split.
    + now apply FloatFacts.leb_refl.
    + now apply FloatFacts.not_ltb_leb.
Qed.

(** C9, as amended: when [get_psf_kernel] is called without [max_radius],
    the kernel is built with the lesser of the largest [rad] centre of the PSF
    map and half the smaller width of the target geometry; a [max_radius]
    given by the caller is used as it is, without clamping.  In both cases
    the kernel is built on the geometry [to_odd_npix] returns for that
    radius, whose pixel counts are odd. *)
Theorem kernel_radius_clamped_by_default
        (psf : PSF.PSFMap) (geom : PSF.WcsGeom) (extent : float) :
  PSF.np_max (PSF.rad_center psf) = Ok extent ->
  let half := PrimFloat.div (PSF.np_minimum (fst (PSF.width geom)) (snd (PSF.width geom)))
                            2%float in
  (exists r, PSF.kernel_max_radius psf geom None = Ok r
             /\ (r = extent \/ r = half)
             /\ (Np.isnan extent = false -> Np.isnan half = false ->
                 PrimFloat.leb r extent = true /\ PrimFloat.leb r half = true))
  /\ (forall r, PSF.kernel_max_radius psf geom (Some r) = Ok r)
  /\ (forall max_radius, exists r g,
        PSF.kernel_max_radius psf geom max_radius = Ok r
        /\ PSF.kernel_geom to_odd_npix psf geom max_radius = Ok g
        /\ g = to_odd_npix geom r
        /\ PSF.is_odd (fst (PSF.wcs_npix g)) && PSF.is_odd (snd (PSF.wcs_npix g)) = true).
Proof.
  intros Hmax half. repeat split.
  - exists (PSF.py_min extent half). unfold PSF.kernel_max_radius. rewrite Hmax. simpl.
    split; [reflexivity|]. apply py_min_lesser.
  - intros [r|].
    + exists r, (to_odd_npix geom r). unfold PSF.kernel_geom. simpl. repeat split; auto.
    + exists (PSF.py_min extent half), (to_odd_npix geom (PSF.py_min extent half)).
      unfold PSF.kernel_geom, PSF.kernel_max_radius. rewrite Hmax. simpl.
      repeat split; auto.
Qed.

End KernelProperties.

(** ** Properties of stacking *)

(** What [Map.stack] adds for a bin of [other]: the value, with a
    non-finite value replaced by 0 when [nan_to_num] is set. *)
Definition stacked_value (nan_to_num : bool) (x : float) : float :=
  if nan_to_num then Np.zero_not_finite x else x.

Lemma map_stacked_value (nan_to_num : bool) (l : list float) :
  (if nan_to_num then List.map Np.zero_not_finite l else l)
  = List.map (stacked_value nan_to_num) l.
Proof.
  destruct nan_to_num; simpl; auto. now rewrite map_id.
Qed.

Lemma stack_weighted (self other : FMap) (w : BMap) (nan_to_num : bool) :
  geom self = geom other ->
  npix (geom other) = npix (geom w) ->
  length (data self) = length (data other) ->
  length (data w) = length (data other) ->
  exists m, MapOps.stack self other (Some w) nan_to_num = Ok m
            /\ geom m = geom self
            /\ length (data m) = length (data self)
            /\ forall i, i < length (data self) ->
                 nth i (data m) 0%float
                 = PrimFloat.add (nth i (data self) 0%float)
                     (PrimFloat.mul (stacked_value nan_to_num (nth i (data other) 0%float))
                                    (Np.of_bool (nth i (data w) false))).
Proof.
  intros Hg Hp Hl Hw. unfold MapOps.stack.
  rewrite Hg, geom_eqb_refl, Hp. unfold npix_eqb. rewrite !Nat.eqb_refl. simpl.
  rewrite map_stacked_value. unfold MapOps.broadcast_to.
  rewrite length_map, Hw, Nat.eqb_refl.
  eexists. split; [reflexivity|]. simpl.
  assert (Hmul : length (Np.mul_bool (List.map (stacked_value nan_to_num) (data other))
                                     (data w)) = length (data other)).
  { unfold Np.mul_bool. rewrite Np.zip_with_length; rewrite length_map; auto. }
  repeat split; auto.
  - unfold Np.add. rewrite Np.zip_with_length; auto. congruence.
  - intros i Hi. unfold Np.add.
    rewrite (@Np.zip_with_nth _ _ _ _ _ _ i 0%float 0%float) by congruence.
    f_equal. unfold Np.mul_bool.
    rewrite (@Np.zip_with_nth _ _ _ _ _ _ i 0%float false)
      by (rewrite ?length_map; congruence).
    f_equal.
    rewrite (nth_indep _ 0%float (stacked_value nan_to_num 0%float))
      by (rewrite length_map; congruence).
    apply map_nth.
Qed.

Section StackProperties.

Variable Evaluator : Type.
Variable evaluate_geom : list float -> Geom -> list float.

Abbreviation stack_ := (stack (Evaluator := Evaluator) evaluate_geom).
Abbreviation background_of :=
  (fun ds : MapDataset Evaluator => returned (npred_background evaluate_geom ds)).

(** Two datasets that [stack] can combine: the maps of [other] are on the
    geometry of the maps of [self] they are stacked on, and on the pixel grid
    of the safe mask [w] of [other], which weights them. *)
Record compatible (self other : MapDataset Evaluator) (w : BMap) : Prop := mkCompatible {
  compatible_exposure : forall a b, exposure self = Some a -> exposure other = Some b ->
      geom a = geom b /\ npix (geom b) = npix (geom w);
  compatible_background : forall a b, stat_type self = Cash ->
      background self = Some a -> background other = Some b ->
      exists sa sb, background_of self = Some sa /\ background_of other = Some sb
                    /\ geom sa = geom sb /\ npix (geom sb) = npix (geom w);
  compatible_mask_safe : forall a, mask_safe self = Some a -> geom a = geom w;
  compatible_mask_fit : forall a b, mask_fit self = Some a -> mask_fit other = Some b ->
      geom a = geom b
}.

Lemma stack_returns (self other : MapDataset Evaluator) (w : BMap) (nan_to_num : bool)
      (c : option FMap) :
  mask_safe other = Some w ->
  compatible self other w ->
  stack_role (counts self) (counts other) (Some w) nan_to_num = Ok c ->
  exists e b ms mf,
    stack_role (exposure self) (exposure other) (mask_safe_image other) nan_to_num = Ok e
    /\ stack_background evaluate_geom self other nan_to_num = Ok b
    /\ stack_mask_safe self other = Ok ms
    /\ stack_mask_fit self other = Ok mf
    /\ stack_ self other nan_to_num
       = Ok (set_maps self c e (fst (fst b)) (snd (fst b)) (snd b) ms mf).
Proof.
  intros Hw Hc Hcounts.
  assert (He : exists e, stack_role (exposure self) (exposure other)
                                    (mask_safe_image other) nan_to_num = Ok e).
  { unfold stack_role, mask_safe_image. rewrite Hw. simpl.
    destruct (exposure self) as [a|] eqn:Ha; [|eauto].
    destruct (exposure other) as [b|] eqn:Hb; [|eauto].
    destruct (compatible_exposure Hc Ha Hb) as [Hg Hp].
    unfold MapOps.stack. rewrite Hg, geom_eqb_refl. simpl.
    rewrite Hp. unfold npix_eqb. rewrite !Nat.eqb_refl. simpl. eauto. }
  assert (Hb : exists b, stack_background evaluate_geom self other nan_to_num = Ok b).
  { unfold stack_background.
    destruct (stat_type self) eqn:Hs; [|eauto].
    destruct (background self) as [a|] eqn:Ha; [|eauto].
    destruct (background other) as [b|] eqn:Hbo; [|eauto].
    destruct (compatible_background Hc Hs Ha Hbo) as (sa & sb & H1 & H2 & Hg & Hp).
    cbv zeta. rewrite H1, H2, Hw.
    unfold MapOps.stack. rewrite Hg, geom_eqb_refl. simpl.
    rewrite Hp. unfold npix_eqb. rewrite !Nat.eqb_refl. simpl. eauto. }
  assert (Hms : exists m, stack_mask_safe self other = Ok m).
  { unfold stack_mask_safe. rewrite Hw.
    destruct (mask_safe self) as [a|] eqn:Ha; [|eauto].
    unfold MapOps.stack_bool. rewrite (compatible_mask_safe Hc Ha), geom_eqb_refl.
    simpl. eauto. }
  assert (Hmf : exists m, stack_mask_fit self other = Ok m).
  { unfold stack_mask_fit.
    destruct (mask_fit self) as [f|] eqn:Hf; destruct (mask_fit other) as [f'|] eqn:Hf';
      eauto.
    unfold MapOps.stack_bool. rewrite (compatible_mask_fit Hc Hf Hf'), geom_eqb_refl.
    simpl. eauto. }
  destruct He as (e & He), Hb as (b & Hb), Hms as (ms & Hms), Hmf as (mf & Hmf).
  exists e, b, ms, mf. repeat split; auto.
  unfold stack. rewrite Hw, Hcounts. simpl.
  rewrite He. simpl. rewrite Hb. simpl. rewrite Hms. simpl. rewrite Hmf. reflexivity.
Qed.

(** C2: [stack(other)] merges in place and weights the counts of [other]
    by the safe mask of [other]: in every bin the stacked counts are the counts
    of [self] plus the counts of [other] (a non-finite value being replaced by
    0 unless [nan_to_num] is disabled) times the indicator of the safe mask of
    [other].  For finite counts that is [counts + other.counts * mask], a bin
    of [other] outside its safe mask adds nothing, and the counts of [self]
    enter whole, whatever the safe mask of [self] is. *)
Theorem stack_counts_masked_by_other
        (self other : MapDataset Evaluator) (a b : FMap) (w : BMap) (nan_to_num : bool) :
  counts self = Some a -> counts other = Some b -> mask_safe other = Some w ->
  geom a = geom b -> geom w = geom b ->
  length (data a) = length (data b) -> length (data w) = length (data b) ->
  compatible self other w ->
  exists self' c,
    stack_ self other nan_to_num = Ok self'
    /\ counts self' = Some c
    /\ geom c = geom a
    /\ length (data c) = length (data a)
    /\ forall i, i < length (data a) ->
         let ai := nth i (data a) 0%float in
         let x := nth i (data b) 0%float in
         let wi := nth i (data w) false in
         let ci := nth i (data c) 0%float in
         ci = PrimFloat.add ai (PrimFloat.mul (stacked_value nan_to_num x) (Np.of_bool wi))
         /\ (Np.isfinite x = true ->
             ci = PrimFloat.add ai (PrimFloat.mul x (Np.of_bool wi)))
         /\ (wi = false -> nan_to_num = true \/ Np.isfinite x = true ->
             FloatFacts.same ci ai = true).
Proof.
  intros Ha Hb Hw Hg Hgw Hl Hlw Hc.
  destruct (@stack_weighted a b w nan_to_num) as (c & Hst & Hgc & Hlc & Hnth); auto.
  { now rewrite Hgw. }
  destruct (@stack_returns self other w nan_to_num (Some c) Hw Hc)
    as (e & bk & ms & mf & _ & _ & _ & _ & Hstack).
  { unfold stack_role. rewrite Ha, Hb, Hst. reflexivity. }
  eexists. exists c. split; [exact Hstack|].
  split; [reflexivity|]. split; [exact Hgc|]. split; [exact Hlc|].
  intros i Hi. cbv zeta. split; [|split].
  - now apply Hnth.
  - intros Hx. rewrite (Hnth i Hi). unfold stacked_value.
    destruct nan_to_num; auto. now rewrite FloatFacts.zero_not_finite_id.
  - intros Hwi Hfin. rewrite (Hnth i Hi), Hwi. apply FloatFacts.add_masked.
    unfold stacked_value. destruct nan_to_num.
    + apply FloatFacts.zero_not_finite_finite.
    + destruct Hfin as [Hf|Hf]; [discriminate|exact Hf].
Qed.

(** *** The acceptance of stacked on/off datasets, as the spec words it *)

(** [alpha = acceptance / acceptance_off], division by zero mapped by
    [np.nan_to_num]. *)
Definition alpha_data (acc acc_off : list float) : list float :=
  List.map Np.nan_to_num (Np.div acc acc_off).

(** A term of a sum over the datasets: the values of the current dataset
    enter whole, those of the other dataset weighted by its safe mask. *)
Definition whole (nan_to_num : bool) (l : list float) : list float :=
  List.map (stacked_value nan_to_num) l.

Definition masked (nan_to_num : bool) (w : list bool) (l : list float) : list float :=
  Np.mul_bool (List.map (stacked_value nan_to_num) l) w.

(** A sum grows by the term of a dataset that has the map. *)
Definition accumulate (total : list float) (term : option (list float)) : list float :=
  match term with
  | Some t => Np.add total t
  | None => total
  end.

Definition alpha_off (acc acc_off : option (list float)) (off : list float) : list float :=
  match acc, acc_off with
  | Some a, Some b => Np.mul (alpha_data a b) off
  | _, _ => []
  end.

(** The data of the maps of an on/off dataset that the sums use. *)
Record OnOffData : Type := mkData {
  d_acceptance : list float;
  d_acceptance_off : option (list float);
  d_counts_off : option (list float)
}.

Section Totals.

Variable n : nat.
Variable nan_to_num : bool.
Variable w : list bool.
Variables self other : OnOffData.

Definition zeros : list float := repeat 0%float n.

Definition total_acceptance : list float :=
  accumulate (accumulate zeros (Some (whole nan_to_num (d_acceptance self))))
             (Some (masked nan_to_num w (d_acceptance other))).

Definition total_off : list float :=
  accumulate (accumulate zeros (option_map (whole nan_to_num) (d_counts_off self)))
             (option_map (masked nan_to_num w) (d_counts_off other)).

Definition total_alpha_weighted : list float :=
  accumulate
    (accumulate zeros
       (option_map (fun off => whole nan_to_num
                       (alpha_off (Some (d_acceptance self)) (d_acceptance_off self) off))
                   (d_counts_off self)))
    (option_map (fun off => masked nan_to_num w
                    (alpha_off (Some (d_acceptance other)) (d_acceptance_off other) off))
                (d_counts_off other)).

Variable sum : list float -> float.

Definition average_alpha : float :=
  PrimFloat.div (sum total_alpha_weighted) (sum total_off).

(** The recomputed [acceptance_off] in bin [i]. *)
Definition stacked_acceptance_off (i : nat) : float :=
  let acc := nth i total_acceptance 0%float in
  let off := nth i total_off 0%float in
  let alpha_weighted := nth i total_alpha_weighted 0%float in
  if PrimFloat.eqb off 0%float then PrimFloat.div acc average_alpha
  else PrimFloat.div (PrimFloat.mul acc off) alpha_weighted.

End Totals.

Lemma stack_whole (total m : FMap) (nan_to_num : bool) :
  geom total = geom m ->
  MapOps.stack total m None nan_to_num
  = Ok (mkMap (geom total) (Np.add (data total) (whole nan_to_num (data m))) (unit total)).
Proof.
  intros Hg. unfold MapOps.stack. rewrite Hg, geom_eqb_refl. simpl.
  now rewrite map_stacked_value.
Qed.

Lemma stack_masked (total m : FMap) (w : BMap) (nan_to_num : bool) :
  geom total = geom m -> geom w = geom m -> length (data w) = length (data m) ->
  MapOps.stack total m (Some w) nan_to_num
  = Ok (mkMap (geom total) (Np.add (data total) (masked nan_to_num (data w) (data m)))
              (unit total)).
Proof.
  intros Hg Hw Hl. unfold MapOps.stack. rewrite Hg, Hw, geom_eqb_refl. simpl.
  unfold npix_eqb. rewrite !Nat.eqb_refl. simpl.
  rewrite map_stacked_value. unfold MapOps.broadcast_to.
  now rewrite length_map, Hl, Nat.eqb_refl.
Qed.

Lemma where_zero_length (off acc x : list float) (avg : float) :
  length (where_zero off acc x avg) = length x.
Proof.
  revert acc x; induction off as [|o off IH]; intros [|a acc] [|y x]; simpl; auto.
Qed.

Lemma where_zero_nth (off acc x : list float) (avg : float) (i : nat) :
  i < length off -> i < length acc -> i < length x ->
  nth i (where_zero off acc x avg) 0%float
  = if PrimFloat.eqb (nth i off 0%float) 0%float
    then PrimFloat.div (nth i acc 0%float) avg
    else nth i x 0%float.
Proof.
  revert acc x i; induction off as [|o off IH]; intros [|a acc] [|y x] [|i]; simpl;
    intros H1 H2 H3; try lia; auto.
  apply IH; lia.
Qed.

Lemma add_length (a b : list float) :
  length a = length b -> length (Np.add a b) = length a.
Proof. apply Np.zip_with_length. Qed.

Lemma whole_length (nan_to_num : bool) (l : list float) :
  length (whole nan_to_num l) = length l.
Proof. apply length_map. Qed.

Lemma masked_length (nan_to_num : bool) (w : list bool) (l : list float) :
  length w = length l -> length (masked nan_to_num w l) = length l.
Proof.
  intros H. unfold masked, Np.mul_bool.
  rewrite Np.zip_with_length; rewrite length_map; auto.
Qed.

Lemma alpha_data_length (a b : list float) :
  length a = length b -> length (alpha_data a b) = length a.
Proof.
  intros H. unfold alpha_data, Np.div. now rewrite length_map, Np.zip_with_length.
Qed.

Abbreviation OnOff := (MapDatasetOnOff Evaluator).

(** An on/off dataset whose maps are on the geometry [g]: it has counts,
    acceptance and a safe mask, an acceptance_off with its off counts, and it
    passes [_is_stackable]. *)
Record on_geom (g : Geom) (ds : OnOff) : Prop := mkOnGeom {
  og_counts : exists c, counts (base ds) = Some c /\ geom c = g
                        /\ length (data c) = data_size g;
  og_mask : exists m, mask_safe (base ds) = Some m /\ geom m = g
                      /\ length (data m) = data_size g;
  og_acceptance : exists a, acceptance ds = Some a /\ geom a = g
                            /\ length (data a) = data_size g;
  og_counts_off : forall o, counts_off ds = Some o ->
      geom o = g /\ length (data o) = data_size g
      /\ exists a, acceptance_off ds = Some a /\ length (data a) = data_size g;
  og_stackable : _is_stackable ds = Ok true
}.

Definition data_of (ds : OnOff) : OnOffData :=
  mkData (match acceptance ds with Some a => data a | None => [] end)
         (option_map (@data float) (acceptance_off ds))
         (option_map (@data float) (counts_off ds)).

(** The term a map contributes to a sum, for the weights [stack] is given. *)
Definition term (nan_to_num : bool) (weights : option BMap) (l : list float) : list float :=
  match weights with
  | None => whole nan_to_num l
  | Some w => masked nan_to_num (data w) l
  end.

Lemma stack_term (total m : FMap) (weights : option BMap) (nan_to_num : bool) :
  geom total = geom m ->
  (forall w, weights = Some w -> geom w = geom m /\ length (data w) = length (data m)) ->
  MapOps.stack total m weights nan_to_num
  = Ok (mkMap (geom total) (Np.add (data total) (term nan_to_num weights (data m)))
              (unit total)).
Proof.
  intros Hg Hw. destruct weights as [w|]; simpl.
  - destruct (Hw w eq_refl). now apply stack_masked.
  - now apply stack_whole.
Qed.

Lemma stack_off_totals (g : Geom) (ds : OnOff) (t_off t_alpha : FMap)
      (weights : option BMap) (nan_to_num : bool) :
  on_geom g ds -> geom t_off = g -> geom t_alpha = g ->
  (forall w, weights = Some w -> geom w = g /\ length (data w) = data_size g) ->
  stack_off t_off t_alpha ds weights nan_to_num
  = Ok (mkMap g (accumulate (data t_off)
                   (option_map (term nan_to_num weights) (d_counts_off (data_of ds))))
              (unit t_off),
        mkMap g (accumulate (data t_alpha)
                   (option_map (fun off => term nan_to_num weights
                                  (alpha_off (Some (d_acceptance (data_of ds)))
                                             (d_acceptance_off (data_of ds)) off))
                               (d_counts_off (data_of ds))))
              (unit t_alpha)).
Proof.
  intros Hds Hoff Halpha Hw. unfold stack_off, data_of.
  destruct (og_acceptance Hds) as (a & Ha & Hga & Hla).
  destruct (og_counts Hds) as (c & Hc & Hgc & Hlc).
  destruct (counts_off ds) as [o|] eqn:Ho; simpl.
  - destruct (og_counts_off Hds Ho) as (Hgo & Hlo & a_off & Haoff & Hlaoff).
    rewrite stack_term; try congruence.
    2:{ intros w Hwe. destruct (Hw w Hwe). split; congruence. }
    simpl. unfold alpha, onoff_geom. rewrite Ha, Haoff, Hc. simpl.
    unfold MapOps.arith. simpl. rewrite Hgc, Hgo, geom_eqb_refl. simpl.
    rewrite stack_term; simpl; try congruence.
    + rewrite Hoff, Halpha. reflexivity.
    + intros w Hwe. destruct (Hw w Hwe). split; [congruence|].
      assert (Hd : length (Np.div (data a) (data a_off)) = data_size g).
      { unfold Np.div. rewrite Np.zip_with_length; congruence. }
      rewrite Np.zip_with_length; rewrite length_map; congruence.
  - destruct t_off, t_alpha; simpl in *. now subst.
Qed.

Variable np_sum : list float -> float.

Abbreviation onoff_stack_ := (onoff_stack (Evaluator := Evaluator) evaluate_geom np_sum).

Lemma accumulate_length (n : nat) (total : list float) (t : option (list float)) :
  length total = n -> (forall l, t = Some l -> length l = n) ->
  length (accumulate total t) = n.
Proof.
  intros Ht Hl. destruct t as [l|]; simpl; auto.
  rewrite add_length; auto. rewrite (Hl l); auto.
Qed.

Lemma term_length (nan_to_num : bool) (weights : option BMap) (l : list float) (n : nat) :
  length l = n -> (forall w, weights = Some w -> length (data w) = n) ->
  length (term nan_to_num weights l) = n.
Proof.
  intros Hl Hw. destruct weights as [w|]; simpl.
  - rewrite masked_length; auto. rewrite (Hw w); auto.
  - now rewrite whole_length.
Qed.

Lemma alpha_off_length (g : Geom) (ds : OnOff) (o : FMap) :
  on_geom g ds -> counts_off ds = Some o ->
  length (alpha_off (Some (d_acceptance (data_of ds))) (d_acceptance_off (data_of ds))
                    (data o)) = data_size g.
Proof.
  intros Hds Ho. destruct (og_acceptance Hds) as (a & Ha & Hga & Hla).
  destruct (og_counts_off Hds Ho) as (Hgo & Hlo & a_off & Haoff & Hlaoff).
  unfold data_of. rewrite Ha, Haoff. simpl. unfold Np.mul.
  rewrite Np.zip_with_length; rewrite alpha_data_length; congruence.
Qed.

Lemma acceptance_off_nth (acc off al : list float) (avg : float) (i n : nat) :
  length acc = n -> length off = n -> length al = n -> i < n ->
  nth i (where_zero off acc (Np.zip_with PrimFloat.div (Np.zip_with PrimFloat.mul acc off) al)
                    avg) 0%float
  = if PrimFloat.eqb (nth i off 0%float) 0%float then PrimFloat.div (nth i acc 0%float) avg
    else PrimFloat.div (PrimFloat.mul (nth i acc 0%float) (nth i off 0%float))
                       (nth i al 0%float).
Proof.
  intros Ha Ho Hl Hi.
  assert (Lp : length (Np.zip_with PrimFloat.mul acc off) = n)
    by (rewrite Np.zip_with_length; congruence).
  rewrite where_zero_nth; try congruence.
  2:{ rewrite Np.zip_with_length; congruence. }
  destruct (PrimFloat.eqb (nth i off 0%float) 0%float); auto.
  rewrite (@Np.zip_with_nth _ _ _ _ _ _ i 0%float 0%float) by congruence.
  now rewrite (@Np.zip_with_nth _ _ _ _ _ _ i 0%float 0%float) by congruence.
Qed.

(** C3: stacking two on/off datasets that hold the maps the sums use
    recomputes [acceptance_off] from three sums taken bin by bin, in which the
    current dataset enters whole and the other one weighted by its safe mask:
    [total_off] of the off counts, [total_alpha_weighted] of [alpha *
    counts_off] and [total_acceptance] of the acceptances.  In a bin where
    [total_off] is not 0 the new [acceptance_off] is [total_acceptance *
    total_off / total_alpha_weighted]; in a bin where it is 0 the new
    [acceptance_off] is [total_acceptance / average_alpha], with
    [average_alpha = total_alpha_weighted.sum() / total_off.sum()].  The
    stacked dataset keeps [total_off] as its off counts and
    [total_acceptance] as its acceptance. *)
Theorem onoff_stack_acceptance_off
        (self other : OnOff) (g : Geom) (w : BMap) (nan_to_num : bool) :
  on_geom g self -> on_geom g other ->
  mask_safe (base other) = Some w ->
  stat_type (base self) = WStat ->
  compatible (base self) (base other) w ->
  let n := data_size g in
  let S := data_of self in
  let O := data_of other in
  exists self' m,
    onoff_stack_ self other nan_to_num = Ok self'
    /\ acceptance_off self' = Some m
    /\ geom m = g
    /\ length (data m) = n
    /\ (forall i, i < n ->
          nth i (data m) 0%float
          = stacked_acceptance_off n nan_to_num (data w) S O np_sum i)
    /\ option_map (@data float) (counts_off self')
       = Some (total_off n nan_to_num (data w) S O)
    /\ option_map (@data float) (acceptance self')
       = Some (total_acceptance n nan_to_num (data w) S O).
Proof.
  intros Hs Ho Hw Hstat Hc.
  destruct (og_counts Hs) as (c & Hcs & Hgc & Hlc).
  subst g.
  destruct (og_counts Ho) as (c' & Hco & Hgc' & Hlc').
  destruct (og_acceptance Hs) as (a & Has & Hga & Hla).
  destruct (og_acceptance Ho) as (a' & Hao & Hga' & Hla').
  destruct (og_mask Ho) as (w0 & Hw0 & Hgw & Hlw).
  assert (w0 = w) by congruence. subst w0.
  set (Sd := mkData (data a) (option_map (@data float) (acceptance_off self))
                    (option_map (@data float) (counts_off self))).
  set (Od := mkData (data a') (option_map (@data float) (acceptance_off other))
                    (option_map (@data float) (counts_off other))).
  assert (ES : data_of self = Sd) by (unfold data_of; now rewrite Has).
  assert (EO : data_of other = Od) by (unfold data_of; now rewrite Hao).
  rewrite ES, EO. cbv zeta.
  assert (Hweights : forall w1, Some w = Some w1 ->
                       geom w1 = geom c /\ length (data w1) = data_size (geom c)).
  { intros w1 H1. inversion H1; subst. auto. }
  assert (Hnone : forall w1, @None BMap = Some w1 ->
                       geom w1 = geom c /\ length (data w1) = data_size (geom c))
    by discriminate.
  (* the lengths of the three sums *)
  assert (Lacc : length (total_acceptance (data_size (geom c)) nan_to_num (data w) Sd Od) = data_size (geom c)).
  { unfold total_acceptance. apply accumulate_length.
    - apply accumulate_length; [apply repeat_length|].
      intros l Hl. inversion Hl. simpl. now rewrite whole_length.
    - intros l Hl. inversion Hl. simpl. rewrite masked_length; congruence. }
  assert (Loff : length (total_off (data_size (geom c)) nan_to_num (data w) Sd Od) = data_size (geom c)).
  { unfold total_off. apply accumulate_length.
    - apply accumulate_length; [apply repeat_length|].
      simpl. intros l Hl.
      destruct (counts_off self) as [o|] eqn:Eo; simpl in Hl; inversion Hl.
      rewrite whole_length. now destruct (og_counts_off Hs Eo) as (_ & ? & _).
    - simpl. intros l Hl.
      destruct (counts_off other) as [o|] eqn:Eo; simpl in Hl; inversion Hl.
      destruct (og_counts_off Ho Eo) as (_ & ? & _).
      rewrite masked_length; congruence. }
  assert (Lalpha : length (total_alpha_weighted (data_size (geom c)) nan_to_num (data w) Sd Od) = data_size (geom c)).
  { unfold total_alpha_weighted. apply accumulate_length.
    - apply accumulate_length; [apply repeat_length|].
      intros l Hl.
      destruct (counts_off self) as [o|] eqn:Eo; simpl in Hl; inversion Hl.
      rewrite whole_length. pose proof (alpha_off_length Hs Eo) as Hlen.
      rewrite ES in Hlen. exact Hlen.
    - intros l Hl.
      destruct (counts_off other) as [o|] eqn:Eo; simpl in Hl; inversion Hl.
      pose proof (alpha_off_length Ho Eo) as Hlen. rewrite EO in Hlen.
      rewrite masked_length; [exact Hlen|].
      rewrite Hlw. symmetry. exact Hlen. }
  (* the stack of the base class returns *)
  destruct (@stack_returns (base self) (base other) w nan_to_num
              (Some (mkMap (geom c) (Np.add (data c) (masked nan_to_num (data w) (data c')))
                           (unit c))) Hw Hc)
    as (e & bk & ms & mf & _ & _ & _ & _ & Hbase).
  { unfold stack_role. rewrite Hcs, Hco.
    rewrite stack_masked; try congruence. reflexivity. }
  (* the call, step by step *)
  assert (Hcall : onoff_stack_ self other nan_to_num
                  = Ok (mkOnOff
                          (set_maps (base self)
                             (Some (mkMap (geom c)
                                      (Np.add (data c) (masked nan_to_num (data w) (data c')))
                                      (unit c)))
                             e (fst (fst bk)) (snd (fst bk)) (snd bk) ms mf)
                          (Some (mkMap (geom c) (total_off (data_size (geom c)) nan_to_num (data w) Sd Od)
                                       EmptyString))
                          (Some (mkMap (geom a)
                                       (total_acceptance (data_size (geom c)) nan_to_num (data w) Sd Od)
                                       (unit a)))
                          (Some (mkMap (geom c)
                                   (where_zero
                                      (total_off (data_size (geom c)) nan_to_num (data w) Sd Od)
                                      (total_acceptance (data_size (geom c)) nan_to_num (data w) Sd Od)
                                      (Np.zip_with PrimFloat.div
                                         (Np.zip_with PrimFloat.mul
                                            (total_acceptance (data_size (geom c)) nan_to_num (data w) Sd Od)
                                            (total_off (data_size (geom c)) nan_to_num (data w) Sd Od))
                                         (total_alpha_weighted (data_size (geom c)) nan_to_num (data w) Sd Od))
                                      (average_alpha (data_size (geom c)) nan_to_num (data w) Sd Od np_sum))
                                   EmptyString)))).
  { unfold onoff_stack. rewrite (og_stackable Hs), (og_stackable Ho). simpl.
    rewrite Hcs, Has, Hao, Hw.
    rewrite stack_whole by (simpl; congruence). simpl.
    rewrite stack_masked by (simpl; congruence). simpl.
    rewrite (stack_off_totals (g := geom c)); auto; try (simpl; congruence).
    rewrite ES. simpl.
    rewrite (stack_off_totals (g := geom c)); auto.
    rewrite EO. simpl.
    unfold MapOps.arith. simpl. rewrite !geom_eqb_refl. simpl.
    rewrite ?geom_eqb_refl. simpl.
    rewrite Hbase. simpl. rewrite Hstat. reflexivity. }
  eexists. eexists. split; [exact Hcall|]. simpl.
  split; [reflexivity|]. split; [reflexivity|].
  split; [|split; [|split]].
  - cbn [data]. rewrite where_zero_length.
    rewrite Np.zip_with_length; rewrite Np.zip_with_length; congruence.
  - intros i Hi. cbn [data]. unfold stacked_acceptance_off.
    now apply (@acceptance_off_nth _ _ _ _ i (data_size (geom c))).
  - reflexivity.
  - reflexivity.
Qed.

(** *** Stacking into an empty dataset *)

(** The cumulative dataset, as [from_geoms] creates it and [stack] keeps it:
    counts and safe mask on the geometry [g], no exposure, no background
    model. *)
Record accumulating (g : Geom) (ds : MapDataset Evaluator) : Prop := mkAccumulating {
  acc_counts : exists c, counts ds = Some c /\ geom c = g;
  acc_mask : exists m, mask_safe ds = Some m /\ geom m = g;
  acc_exposure : exposure ds = None;
  acc_model : background_model ds = None;
  acc_background : forall b, background ds = Some b -> geom b = g;
  acc_mask_fit : forall f, mask_fit ds = Some f -> geom f = g
}.

(** A dataset that can be stacked on the geometry [g]: counts and safe mask
    on [g], a predicted background and a fit mask, if any, on [g]. *)
Record stackable_on (g : Geom) (ds : MapDataset Evaluator) : Prop := mkStackable {
  in_counts : exists c, counts ds = Some c /\ geom c = g /\ length (data c) = data_size g;
  in_mask : exists w, mask_safe ds = Some w /\ geom w = g /\ length (data w) = data_size g;
  in_background : forall b, background ds = Some b ->
      exists bk, background_of ds = Some bk /\ geom bk = g;
  in_mask_fit : forall f, mask_fit ds = Some f -> geom f = g
}.

Lemma from_geoms_accumulating (g : Geom) (n : string) :
  accumulating g (from_geoms Evaluator g n).
Proof.
  constructor; simpl; eauto; try discriminate.
  intros b Hb. now inversion Hb.
Qed.

Lemma accumulating_compatible (g : Geom) (acc other : MapDataset Evaluator) (w : BMap) :
  accumulating g acc -> stackable_on g other -> mask_safe other = Some w ->
  compatible acc other w.
Proof.
  intros Ha Ho Hw.
  destruct (in_mask Ho) as (w0 & Hw0 & Hgw & _).
  assert (w0 = w) by congruence. subst w0.
  constructor.
  - intros a b Hea. rewrite (acc_exposure Ha) in Hea. discriminate.
  - intros a b _ Hba Hbo.
    destruct (in_background Ho Hbo) as (bk & Hbk & Hgb).
    exists a, bk. repeat split; auto.
    + unfold npred_background. now rewrite (acc_model Ha).
    + rewrite (acc_background Ha Hba). now symmetry.
    + congruence.
  - intros a Hm. destruct (acc_mask Ha) as (m & Hm' & Hgm). congruence.
  - intros a b Hfa Hfb. rewrite (acc_mask_fit Ha Hfa). symmetry. apply (in_mask_fit Ho Hfb).
Qed.

(** One dataset stacked on the cumulative dataset: the counts grow by the
    counts of the dataset weighted by its safe mask, the safe mask by the
    safe mask of the dataset. *)
Lemma stack_step (g : Geom) (acc other : MapDataset Evaluator) (c cx : FMap) (m w : BMap)
      (nan_to_num : bool) :
  accumulating g acc -> stackable_on g other ->
  counts acc = Some c -> mask_safe acc = Some m ->
  counts other = Some cx -> mask_safe other = Some w ->
  exists acc',
    stack_ acc other nan_to_num = Ok acc'
    /\ accumulating g acc'
    /\ counts acc' = Some (mkMap (geom c) (Np.add (data c)
                                             (masked nan_to_num (data w) (data cx)))
                                 (unit c))
    /\ mask_safe acc' = Some (mkMap (geom m) (Np.logical_or (data m) (data w)) (unit m)).
Proof.
  intros Ha Ho Hc Hm Hcx Hw.
  destruct (in_counts Ho) as (cx0 & Hcx0 & Hgcx & Hlcx).
  assert (cx0 = cx) by congruence. subst cx0.
  destruct (in_mask Ho) as (w0 & Hw0 & Hgw & Hlw).
  assert (w0 = w) by congruence. subst w0.
  destruct (acc_counts Ha) as (c0 & Hc0 & Hgc).
  assert (c0 = c) by congruence. subst c0.
  destruct (acc_mask Ha) as (m0 & Hm0 & Hgm).
  assert (m0 = m) by congruence. subst m0.
  pose proof (accumulating_compatible Ha Ho Hw) as Hcompat.
  destruct (@stack_returns acc other w nan_to_num
              (Some (mkMap (geom c) (Np.add (data c) (masked nan_to_num (data w) (data cx)))
                           (unit c))) Hw Hcompat)
    as (e & bk & ms & mf & He & Hbk & Hms & Hmf & Hstack).
  { unfold stack_role. rewrite Hc, Hcx.
    rewrite stack_masked; try congruence. reflexivity. }
  eexists. split; [exact Hstack|].
  assert (Ems : ms = Some (mkMap (geom m) (Np.logical_or (data m) (data w)) (unit m))).
  { unfold stack_mask_safe in Hms. rewrite Hm, Hw in Hms.
    unfold MapOps.stack_bool in Hms. rewrite Hgm, Hgw, geom_eqb_refl in Hms.
    simpl in Hms. inversion Hms. now rewrite Hgm. }
  assert (Ee : e = None).
  { unfold stack_role in He. rewrite (acc_exposure Ha) in He. now inversion He. }
  split; [|split; [reflexivity|simpl; exact Ems]].
  constructor; simpl.
  - eexists. split; [reflexivity|]. simpl. congruence.
  - rewrite Ems. eexists. split; [reflexivity|]. simpl. congruence.
  - exact Ee.
  - apply (acc_model Ha).
  - intros b Hb. unfold stack_background in Hbk.
    destruct (stat_type acc).
    + destruct (background acc) as [ba|] eqn:Hba.
      * destruct (background other) as [bo|] eqn:Hbo.
        -- destruct (returned (npred_background evaluate_geom acc)) as [ra|] eqn:Hra;
             [|discriminate].
           destruct (returned (npred_background evaluate_geom other)) as [ro|];
             [|discriminate].
           unfold MapOps.stack in Hbk.
           destruct (negb (geom_eqb (geom ra) (geom ro))); [discriminate|].
           assert (Hra' : ra = ba).
           { unfold npred_background in Hra. rewrite (acc_model Ha) in Hra.
             simpl in Hra. congruence. }
           rewrite Hw in Hbk.
           destruct (negb (npix_eqb (npix (geom ro)) (npix (geom w)))); [discriminate|].
           simpl in Hbk. inversion Hbk; subst bk. simpl in Hb. inversion Hb; subst b.
           simpl. apply (acc_background Ha). congruence.
        -- inversion Hbk; subst bk. simpl in Hb. apply (acc_background Ha). congruence.
      * inversion Hbk; subst bk. simpl in Hb. discriminate.
    + inversion Hbk; subst bk. simpl in Hb. now apply (acc_background Ha).
  - intros f Hf. unfold stack_mask_fit in Hmf.
    destruct (mask_fit acc) as [fa|] eqn:Hfa; destruct (mask_fit other) as [fo|] eqn:Hfo.
    + unfold MapOps.stack_bool in Hmf.
      destruct (negb (geom_eqb (geom fa) (geom fo))); [discriminate|].
      simpl in Hmf. inversion Hmf as [E]. rewrite <- E in Hf. inversion Hf as [E'].
      simpl. now apply (acc_mask_fit Ha).
    + inversion Hmf as [E]. rewrite <- E in Hf. inversion Hf as [E']. rewrite <- E'.
      now apply (acc_mask_fit Ha).
    + inversion Hmf as [E]. rewrite <- E in Hf. inversion Hf as [E']. rewrite <- E'.
      now apply (in_mask_fit Ho).
    + inversion Hmf as [E]. rewrite <- E in Hf. discriminate.
Qed.

(** *** The order of stacking *)

(** A bin of three datasets: the counts, natural numbers, and the safe
    masks. *)
Record Bin : Type := mkBin {
  k1 : Z; w1 : bool;
  k2 : Z; w2 : bool;
  k3 : Z; w3 : bool
}.

(** The counts of the bin are natural numbers whose sum is below [2 ^ 53]:
    every partial sum is held by a float without rounding. *)
Definition exact_bin (b : Bin) : Prop :=
  (0 <= k1 b /\ 0 <= k2 b /\ 0 <= k3 b /\ k1 b + k2 b + k3 b < 2 ^ 53)%Z.

(** The dataset holds the counts [k] and the safe mask [w] of the bins. *)
Definition holds (ds : MapDataset Evaluator) (k : Bin -> Z) (w : Bin -> bool)
           (bins : list Bin) : Prop :=
  exists c m, counts ds = Some c /\ mask_safe ds = Some m
              /\ data c = List.map (fun b => IntegerFloats.count (k b)) bins
              /\ data m = List.map w bins.

Lemma zip_with_map {A B C D : Type} (f : B -> C -> D) (g : A -> B) (h : A -> C)
      (l : list A) :
  Np.zip_with f (List.map g l) (List.map h l) = List.map (fun x => f (g x) (h x)) l.
Proof.
  induction l as [|x l IH]; simpl; auto. now rewrite IH.
Qed.

Lemma repeat_map {A B : Type} (x : B) (l : list A) :
  repeat x (length l) = List.map (fun _ => x) l.
Proof.
  induction l as [|y l IH]; simpl; auto. now rewrite IH.
Qed.

Lemma stacked_count (nan_to_num : bool) (k : Z) :
  (0 <= k < 2 ^ 53)%Z ->
  stacked_value nan_to_num (IntegerFloats.count k) = IntegerFloats.count k.
Proof.
  intros Hk. unfold stacked_value. destruct nan_to_num; auto.
  apply FloatFacts.zero_not_finite_id. now apply IntegerFloats.count_finite.
Qed.

Lemma masked_counts (nan_to_num : bool) (k : Bin -> Z) (w : Bin -> bool) (bins : list Bin) :
  Forall (fun b => (0 <= k b < 2 ^ 53)%Z) bins ->
  masked nan_to_num (List.map w bins) (List.map (fun b => IntegerFloats.count (k b)) bins)
  = List.map (fun b => IntegerFloats.count (if w b then k b else 0%Z)) bins.
Proof.
  intros H. unfold masked, Np.mul_bool. rewrite map_map, zip_with_map.
  apply map_ext_in. intros b Hb. rewrite Forall_forall in H.
  rewrite stacked_count by now apply H.
  apply IntegerFloats.count_mul_bool. now apply H.
Qed.

Lemma add_counts (f h : Bin -> Z) (bins : list Bin) :
  Forall (fun b => (0 <= f b /\ 0 <= h b /\ f b + h b < 2 ^ 53)%Z) bins ->
  Np.add (List.map (fun b => IntegerFloats.count (f b)) bins)
         (List.map (fun b => IntegerFloats.count (h b)) bins)
  = List.map (fun b => IntegerFloats.count (f b + h b)%Z) bins.
Proof.
  intros H. unfold Np.add. rewrite zip_with_map.
  apply map_ext_in. intros b Hb. rewrite Forall_forall in H.
  destruct (H b Hb) as (H1 & H2 & H3). now apply IntegerFloats.count_add.
Qed.

(** The counts in a bin after three datasets were stacked on zero. *)
Definition stacked_counts (ka kb kc : Bin -> Z) (wa wb wc : Bin -> bool) (b : Bin) : Z :=
  (0 + (if wa b then ka b else 0) + (if wb b then kb b else 0)
   + (if wc b then kc b else 0))%Z.

Lemma three_terms (nan_to_num : bool) (ka kb kc : Bin -> Z) (wa wb wc : Bin -> bool)
      (bins : list Bin) :
  Forall (fun b => (0 <= ka b /\ 0 <= kb b /\ 0 <= kc b
                    /\ ka b + kb b + kc b < 2 ^ 53)%Z) bins ->
  Np.add
    (Np.add
       (Np.add (repeat 0%float (length bins))
          (masked nan_to_num (List.map wa bins)
                  (List.map (fun b => IntegerFloats.count (ka b)) bins)))
       (masked nan_to_num (List.map wb bins)
               (List.map (fun b => IntegerFloats.count (kb b)) bins)))
    (masked nan_to_num (List.map wc bins)
            (List.map (fun b => IntegerFloats.count (kc b)) bins))
  = List.map (fun b => IntegerFloats.count (stacked_counts ka kb kc wa wb wc b)) bins.
Proof.
  intros H. rewrite Forall_forall in H.
  rewrite !masked_counts
    by (apply Forall_forall; intros b Hb; destruct (H b Hb) as (? & ? & ? & ?); lia).
  rewrite repeat_map. change 0%float with (IntegerFloats.count 0).
  rewrite (add_counts (fun _ => 0%Z) (fun b => if wa b then ka b else 0%Z)).
  2:{ apply Forall_forall. intros b Hb. destruct (H b Hb) as (? & ? & ? & ?).
      destruct (wa b); lia. }
  rewrite (add_counts (fun b => (0 + if wa b then ka b else 0)%Z)
                      (fun b => if wb b then kb b else 0%Z)).
  2:{ apply Forall_forall. intros b Hb. destruct (H b Hb) as (? & ? & ? & ?).
      destruct (wa b), (wb b); lia. }
  rewrite (add_counts (fun b => (0 + (if wa b then ka b else 0)
                                 + if wb b then kb b else 0)%Z)
                      (fun b => if wc b then kc b else 0%Z)).
  2:{ apply Forall_forall. intros b Hb. destruct (H b Hb) as (? & ? & ? & ?).
      destruct (wa b), (wb b), (wc b); lia. }
  reflexivity.
Qed.

Abbreviation stack_three_ := (stack_three (Evaluator := Evaluator) evaluate_geom).
Abbreviation masked_total_ := (masked_total (Evaluator := Evaluator) np_sum).

Lemma stack_three_result (g : Geom) (a b c : MapDataset Evaluator) (nan_to_num : bool)
      (ka kb kc : Bin -> Z) (wa wb wc : Bin -> bool) (bins : list Bin) :
  stackable_on g a -> stackable_on g b -> stackable_on g c ->
  length bins = data_size g ->
  holds a ka wa bins -> holds b kb wb bins -> holds c kc wc bins ->
  Forall (fun x => (0 <= ka x /\ 0 <= kb x /\ 0 <= kc x
                    /\ ka x + kb x + kc x < 2 ^ 53)%Z) bins ->
  exists s,
    stack_three_ g a b c nan_to_num = Ok s
    /\ counts s
       = Some (mkMap g (List.map (fun x => IntegerFloats.count
                                            (stacked_counts ka kb kc wa wb wc x)) bins)
                     EmptyString)
    /\ mask_safe s
       = Some (mkMap g (List.map (fun x => false || wa x || wb x || wc x) bins)
                     EmptyString).
Proof.
  intros Sa Sb Sc Hlen (ca & ma & Hca & Hma & Hda & Hwa) (cb & mb & Hcb & Hmb & Hdb & Hwb)
         (cc & mc & Hcc & Hmc & Hdc & Hwc) Hexact.
  unfold stack_three.
  destruct (@stack_step g (from_geoms Evaluator g "stacked") a
              (MapOps.from_geom g EmptyString) ca (MapOps.from_geom_bool g) ma nan_to_num)
    as (s1 & -> & I1 & C1 & M1); auto using from_geoms_accumulating.
  simpl bind.
  destruct (stack_step nan_to_num I1 Sb C1 M1 Hcb Hmb) as (s2 & -> & I2 & C2 & M2).
  simpl bind.
  destruct (stack_step nan_to_num I2 Sc C2 M2 Hcc Hmc) as (s3 & -> & I3 & C3 & M3).
  exists s3. split; [reflexivity|]. split.
  - rewrite C3. simpl. rewrite Hda, Hdb, Hdc, Hwa, Hwb, Hwc, <- Hlen.
    now rewrite three_terms.
  - rewrite M3. simpl. rewrite Hwa, Hwb, Hwc, <- Hlen.
    unfold Np.logical_or. rewrite repeat_map.
    now rewrite !zip_with_map.
Qed.

(** C5, as amended: three Cash datasets on a common geometry whose counts
    are natural numbers, with a sum below [2 ^ 53] in every bin, give the
    same counts, the same safe mask and the same masked total counts whether
    they are stacked into the empty dataset in the order A, B, C or in the
    order C, B, A; their safe masks may differ. *)
Theorem stacking_order_of_integer_counts
        (g : Geom) (a b c : MapDataset Evaluator) (nan_to_num : bool) (bins : list Bin) :
  stackable_on g a -> stackable_on g b -> stackable_on g c ->
  length bins = data_size g ->
  holds a k1 w1 bins -> holds b k2 w2 bins -> holds c k3 w3 bins ->
  Forall exact_bin bins ->
  exists abc cba total,
    stack_three_ g a b c nan_to_num = Ok abc
    /\ stack_three_ g c b a nan_to_num = Ok cba
    /\ counts abc = counts cba
    /\ mask_safe abc = mask_safe cba
    /\ masked_total_ abc = Some total
    /\ masked_total_ cba = Some total.
Proof.
  intros Sa Sb Sc Hlen Ha Hb Hc Hexact.
  destruct (@stack_three_result g a b c nan_to_num k1 k2 k3 w1 w2 w3 bins)
    as (abc & Habc & C1 & M1); auto.
  destruct (@stack_three_result g c b a nan_to_num k3 k2 k1 w3 w2 w1 bins)
    as (cba & Hcba & C2 & M2); auto.
  { apply Forall_forall. intros x Hx. rewrite Forall_forall in Hexact.
    destruct (Hexact x Hx) as (? & ? & ? & ?). repeat split; auto. lia. }
  assert (EC : counts abc = counts cba).
  { rewrite C1, C2. do 2 f_equal. apply map_ext. intros x. f_equal.
    unfold stacked_counts. lia. }
  assert (EM : mask_safe abc = mask_safe cba).
  { rewrite M1, M2. do 2 f_equal. apply map_ext. intros x.
    destruct (w1 x), (w2 x), (w3 x); reflexivity. }
  exists abc, cba. eexists. repeat split; auto.
  - unfold masked_total. rewrite C1, M1. reflexivity.
  - unfold masked_total. rewrite <- EC, <- EM, C1, M1. reflexivity.
Qed.

End StackProperties.

(** ** A concrete evaluator and concrete datasets

    A stand-in for [MapEvaluator], on which the definitions above can be run:
    it holds the predicted-counts map it would compute, a flag telling whether
    the model overlaps the data, and a flag telling whether its inputs are
    stale. *)

Module Example.

Record ToyEvaluator : Type := mkToy {
  stale : bool;
  overlaps : bool;
  toy_npred : FMap
}.

Definition toy_update (e : ToyEvaluator) (_ : UpdateArgs) : ToyEvaluator :=
  mkToy false (overlaps e) (toy_npred e).

Definition toy_compute (e : ToyEvaluator) : FMap * ToyEvaluator := (toy_npred e, e).

Definition toy_reset (e : ToyEvaluator) : ToyEvaluator := e.

(** A background model whose only parameter is a norm. *)
Definition norm_evaluate_geom (values : list float) (g : Geom) : list float :=
  repeat (hd 1%float values) (data_size g).

Definition energy_axis : MapAxis := mkAxis "energy" 2 [].

(** One pixel, two energy bins. *)
Definition geom2 : Geom := mkGeom (1, 1) [energy_axis].

Definition fmap2 (a b : float) : FMap := mkMap geom2 [a; b] EmptyString.
Definition bmap2 (a b : bool) : BMap := mkMap geom2 [a; b] EmptyString.

Definition far_source : ToyEvaluator := mkToy true false (fmap2 3 4).
Definition source : ToyEvaluator := mkToy true true (fmap2 3 4).

Definition dataset (bkg : option FMap) (model : option (list float))
           (evs : list (string * ToyEvaluator)) : MapDataset ToyEvaluator :=
  mkDataset "obs" (Some (fmap2 5 7)) None bkg None None (Some (bmap2 true true)) None
            model None None evs Cash.

End Example.

Lemma npred_signal_no_contribution_witness :
  exists ds',
    npred_signal Example.stale Example.toy_update Example.overlaps Example.toy_compute
                 Example.toy_reset true
                 (Example.dataset None None [("far", Example.far_source)]) None false
    = Ok (MapOps.from_geom Example.geom2 EmptyString, ds')
    /\ geom (MapOps.from_geom Example.geom2 EmptyString) = Example.geom2
    /\ data (MapOps.from_geom Example.geom2 EmptyString)
       = repeat 0%float (data_size Example.geom2).
Proof.
  apply (@npred_signal_no_contribution _ Example.stale Example.toy_update Example.overlaps
           Example.toy_compute Example.toy_reset true
           (Example.dataset None None [("far", Example.far_source)]) Example.geom2 None
           [("far", Example.far_source)] false).
  - reflexivity.
  - reflexivity.
  - intros entry [<-|[]]. reflexivity.
Defined.

Module Run.

Abbreviation npred_signal := (npred_signal Example.stale Example.toy_update Example.overlaps
                                Example.toy_compute Example.toy_reset true).
Abbreviation npred := (npred Example.stale Example.toy_update Example.overlaps
                         Example.toy_compute Example.toy_reset Example.norm_evaluate_geom true).
Abbreviation npred_background := (npred_background (Evaluator := Example.ToyEvaluator)
                                    Example.norm_evaluate_geom).

(** A dataset with a source predicting [-3] and [4] counts, a background of
    [1] and [2] counts and a background norm of [2]. *)
Definition observed : MapDataset Example.ToyEvaluator :=
  Example.dataset (Some (Example.fmap2 1 2)) (Some [2%float])
                  [("src", Example.mkToy true true (Example.fmap2 (-3) 4))].

Example npred_observed :
  option_map (fun r => data (fst r)) (match npred observed with Ok r => Some r | Raise _ => None end)
  = Some [0%float; 8%float].
Proof. vm_compute. reflexivity. Qed.

End Run.


(** A dataset whose background norm is the NaN: every call of
    [npred_background] evaluates the background model. *)
Definition uninitialised : MapDataset Example.ToyEvaluator :=
  Example.dataset (Some (Example.fmap2 1 2)) (Some [nan]) [].


(** C6, as stated, fails: the constructor called with no argument at all
    returns a dataset; the reference geometry of that dataset raises. *)
Lemma constructor_without_geometry_returns :
  let a := mkInit None None None None None None None None "empty" Cash in
  no_geometry a
  /\ exists ds, __init__ (fun _ _ => Example.source) (fun _ _ _ => None) a = Ok ds
                /\ _geom ds = Raise ValueError.
Proof.
  simpl. split.
  - now repeat split.
  - eexists. split; reflexivity.
Qed.

Lemma no_geometry_raises_on_use_witness :
  let a := mkInit (Some [SkyModel "src" None]) None None None None None None None "empty" Cash in
  let init := __init__ (fun _ _ => Example.source) (fun _ _ _ => None) in
  (init a = Raise ValueError
   <-> (truthy (init_psf a) && negb (is_psf (init_psf a))
        || truthy (init_edisp a) && negb (is_edisp (init_edisp a))) = true)
  /\ ((truthy (init_psf a) && negb (is_psf (init_psf a))
       || truthy (init_edisp a) && negb (is_edisp (init_edisp a))) = false ->
      exists ds, init a = Ok ds /\ _geom ds = Raise ValueError).
Proof.
  apply (@no_geometry_raises_on_use Example.ToyEvaluator (fun _ _ => Example.source)
           (fun _ _ _ => None)
           (mkInit (Some [SkyModel "src" None]) None None None None None None None "empty" Cash)).
  now repeat split.
Defined.

(** *** Runs of the PSF map *)

Module PSFRun.

(** A PSF map tabulated up to 0.3 degrees and a target geometry of
    2 x 2 degrees. *)
Definition psf : PSF.PSFMap := PSF.mkPSF [0.125%float; 0.25%float] [0.125%float; 0.125%float].
Definition target : PSF.WcsGeom := PSF.mkWcs (100, 100) (2%float, 2%float).

(** A stand-in for [to_odd_npix]: the next odd pixel count. *)
Definition next_odd (g : PSF.WcsGeom) (_ : float) : PSF.WcsGeom :=
  PSF.mkWcs (2 * (fst (PSF.wcs_npix g) / 2) + 1, 2 * (snd (PSF.wcs_npix g) / 2) + 1)
            (PSF.width g).

Lemma next_odd_odd (g : PSF.WcsGeom) (r : float) :
  PSF.is_odd (fst (PSF.wcs_npix (next_odd g r)))
  && PSF.is_odd (snd (PSF.wcs_npix (next_odd g r))) = true.
Proof.
  unfold PSF.is_odd, next_odd. cbn [PSF.wcs_npix fst snd].
  rewrite !(Nat.add_comm _ 1), !Nat.odd_add_mul_2. reflexivity.
Qed.

End PSFRun.

(** C9, as stated, fails: a caller who passes [max_radius = 5] degrees gets a
    kernel built with 5 degrees, though the PSF map is tabulated up to 0.25
    degrees only and half the width of the target geometry is 1 degree. *)
Lemma given_max_radius_is_not_clamped :
  PSF.kernel_max_radius PSFRun.psf PSFRun.target (Some 5%float) = Ok 5%float
  /\ PSF.np_max (PSF.rad_center PSFRun.psf) = Ok 0.25%float
  /\ PSF.py_min 0.25%float (PrimFloat.div 2%float 2%float) = 0.25%float
  /\ PrimFloat.ltb 0.25%float 5%float = true.
Proof. repeat split. Qed.

Lemma kernel_radius_clamped_by_default_witness :
  let half := PrimFloat.div (PSF.np_minimum 2%float 2%float) 2%float in
  (exists r, PSF.kernel_max_radius PSFRun.psf PSFRun.target None = Ok r
             /\ (r = 0.25%float \/ r = half)
             /\ (Np.isnan 0.25%float = false -> Np.isnan half = false ->
                 PrimFloat.leb r 0.25%float = true /\ PrimFloat.leb r half = true))
  /\ (forall r, PSF.kernel_max_radius PSFRun.psf PSFRun.target (Some r) = Ok r)
  /\ (forall max_radius, exists r g,
        PSF.kernel_max_radius PSFRun.psf PSFRun.target max_radius = Ok r
        /\ PSF.kernel_geom PSFRun.next_odd PSFRun.psf PSFRun.target max_radius = Ok g
        /\ g = PSFRun.next_odd PSFRun.target r
        /\ PSF.is_odd (fst (PSF.wcs_npix g)) && PSF.is_odd (snd (PSF.wcs_npix g)) = true).
Proof.
  apply (@kernel_radius_clamped_by_default PSFRun.next_odd PSFRun.next_odd_odd
           PSFRun.psf PSFRun.target 0.25%float).
  reflexivity.
Defined.

(** C8: the position angle that [sample_coord] draws is
    [360 + (1 - 360) * u] for a draw [u] of the interval [0, 1), since
    [uniform(360, size=n)] sets the lower bound, not the upper one: the draw
    [0] gives 360 degrees, outside the interval [0, 360), the draw [0.5] gives
    180.5 degrees, and the largest draw below 1 gives an angle above 1 degree. *)
Theorem position_angle_range :
  PSF.position_angle [0%float; 0.5%float; 0x1.fffffffffffffp-1%float]
  = [360%float; 180.5%float; 0x1.0000000000100p+0%float]
  /\ PrimFloat.ltb 360%float 360%float = false
  /\ PrimFloat.ltb 1%float 0x1.0000000000100p+0%float = true.
Proof. repeat split. Qed.

(** *** Runs of stacking *)

Module StackRun.

Abbreviation stack := (stack (Evaluator := Example.ToyEvaluator) Example.norm_evaluate_geom).

Definition cash (c : FMap) (w : BMap) : MapDataset Example.ToyEvaluator :=
  mkDataset "obs" (Some c) None None None None (Some w) None None None None [] Cash.

(** The cumulative dataset, unsafe in its second bin, and an observation
    that is safe in its first bin only and holds an infinite value. *)
Definition stacked : MapDataset Example.ToyEvaluator :=
  cash (Example.fmap2 5 7) (Example.bmap2 true false).
Definition observation : MapDataset Example.ToyEvaluator :=
  cash (Example.fmap2 2 infinity) (Example.bmap2 true false).

Example stack_observation :
  option_map (fun ds => option_map (@data float) (counts ds))
             (match stack stacked observation true with Ok ds => Some ds | Raise _ => None end)
  = Some (Some [7%float; 7%float]).
Proof. vm_compute. reflexivity. Qed.

Lemma compatible_cash (a b : FMap) (w w' : BMap) :
  geom w = geom w' -> compatible Example.norm_evaluate_geom (cash a w) (cash b w') w'.
Proof.
  intros Hg. constructor; simpl; try discriminate.
  intros m Hm. now inversion Hm; subst.
Qed.

End StackRun.

Lemma stack_counts_masked_by_other_witness :
  exists self' c,
    StackRun.stack StackRun.stacked StackRun.observation true = Ok self'
    /\ counts self' = Some c
    /\ geom c = geom (Example.fmap2 5 7)
    /\ length (data c) = length (data (Example.fmap2 5 7))
    /\ forall i, i < length (data (Example.fmap2 5 7)) ->
         let ai := nth i (data (Example.fmap2 5 7)) 0%float in
         let x := nth i (data (Example.fmap2 2 infinity)) 0%float in
         let wi := nth i (data (Example.bmap2 true false)) false in
         let ci := nth i (data c) 0%float in
         ci = PrimFloat.add ai (PrimFloat.mul (stacked_value true x) (Np.of_bool wi))
         /\ (Np.isfinite x = true ->
             ci = PrimFloat.add ai (PrimFloat.mul x (Np.of_bool wi)))
         /\ (wi = false -> true = true \/ Np.isfinite x = true ->
             FloatFacts.same ci ai = true).
Proof.
  apply (@stack_counts_masked_by_other Example.ToyEvaluator Example.norm_evaluate_geom
           StackRun.stacked StackRun.observation (Example.fmap2 5 7)
           (Example.fmap2 2 infinity) (Example.bmap2 true false) true);
    try reflexivity.
  now apply StackRun.compatible_cash.
Defined.

(** *** Runs of stacking in two orders *)

Module OrderRun.

Abbreviation stack_three :=
  (stack_three (Evaluator := Example.ToyEvaluator) Example.norm_evaluate_geom).
Abbreviation masked_total := (masked_total (Evaluator := Example.ToyEvaluator) Np.sum_seq).

(** One pixel, one energy bin. *)
Definition geom1 : Geom := mkGeom (1, 1) [mkAxis "energy" 1 []].

Definition single (x : float) : MapDataset Example.ToyEvaluator :=
  StackRun.cash (mkMap geom1 [x] EmptyString) (mkMap geom1 [true] EmptyString).

(** Observations with 0.1 and 0.6 counts (an Asimov dataset holds predicted
    counts, which are not integers). *)
Definition tenth : MapDataset Example.ToyEvaluator := single 0x1.999999999999ap-4.
Definition six_tenths : MapDataset Example.ToyEvaluator := single 0x1.3333333333333p-1.

(** Three observations with integer counts and different safe masks. *)
Definition bins : list Bin :=
  [mkBin 3 true 4 false 5 true; mkBin 1 false 2 true 0 true].

Definition run_a : MapDataset Example.ToyEvaluator :=
  StackRun.cash (Example.fmap2 3 1) (Example.bmap2 true false).
Definition run_b : MapDataset Example.ToyEvaluator :=
  StackRun.cash (Example.fmap2 4 2) (Example.bmap2 false true).
Definition run_c : MapDataset Example.ToyEvaluator :=
  StackRun.cash (Example.fmap2 5 0) (Example.bmap2 true true).

Lemma cash_stackable (g : Geom) (c : list float) (w : list bool) :
  length c = data_size g -> length w = data_size g ->
  stackable_on Example.norm_evaluate_geom g
               (StackRun.cash (mkMap g c EmptyString) (mkMap g w EmptyString)).
Proof.
  intros Hc Hw. constructor; simpl; eauto; discriminate.
Qed.

End OrderRun.

(** C5, as stated, fails: with 0.1, 0.1 and 0.6 counts in the one bin of
    three datasets, all safe, stacking in the order A, B, C gives 0.8 counts
    and stacking in the order C, B, A gives 0.7999999999999999 counts: the
    additions of floating-point numbers round, and the masked total counts
    differ. *)
Lemma stacking_order_changes_rounded_counts :
  exists abc cba,
    OrderRun.stack_three OrderRun.geom1 OrderRun.tenth OrderRun.tenth OrderRun.six_tenths
                         true = Ok abc
    /\ OrderRun.stack_three OrderRun.geom1 OrderRun.six_tenths OrderRun.tenth
                            OrderRun.tenth true = Ok cba
    /\ OrderRun.masked_total abc = Some 0x1.999999999999ap-1%float
    /\ OrderRun.masked_total cba = Some 0x1.9999999999999p-1%float
    /\ PrimFloat.eqb 0x1.999999999999ap-1 0x1.9999999999999p-1 = false.
Proof.
  eexists. eexists. repeat split.
Qed.

Lemma stacking_order_of_integer_counts_witness :
  exists abc cba total,
    OrderRun.stack_three Example.geom2 OrderRun.run_a OrderRun.run_b OrderRun.run_c true
    = Ok abc
    /\ OrderRun.stack_three Example.geom2 OrderRun.run_c OrderRun.run_b OrderRun.run_a true
       = Ok cba
    /\ counts abc = counts cba
    /\ mask_safe abc = mask_safe cba
    /\ OrderRun.masked_total abc = Some total
    /\ OrderRun.masked_total cba = Some total.
Proof.
  apply (@stacking_order_of_integer_counts Example.ToyEvaluator Example.norm_evaluate_geom
           Np.sum_seq Example.geom2 OrderRun.run_a OrderRun.run_b OrderRun.run_c true
           OrderRun.bins).
  - now apply OrderRun.cash_stackable.
  - now apply OrderRun.cash_stackable.
  - now apply OrderRun.cash_stackable.
  - reflexivity.
  - eexists. eexists. repeat split.
  - eexists. eexists. repeat split.
  - eexists. eexists. repeat split.
  - repeat constructor; simpl; lia.
Defined.

(** *** A run of stacking on/off datasets *)

Module OnOffRun.

Abbreviation onoff_stack :=
  (onoff_stack (Evaluator := Example.ToyEvaluator) Example.norm_evaluate_geom Np.sum_seq).

Definition wstat (c : FMap) (w : BMap) : MapDataset Example.ToyEvaluator :=
  mkDataset "obs" (Some c) None None None None (Some w) None None None None [] WStat.

(** The cumulative dataset: 10 and 0 off counts, alpha 1/2. *)
Definition stacked : MapDatasetOnOff Example.ToyEvaluator :=
  mkOnOff (wstat (Example.fmap2 5 7) (Example.bmap2 true true))
          (Some (Example.fmap2 10 0)) (Some (Example.fmap2 1 1)) (Some (Example.fmap2 2 2)).

(** An observation that is safe in its first bin only: 4 and 3 off counts,
    alpha 1/4. *)
Definition observation : MapDatasetOnOff Example.ToyEvaluator :=
  mkOnOff (wstat (Example.fmap2 2 1) (Example.bmap2 true false))
          (Some (Example.fmap2 4 3)) (Some (Example.fmap2 1 1)) (Some (Example.fmap2 4 4)).

(** In the first bin [acceptance_off = 2 * 14 / 6]; in the second bin the off
    counts sum to 0 and [acceptance_off = 1 / (6 / 14)]. *)
Example stack_onoff_observation :
  option_map (fun ds => option_map (@data float) (acceptance_off ds))
             (match onoff_stack stacked observation true with
              | Ok ds => Some ds
              | Raise _ => None
              end)
  = Some (Some [PrimFloat.div 28 6; PrimFloat.div 1 (PrimFloat.div 6 14)]).
Proof. vm_compute. reflexivity. Qed.

Lemma on_geom_stacked : on_geom Example.geom2 stacked.
Proof.
  constructor; simpl; eauto 6.
  intros o Ho. inversion Ho; subst. eauto 6.
Qed.

Lemma on_geom_observation : on_geom Example.geom2 observation.
Proof.
  constructor; simpl; eauto 6.
  intros o Ho. inversion Ho; subst. eauto 6.
Qed.

Lemma compatible_base :
  compatible Example.norm_evaluate_geom (base stacked) (base observation)
             (Example.bmap2 true false).
Proof.
  constructor; simpl; try discriminate.
  intros a Ha. now inversion Ha.
Qed.

End OnOffRun.

Lemma onoff_stack_acceptance_off_witness :
  let n := data_size Example.geom2 in
  let S := data_of OnOffRun.stacked in
  let O := data_of OnOffRun.observation in
  exists self' m,
    OnOffRun.onoff_stack OnOffRun.stacked OnOffRun.observation true = Ok self'
    /\ acceptance_off self' = Some m
    /\ geom m = Example.geom2
    /\ length (data m) = n
    /\ (forall i, i < n ->
          nth i (data m) 0%float
          = stacked_acceptance_off n true (data (Example.bmap2 true false)) S O
                                   Np.sum_seq i)
    /\ option_map (@data float) (counts_off self')
       = Some (total_off n true (data (Example.bmap2 true false)) S O)
    /\ option_map (@data float) (acceptance self')
       = Some (total_acceptance n true (data (Example.bmap2 true false)) S O).
Proof.
  apply (@onoff_stack_acceptance_off Example.ToyEvaluator Example.norm_evaluate_geom
           Np.sum_seq OnOffRun.stacked OnOffRun.observation Example.geom2
           (Example.bmap2 true false) true).
  - exact OnOffRun.on_geom_stacked.
  - exact OnOffRun.on_geom_observation.
  - reflexivity.
  - reflexivity.
  - exact OnOffRun.compatible_base.
Defined.

(** ** Writing and reading back *)

Section Persistence.

Import IO.

Variable Evaluator : Type.

Lemma delete_missing (n : string) (hdulist : list hdu) :
  contains n hdulist = false -> delete n hdulist = Raise KeyError.
Proof.
  induction hdulist as [|h rest IH]; simpl; intros H; auto.
  apply orb_false_elim in H as [Hh Hrest].
  rewrite Hh, (IH Hrest). reflexivity.
Qed.

Lemma contains_app (n : string) (l1 l2 : list hdu) :
  contains n (l1 ++ l2) = contains n l1 || contains n l2.
Proof. apply existsb_app. Qed.

Lemma find_image_app (n : string) (l1 l2 : list hdu) :
  find_image n (l1 ++ l2)
  = match find_image n l1 with
    | Some m => Some m
    | None => find_image n l2
    end.
Proof.
  induction l1 as [|[|k m|k b] l1 IH]; simpl; auto.
  destruct (String.eqb k n); auto.
Qed.

Lemma contains_image_same (n : string) (g : Geom) (d : ndarray) (u : string) :
  contains n (image_hdus n g d u) = true.
Proof. unfold image_hdus; simpl. now rewrite String.eqb_refl. Qed.

Lemma find_image_same (n : string) (g : Geom) (d : ndarray) (u : string) :
  find_image n (image_hdus n g d u) = Some (mkImage g d u).
Proof. unfold image_hdus; simpl. now rewrite String.eqb_refl. Qed.

Lemma contains_image_other (n k : string) (g : Geom) (d : ndarray) (u : string) :
  String.eqb k n = false ->
  String.eqb (k ++ "_BANDS") n = false ->
  contains n (image_hdus k g d u) = false.
Proof.
  intros H1 H2. unfold image_hdus; simpl. rewrite H1.
  destruct (axes g); simpl; auto. now rewrite H2.
Qed.

Lemma find_image_other (n k : string) (g : Geom) (d : ndarray) (u : string) :
  String.eqb k n = false ->
  find_image n (image_hdus k g d u) = None.
Proof.
  intros H1. unfold image_hdus; simpl. rewrite H1.
  destruct (axes g); simpl; auto.
Qed.

(** A role map is written under its own name only. *)
Definition foreign (n k : string) : Prop :=
  String.eqb k n = false /\ String.eqb (k ++ "_BANDS") n = false.

Lemma contains_optional_map (n k : string) (o : option FMap) :
  foreign n k -> contains n (optional (map_to_hdulist k) o) = false.
Proof.
  intros [H1 H2]. destruct o as [m|]; [|reflexivity].
  unfold optional, map_to_hdulist, mask_to_hdulist. now apply contains_image_other.
Qed.

Lemma contains_optional_mask (n k : string) (o : option BMap) :
  foreign n k -> contains n (optional (mask_to_hdulist k) o) = false.
Proof.
  intros [H1 H2]. destruct o as [m|]; [|reflexivity].
  unfold optional, map_to_hdulist, mask_to_hdulist. now apply contains_image_other.
Qed.

Lemma find_optional_map (n k : string) (o : option FMap) :
  foreign n k -> find_image n (optional (map_to_hdulist k) o) = None.
Proof.
  intros [H1 H2]. destruct o as [m|]; [|reflexivity].
  unfold optional, map_to_hdulist, mask_to_hdulist. now apply find_image_other.
Qed.

Lemma find_optional_mask (n k : string) (o : option BMap) :
  foreign n k -> find_image n (optional (mask_to_hdulist k) o) = None.
Proof.
  intros [H1 H2]. destruct o as [m|]; [|reflexivity].
  unfold optional, map_to_hdulist, mask_to_hdulist. now apply find_image_other.
Qed.

Lemma contains_irf (n : string) (o : option irf_obj) (hdus : list hdu) :
  irf_to_hdulist o = Ok hdus ->
  foreign n "PSF" -> foreign n "EDISP" ->
  contains n hdus = false.
Proof.
  intros H [P1 P2] [E1 E2].
  destruct o as [[m|m|m| |t]|]; simpl in H; inversion H; subst; auto;
    unfold map_to_hdulist; now apply contains_image_other.
Qed.

Lemma find_irf (n : string) (o : option irf_obj) (hdus : list hdu) :
  irf_to_hdulist o = Ok hdus ->
  foreign n "PSF" -> foreign n "EDISP" ->
  find_image n hdus = None.
Proof.
  intros H [P1 P2] [E1 E2].
  destruct o as [[m|m|m| |t]|]; simpl in H; inversion H; subst; auto;
    unfold map_to_hdulist; now apply find_image_other.
Qed.

Ltac foreign_names := split; reflexivity.

(** Without a background map [MapDataset.to_hdulist] writes no HDU of that
    name. *)
Lemma no_background_hdu (ds : MapDataset Evaluator) (hdulist : list hdu) :
  to_hdulist_with None ds = Ok hdulist ->
  contains "BACKGROUND" hdulist = false.
Proof.
  unfold to_hdulist_with. intros H.
  destruct (irf_to_hdulist (edisp ds)) as [e|] eqn:He; simpl in H; try discriminate.
  destruct (irf_to_hdulist (psf ds)) as [q|] eqn:Hq; simpl in H; try discriminate.
  inversion H; subst; clear H.
  change (contains "BACKGROUND" (PrimaryHDU :: ?l)) with (contains "BACKGROUND" l).
  rewrite !contains_app.
  rewrite (@contains_irf "BACKGROUND" _ _ He), (@contains_irf "BACKGROUND" _ _ Hq)
    by foreign_names.
  rewrite !(@contains_optional_map "BACKGROUND"), !(@contains_optional_mask "BACKGROUND")
    by foreign_names.
  reflexivity.
Qed.

Lemma find_image_missing (n : string) (hdulist : list hdu) :
  contains n hdulist = false -> find_image n hdulist = None.
Proof.
  induction hdulist as [|[|k m|k b] rest IH]; simpl; intros H; auto.
  - apply orb_false_elim in H as [_ H]. auto.
  - apply orb_false_elim in H as [Hk H]. rewrite Hk. auto.
  - apply orb_false_elim in H as [_ H]. auto.
Qed.

Section ReadingBack.

Variable decode : string -> ndarray -> ndarray.

Lemma read_role_missing (n : string) (hdulist : list hdu) :
  contains n hdulist = false -> read_role decode hdulist n = Ok None.
Proof. intros H. unfold read_role. now rewrite H. Qed.

Lemma read_role_skip (n : string) (l1 l2 : list hdu) :
  contains n l1 = false ->
  read_role decode (l1 ++ l2) n = read_role decode l2 n.
Proof.
  intros H. unfold read_role, map_from_hdulist.
  now rewrite contains_app, find_image_app, H, (find_image_missing _ _ H).
Qed.

Lemma read_role_primary (n : string) (hdulist : list hdu) :
  String.eqb "PRIMARY" n = false ->
  read_role decode (PrimaryHDU :: hdulist) n = read_role decode hdulist n.
Proof.
  intros H. unfold read_role, map_from_hdulist, contains.
  cbn [existsb name_of find_image]. now rewrite H.
Qed.

Lemma read_role_image (n : string) (g : Geom) (d : ndarray) (u : string)
      (rest : list hdu) :
  read_role decode (image_hdus n g d u ++ rest) n
  = Ok (Some (mkImage g (decode n d) u)).
Proof.
  unfold read_role, map_from_hdulist.
  now rewrite contains_app, find_image_app, contains_image_same, find_image_same.
Qed.

(** What [from_hdulist] reads in the HDU of a role, before any cast. *)
Definition read_map (n : string) (m : FMap) : Image :=
  mkImage (geom m) (decode n (FloatArray (data m))) (unit m).

Definition read_mask (n : string) (m : BMap) : Image :=
  mkImage (geom m)
          (decode n (IntArray (List.map (fun b : bool => if b then 1%Z else 0%Z) (data m))))
          (unit m).

Lemma read_role_map (n : string) (o : option FMap) (rest : list hdu) :
  contains n rest = false ->
  read_role decode (optional (map_to_hdulist n) o ++ rest) n
  = Ok (option_map (read_map n) o).
Proof.
  intros H. destruct o as [m|]; cbn [optional option_map app].
  - unfold map_to_hdulist. now rewrite read_role_image.
  - now apply read_role_missing.
Qed.

Lemma read_role_mask (n : string) (o : option BMap) (rest : list hdu) :
  contains n rest = false ->
  read_role decode (optional (mask_to_hdulist n) o ++ rest) n
  = Ok (option_map (read_mask n) o).
Proof.
  intros H. destruct o as [m|]; cbn [optional option_map app].
  - unfold mask_to_hdulist. now rewrite read_role_image.
  - now apply read_role_missing.
Qed.

Lemma read_role_mask_last (n : string) (o : option BMap) :
  read_role decode (optional (mask_to_hdulist n) o) n
  = Ok (option_map (read_mask n) o).
Proof.
  rewrite <- (app_nil_r (optional (mask_to_hdulist n) o)).
  now apply read_role_mask.
Qed.

(** A role map as the claim expects it back: same geometry, data and unit. *)
Definition stored (m : FMap) : Image :=
  mkImage (geom m) (FloatArray (data m)) (unit m).

Definition boolean (m : BMap) : Image :=
  mkImage (geom m) (BoolArray (data m)) (unit m).

(** The map of an IRF object. *)
Definition irf_map (o : option irf_obj) : option FMap :=
  match o with
  | Some (IrfPSFMap m) => Some m
  | Some (IrfEDispMap m) => Some m
  | Some (IrfEDispKernelMap m) => Some m
  | _ => None
  end.

(** The reader gives a float array back as it was written and keeps which
    elements of an integer array are zero. *)
Record faithful : Prop := {
  decode_float : forall n l, decode n (FloatArray l) = FloatArray l;
  decode_truth : forall n l, astype_bool (decode n (IntArray l)) = astype_bool (IntArray l)
}.

(** The exposure has a non-spatial axis and the first one is not named
    [energy], the name that [from_hdulist] replaces. *)
Definition exposure_axis_kept (o : option FMap) : Prop :=
  match o with
  | None => True
  | Some m =>
      match axes (geom m) with
      | [] => False
      | a :: _ => String.eqb (axis_name a) "energy" = false
      end
  end.

(** The IRFs are absent or of the classes that [__init__] accepts. *)
Definition irfs_typed (ds : MapDataset Evaluator) : Prop :=
  (psf ds = None \/ is_psf (psf ds) = true)
  /\ (edisp ds = None \/ is_edisp (edisp ds) = true).

Lemma astype_bool_mask (l : list bool) :
  astype_bool (IntArray (List.map (fun b : bool => if b then 1%Z else 0%Z) l))
  = BoolArray l.
Proof.
  simpl. f_equal. rewrite map_map.
  induction l as [|[|] l IH]; simpl; congruence.
Qed.

Lemma psf_hdus (o : option irf_obj) (hdus : list hdu) :
  o = None \/ is_psf o = true ->
  irf_to_hdulist o = Ok hdus ->
  hdus = optional (map_to_hdulist "PSF") (irf_map o).
Proof.
  intros [H|H] E; destruct o as [[m|m|m| |t]|]; simpl in *;
    try discriminate; now inversion E.
Qed.

Lemma edisp_hdus (o : option irf_obj) (hdus : list hdu) :
  o = None \/ is_edisp o = true ->
  irf_to_hdulist o = Ok hdus ->
  hdus = optional (map_to_hdulist "EDISP") (irf_map o).
Proof.
  intros [H|H] E; destruct o as [[m|m|m| |t]|]; simpl in *;
    try discriminate; now inversion E.
Qed.

Ltac absent :=
  rewrite ?contains_app;
  rewrite ?contains_optional_map, ?contains_optional_mask by foreign_names;
  reflexivity.

(** X1: what [MapDataset.to_hdulist] wrote, [MapDataset.from_hdulist]
    reads back role by role with the same geometry, data and unit, the masks
    as boolean arrays, provided the first axis of the exposure is not named
    [energy]. *)
Lemma mapdataset_round_trip (ds : MapDataset Evaluator) (hdulist : list hdu) :
  faithful ->
  irfs_typed ds ->
  exposure_axis_kept (exposure ds) ->
  to_hdulist ds = Ok hdulist ->
  from_hdulist decode hdulist
  = Ok (mkLoaded (option_map stored (counts ds))
                 (option_map stored (exposure ds))
                 (option_map stored (background ds))
                 (option_map stored (irf_map (edisp ds)))
                 (option_map stored (irf_map (psf ds)))
                 (option_map boolean (mask_safe ds))
                 (option_map boolean (mask_fit ds))
                 None None None).
Proof.
  intros [Hfloat Htruth] [Hpsf Hedisp] Hexp H.
  unfold to_hdulist, to_hdulist_with in H.
  destruct (irf_to_hdulist (edisp ds)) as [e|] eqn:He; simpl in H; try discriminate.
  destruct (irf_to_hdulist (psf ds)) as [q|] eqn:Hq; simpl in H; try discriminate.
  apply (edisp_hdus Hedisp) in He. apply (psf_hdus Hpsf) in Hq.
  inversion H; subst; clear H.
  unfold from_hdulist.
  rewrite !read_role_primary by reflexivity.
  rewrite (@read_role_map "COUNTS") by absent.
  rewrite (@read_role_skip "EXPOSURE") by absent.
  rewrite (@read_role_map "EXPOSURE") by absent.
  do 2 rewrite (@read_role_skip "BACKGROUND") by absent.
  rewrite (@read_role_map "BACKGROUND") by absent.
  do 3 rewrite (@read_role_skip "EDISP") by absent.
  rewrite (@read_role_map "EDISP") by absent.
  do 4 rewrite (@read_role_skip "PSF") by absent.
  rewrite (@read_role_map "PSF") by absent.
  do 5 rewrite (@read_role_skip "MASK_SAFE") by absent.
  rewrite (@read_role_mask "MASK_SAFE") by absent.
  do 6 rewrite (@read_role_skip "MASK_FIT") by absent.
  rewrite (@read_role_mask_last "MASK_FIT").
  cbn [bind].
  assert (Hmap : forall n o, option_map (read_map n) o = option_map stored o).
  { intros n [m|]; simpl; auto. unfold read_map, stored. now rewrite Hfloat. }
  assert (Hmask : forall n o,
             option_map cast_mask (option_map (read_mask n) o) = option_map boolean o).
  { intros n [m|]; simpl; auto. unfold cast_mask, read_mask, boolean. simpl im_data.
    now rewrite Htruth, astype_bool_mask. }
  rewrite !Hmap, !Hmask.
  destruct (exposure ds) as [m|]; simpl in *; auto.
  unfold rename_energy. simpl.
  destruct (axes (geom m)) as [|a rest]; [contradiction|].
  now rewrite Hexp.
Qed.

(** X2: whatever the HDU list holds and whatever dtype the reader gives the
    stored masks, [MapDataset.from_hdulist] returns [mask_safe] and
    [mask_fit] as boolean arrays. *)
Lemma from_hdulist_masks_boolean (hdulist : list hdu) (ld : Loaded) (m : Image) :
  from_hdulist decode hdulist = Ok ld ->
  ld_mask_safe ld = Some m \/ ld_mask_fit ld = Some m ->
  is_bool (im_data m) = true.
Proof.
  unfold from_hdulist. intros H Hm.
  repeat match type of H with
         | bind ?r _ = Ok _ => destruct r as [?|?]; cbn [bind] in H; try discriminate
         end.
  inversion H; subst; clear H. simpl in Hm.
  destruct Hm as [Hm|Hm];
    match type of Hm with
    | option_map _ ?o = _ => destruct o as [k|]; simpl in Hm; try discriminate
    end;
    inversion Hm; subst; simpl; now destruct (im_data k).
Qed.

(** [MapDatasetOnOff.from_hdulist] returns the masks as [Map.from_hdulist]
    read them, without a cast of its own. *)
Lemma onoff_from_hdulist_masks (hdulist : list hdu) (ld : Loaded) :
  onoff_from_hdulist decode hdulist = Ok ld ->
  read_role decode hdulist "MASK_SAFE" = Ok (ld_mask_safe ld)
  /\ read_role decode hdulist "MASK_FIT" = Ok (ld_mask_fit ld).
Proof.
  unfold onoff_from_hdulist. intros H.
  repeat match type of H with
         | bind ?r _ = Ok _ => destruct r as [?|?]; cbn [bind] in H; try discriminate
         end.
  inversion H; subst; clear H. simpl. auto.
Qed.

(** What [MapDataset.from_hdulist] makes of the HDUs that [to_hdulist]
    wrote, up to the renaming of the exposure axis. *)
Lemma from_hdulist_to_hdulist (ds : MapDataset Evaluator) (hdulist : list hdu) :
  irfs_typed ds ->
  to_hdulist ds = Ok hdulist ->
  from_hdulist decode hdulist
  = (do exposure' <- match option_map (read_map "EXPOSURE") (exposure ds) with
                     | Some m => do m' <- rename_energy m; Ok (Some m')
                     | None => Ok None
                     end;
     Ok (mkLoaded (option_map (read_map "COUNTS") (counts ds))
                  exposure'
                  (option_map (read_map "BACKGROUND") (background ds))
                  (option_map (read_map "EDISP") (irf_map (edisp ds)))
                  (option_map (read_map "PSF") (irf_map (psf ds)))
                  (option_map cast_mask (option_map (read_mask "MASK_SAFE") (mask_safe ds)))
                  (option_map cast_mask (option_map (read_mask "MASK_FIT") (mask_fit ds)))
                  None None None)).
Proof.
  intros [Hpsf Hedisp] H.
  unfold to_hdulist, to_hdulist_with in H.
  destruct (irf_to_hdulist (edisp ds)) as [e|] eqn:He; simpl in H; try discriminate.
  destruct (irf_to_hdulist (psf ds)) as [q|] eqn:Hq; simpl in H; try discriminate.
  apply (edisp_hdus Hedisp) in He. apply (psf_hdus Hpsf) in Hq.
  inversion H; subst; clear H.
  unfold from_hdulist.
  rewrite !read_role_primary by reflexivity.
  rewrite (@read_role_map "COUNTS") by absent.
  rewrite (@read_role_skip "EXPOSURE") by absent.
  rewrite (@read_role_map "EXPOSURE") by absent.
  do 2 rewrite (@read_role_skip "BACKGROUND") by absent.
  rewrite (@read_role_map "BACKGROUND") by absent.
  do 3 rewrite (@read_role_skip "EDISP") by absent.
  rewrite (@read_role_map "EDISP") by absent.
  do 4 rewrite (@read_role_skip "PSF") by absent.
  rewrite (@read_role_map "PSF") by absent.
  do 5 rewrite (@read_role_skip "MASK_SAFE") by absent.
  rewrite (@read_role_mask "MASK_SAFE") by absent.
  do 6 rewrite (@read_role_skip "MASK_FIT") by absent.
  rewrite (@read_role_mask_last "MASK_FIT").
  reflexivity.
Qed.

(** X3: [MapDataset.from_hdulist] renames the first axis of the exposure
    when that axis is named [energy]: a dataset whose exposure is stored on
    such a geometry is read back with the exposure on the axis
    [energy_true], bins and data unchanged, so the geometry of the exposure
    is not the one that was written. *)
Lemma from_hdulist_renames_exposure_axis
      (ds : MapDataset Evaluator) (hdulist : list hdu) (m : FMap) (a : MapAxis)
      (rest : list MapAxis) :
  faithful ->
  irfs_typed ds ->
  exposure ds = Some m ->
  axes (geom m) = a :: rest ->
  axis_name a = "energy" ->
  to_hdulist ds = Ok hdulist ->
  exists ld,
    from_hdulist decode hdulist = Ok ld
    /\ ld_exposure ld
       = Some (mkImage (mkGeom (npix (geom m))
                               (mkAxis "energy_true" (nbin a) (labels a) :: rest))
                       (FloatArray (data m)) (unit m))
    /\ geom_eqb (im_geom (stored m))
                (mkGeom (npix (geom m)) (mkAxis "energy_true" (nbin a) (labels a) :: rest))
       = false.
Proof.
  intros [Hfloat Htruth] Htyped Hm Ha Hname H.
  rewrite (from_hdulist_to_hdulist Htyped H), Hm. cbn [option_map].
  unfold rename_energy, read_map. cbn [im_geom im_data im_unit].
  rewrite Ha, Hname, Hfloat. cbn [bind String.eqb Ascii.eqb Bool.eqb andb].
  eexists. split; [reflexivity|]. split; [reflexivity|].
  unfold stored, geom_eqb. cbn [im_geom axes npix]. rewrite Ha. cbn [axes_eqb].
  unfold axis_eqb at 1. cbn [axis_name]. rewrite Hname.
  now rewrite andb_false_r.
Qed.

Lemma delete_skip (n : string) (l1 l2 : list hdu) :
  contains n l1 = false ->
  delete n (l1 ++ l2) = (do rest <- delete n l2; Ok (l1 ++ rest)).
Proof.
  induction l1 as [|h l1 IH]; simpl; intros H.
  - now destruct (delete n l2).
  - apply orb_false_elim in H as [Hh Hl]. rewrite Hh, (IH Hl).
    now destruct (delete n l2).
Qed.

Lemma read_role_map_last (n : string) (o : option FMap) :
  read_role decode (optional (map_to_hdulist n) o) n
  = Ok (option_map (read_map n) o).
Proof.
  rewrite <- (app_nil_r (optional (map_to_hdulist n) o)).
  now apply read_role_map.
Qed.

Lemma delete_middle (n : string) (l1 l2 : list hdu) (h : hdu) :
  contains n l1 = false ->
  name_of h = n ->
  delete n (l1 ++ h :: l2) = Ok (l1 ++ l2).
Proof.
  intros H1 Hh. rewrite (@delete_skip n l1 _ H1). simpl.
  now rewrite Hh, String.eqb_refl.
Qed.

(** The map has a non-spatial axis, hence a [_BANDS] HDU. *)
Definition has_axes (m : FMap) : Prop := axes (geom m) <> [].

Lemma map_to_hdulist_bands (n : string) (m : FMap) :
  has_axes m ->
  map_to_hdulist n m
  = [ImageHDU n (stored m); BandsHDU (n ++ "_BANDS") (axes (geom m))].
Proof.
  unfold has_axes, map_to_hdulist, image_hdus, stored. intros H.
  destruct (axes (geom m)); congruence.
Qed.

(** X4: an on/off dataset with off counts, on a geometry with a non-spatial
    axis, is written without a [BACKGROUND] HDU, and
    [MapDatasetOnOff.from_hdulist] reads the counts, the off counts, both
    acceptances and the exposure back with the same geometry, data and unit;
    the exposure axis is not renamed and the masks are returned as the reader
    decoded them, without a cast. *)
Lemma onoff_round_trip (ds : MapDatasetOnOff Evaluator) (off bkg : FMap)
      (written : list hdu) :
  faithful ->
  irfs_typed (base ds) ->
  counts_off ds = Some off ->
  onoff_background ds = Ok (Some bkg) ->
  has_axes bkg ->
  to_hdulist_with (Some bkg) (base ds) = Ok written ->
  exists hdulist,
    onoff_to_hdulist ds = Ok hdulist
    /\ contains "BACKGROUND" hdulist = false
    /\ onoff_from_hdulist decode hdulist
       = Ok (mkLoaded (option_map stored (counts (base ds)))
                      (option_map stored (exposure (base ds)))
                      None
                      (option_map stored (irf_map (edisp (base ds))))
                      (option_map stored (irf_map (psf (base ds))))
                      (option_map (read_mask "MASK_SAFE") (mask_safe (base ds)))
                      (option_map (read_mask "MASK_FIT") (mask_fit (base ds)))
                      (Some (stored off))
                      (option_map stored (acceptance ds))
                      (option_map stored (acceptance_off ds))).
Proof.
  intros [Hfloat Htruth] [Hpsf Hedisp] Hoff Hbkg Haxes Hwritten.
  unfold onoff_to_hdulist. rewrite Hbkg. cbn [bind]. rewrite Hwritten. cbn [bind].
  unfold to_hdulist_with in Hwritten.
  destruct (irf_to_hdulist (edisp (base ds))) as [e|] eqn:He; [|discriminate].
  destruct (irf_to_hdulist (psf (base ds))) as [q|] eqn:Hq; [|discriminate].
  apply (edisp_hdus Hedisp) in He. apply (psf_hdus Hpsf) in Hq. subst e q.
  cbn [bind optional] in Hwritten.
  rewrite (map_to_hdulist_bands "BACKGROUND" Haxes) in Hwritten.
  set (C := optional (map_to_hdulist "COUNTS") (counts (base ds))) in *.
  set (E := optional (map_to_hdulist "EXPOSURE") (exposure (base ds))) in *.
  set (tail := optional (map_to_hdulist "EDISP") (irf_map (edisp (base ds)))
               ++ optional (map_to_hdulist "PSF") (irf_map (psf (base ds)))
               ++ optional (mask_to_hdulist "MASK_SAFE") (mask_safe (base ds))
               ++ optional (mask_to_hdulist "MASK_FIT") (mask_fit (base ds))) in *.
  assert (Hshape : written
                   = (PrimaryHDU :: C ++ E)
                       ++ ImageHDU "BACKGROUND" (stored bkg)
                       :: BandsHDU "BACKGROUND_BANDS" (axes (geom bkg)) :: tail).
  { inversion Hwritten. cbn [app]. now rewrite <- app_assoc. }
  clear Hwritten. subst written.
  assert (Hb : contains "BACKGROUND" (PrimaryHDU :: C ++ E) = false).
  { subst C E.
    change (contains "BACKGROUND" (PrimaryHDU :: ?l)) with (contains "BACKGROUND" l).
    absent. }
  assert (Hbb : contains "BACKGROUND_BANDS" (PrimaryHDU :: C ++ E) = false).
  { subst C E.
    change (contains "BACKGROUND_BANDS" (PrimaryHDU :: ?l))
      with (contains "BACKGROUND_BANDS" l).
    absent. }
  rewrite (@delete_middle _ _ _ _ Hb) by reflexivity. cbn [bind].
  rewrite (@delete_middle _ _ _ _ Hbb) by reflexivity. cbn [bind].
  eexists. split; [reflexivity|]. split.
  - rewrite !contains_app, Hb. subst tail. cbn [orb]. absent.
  - subst C E tail. cbn [app]. rewrite <- !app_assoc.
    unfold onoff_from_hdulist.
    rewrite !read_role_primary by reflexivity.
    rewrite (@read_role_map "COUNTS") by absent.
    do 6 rewrite (@read_role_skip "COUNTS_OFF") by absent.
    rewrite (@read_role_map "COUNTS_OFF") by absent.
    do 7 rewrite (@read_role_skip "ACCEPTANCE") by absent.
    rewrite (@read_role_map "ACCEPTANCE") by absent.
    do 8 rewrite (@read_role_skip "ACCEPTANCE_OFF") by absent.
    rewrite (@read_role_map_last "ACCEPTANCE_OFF").
    rewrite (@read_role_skip "EXPOSURE") by absent.
    rewrite (@read_role_map "EXPOSURE") by absent.
    do 2 rewrite (@read_role_skip "EDISP") by absent.
    rewrite (@read_role_map "EDISP") by absent.
    do 3 rewrite (@read_role_skip "PSF") by absent.
    rewrite (@read_role_map "PSF") by absent.
    do 4 rewrite (@read_role_skip "MASK_SAFE") by absent.
    rewrite (@read_role_mask "MASK_SAFE") by absent.
    do 5 rewrite (@read_role_skip "MASK_FIT") by absent.
    rewrite (@read_role_mask "MASK_FIT") by absent.
    cbn [bind].
    assert (Hmap : forall n o, option_map (read_map n) o = option_map stored o).
    { intros n [m|]; simpl; auto. unfold read_map, stored. now rewrite Hfloat. }
    rewrite !Hmap, Hoff. reflexivity.
Qed.

End ReadingBack.

(** C7 (the writer of on/off datasets): the claim promises that every
    dataset, on/off ones included, can be written and read back.  An on/off
    dataset without off counts has no background ([background] is [None]
    there), so the writer of the base class stores no [BACKGROUND] HDU; the
    on/off writer deletes that HDU all the same and raises [KeyError] before
    it stores any of the on/off maps.  The writer of the base class returns
    its HDUs for the same maps. *)
Theorem onoff_write_without_counts_off
        (ds : MapDatasetOnOff Evaluator) (hdulist : list hdu) :
  counts_off ds = None ->
  to_hdulist_with None (base ds) = Ok hdulist ->
  onoff_to_hdulist ds = Raise KeyError.
Proof.
  intros Hoff Hbase. unfold onoff_to_hdulist, onoff_background.
  rewrite Hoff. cbn [bind]. rewrite Hbase. cbn [bind].
  now rewrite (delete_missing _ _ (no_background_hdu _ Hbase)).
Qed.

End Persistence.

Module WriteRun.

(** An on/off dataset with counts, acceptances and a safe mask, without off
    counts. *)
Definition on_only : MapDatasetOnOff Example.ToyEvaluator :=
  mkOnOff (OnOffRun.wstat (Example.fmap2 5 7) (Example.bmap2 true false))
          None (Some (Example.fmap2 1 1)) (Some (Example.fmap2 2 2)).

(** The same maps in a [MapDataset] are written and read back. *)
Example base_round_trip :
  match IO.to_hdulist (base on_only) with
  | Ok hdulist => IO.from_hdulist (fun _ a => a) hdulist
  | Raise e => Raise e
  end
  = Ok (IO.mkLoaded (Some (stored (Example.fmap2 5 7))) None None None None
                    (Some (boolean (Example.bmap2 true false))) None None None None).
Proof. vm_compute. reflexivity. Qed.

(** With off counts the on/off writer returns its HDUs. *)
Example with_counts_off :
  is_ok (IO.onoff_to_hdulist OnOffRun.observation) = true.
Proof. vm_compute. reflexivity. Qed.

End WriteRun.

Lemma onoff_write_without_counts_off_witness :
  counts_off WriteRun.on_only = None
  /\ is_ok (IO.to_hdulist_with None (base WriteRun.on_only)) = true
  /\ IO.onoff_to_hdulist WriteRun.on_only = Raise KeyError.
Proof.
  split; [reflexivity|]. split; [reflexivity|].
  eapply onoff_write_without_counts_off; reflexivity.
Defined.

(** *** Runs of writing and reading back *)

Module ReadRun.

Import IO.

(** The exposure of an observation, on the true energy axis. *)
Definition exposure_geom : Geom := mkGeom (1, 1) [mkAxis "energy_true" 2 []].

Definition observed : MapDataset Example.ToyEvaluator :=
  mkDataset "obs" (Some (Example.fmap2 5 7))
            (Some (mkMap exposure_geom [100%float; 200%float] "m2 s"))
            (Some (Example.fmap2 1 2)) None None
            (Some (Example.bmap2 true false)) (Some (Example.bmap2 true true))
            None None None [] Cash.

(** A dataset whose exposure is on the axis of the counts, named [energy]. *)
Definition reco_exposure : MapDataset Example.ToyEvaluator :=
  mkDataset "obs" (Some (Example.fmap2 5 7)) (Some (Example.fmap2 100 200))
            None None None (Some (Example.bmap2 true false)) None
            None None None [] Cash.

(** A reader that returns the arrays as they are stored. *)
Definition as_stored (_ : string) (a : ndarray) : ndarray := a.

(** A reader that returns every array as a float array. *)
Definition as_float (_ : string) (a : ndarray) : ndarray :=
  match a with
  | IntArray l => FloatArray (List.map (fun k => if Z.eqb k 0 then 0%float else 1%float) l)
  | BoolArray l => FloatArray (List.map Np.of_bool l)
  | FloatArray l => FloatArray l
  end.

Lemma as_stored_faithful : faithful as_stored.
Proof. split; reflexivity. Qed.

Lemma as_float_faithful : faithful as_float.
Proof.
  split; [reflexivity|].
  intros n l. simpl. f_equal. rewrite map_map. apply map_ext.
  intros k. now destruct (Z.eqb k 0).
Qed.

(** The HDUs of [observed] and what is read back from them when the reader
    returns float arrays. *)
Definition written : list hdu :=
  Eval vm_compute in
    match to_hdulist observed with
    | Ok hdulist => hdulist
    | Raise _ => []
    end.

Definition loaded : result Loaded := Eval vm_compute in from_hdulist as_float written.

Definition written_reco : list hdu :=
  Eval vm_compute in
    match to_hdulist reco_exposure with
    | Ok hdulist => hdulist
    | Raise _ => []
    end.

(** The background of the on/off observation, [alpha * counts_off], and the
    HDUs that the writer of the base class returns for it. *)
Definition observation_background : FMap :=
  mkMap Example.geom2 [1%float; 0.75%float] EmptyString.

Definition written_base : list hdu :=
  Eval vm_compute in
    match to_hdulist_with (Some observation_background) (base OnOffRun.observation) with
    | Ok hdulist => hdulist
    | Raise _ => []
    end.

End ReadRun.

Lemma mapdataset_round_trip_witness :
  exists hdulist,
    IO.to_hdulist ReadRun.observed = Ok hdulist
    /\ IO.from_hdulist ReadRun.as_float hdulist
       = Ok (IO.mkLoaded (Some (stored (Example.fmap2 5 7)))
                         (Some (stored (mkMap ReadRun.exposure_geom [100%float; 200%float]
                                              "m2 s")))
                         (Some (stored (Example.fmap2 1 2))) None None
                         (Some (boolean (Example.bmap2 true false)))
                         (Some (boolean (Example.bmap2 true true)))
                         None None None).
Proof.
  eexists. split; [reflexivity|].
  apply (@mapdataset_round_trip Example.ToyEvaluator ReadRun.as_float ReadRun.observed).
  - exact ReadRun.as_float_faithful.
  - split; left; reflexivity.
  - reflexivity.
  - reflexivity.
Defined.

Lemma from_hdulist_masks_boolean_witness :
  exists ld m,
    IO.to_hdulist ReadRun.observed = Ok ReadRun.written
    /\ IO.from_hdulist ReadRun.as_float ReadRun.written = Ok ld
    /\ IO.ld_mask_safe ld = Some m
    /\ IO.is_bool (IO.im_data m) = true.
Proof.
  destruct ReadRun.loaded as [ld|e] eqn:Hld; [|discriminate].
  assert (Hread : IO.from_hdulist ReadRun.as_float ReadRun.written = Ok ld)
    by (rewrite <- Hld; vm_compute; reflexivity).
  inversion Hld as [E]. subst ld.
  eexists. eexists.
  split; [reflexivity|]. split; [exact Hread|]. split; [reflexivity|].
  apply (@from_hdulist_masks_boolean ReadRun.as_float ReadRun.written _ _ Hread).
  left. reflexivity.
Defined.

Lemma from_hdulist_renames_exposure_axis_witness :
  exists hdulist ld,
    IO.to_hdulist ReadRun.reco_exposure = Ok hdulist
    /\ IO.from_hdulist ReadRun.as_stored hdulist = Ok ld
    /\ IO.ld_exposure ld
       = Some (IO.mkImage (mkGeom (1, 1) [mkAxis "energy_true" 2 []])
                          (IO.FloatArray [100%float; 200%float]) EmptyString).
Proof.
  eexists.
  destruct (@from_hdulist_renames_exposure_axis Example.ToyEvaluator ReadRun.as_stored
              ReadRun.reco_exposure ReadRun.written_reco (Example.fmap2 100 200)
              Example.energy_axis []
              ReadRun.as_stored_faithful)
    as (ld & Hld & Hexp & _); try reflexivity.
  - split; left; reflexivity.
  - exists ld. split; [reflexivity|]. split; [exact Hld | exact Hexp].
Defined.

Lemma onoff_round_trip_witness :
  exists hdulist ld,
    IO.onoff_to_hdulist OnOffRun.observation = Ok hdulist
    /\ IO.contains "BACKGROUND" hdulist = false
    /\ IO.onoff_from_hdulist ReadRun.as_stored hdulist = Ok ld
    /\ IO.ld_counts_off ld = Some (stored (Example.fmap2 4 3))
    /\ IO.ld_acceptance_off ld = Some (stored (Example.fmap2 4 4)).
Proof.
  destruct (@onoff_round_trip Example.ToyEvaluator ReadRun.as_stored OnOffRun.observation
              (Example.fmap2 4 3) ReadRun.observation_background ReadRun.written_base
              ReadRun.as_stored_faithful)
    as (hdulist & Hw & Hb & Hr); try reflexivity.
  - split; left; reflexivity.
  - discriminate.
  - exists hdulist. eexists. repeat split; [exact Hw | exact Hb | exact Hr | |]; reflexivity.
Defined.

(** * Further properties of the datasets *)

(** ** Non-finite values *)

Module FiniteFacts.

Lemma Prim2SF_neg_infinity : Prim2SF neg_infinity = S754_infinity true.
Proof. reflexivity. Qed.

Lemma isfinite_not_nan (x : float) : Np.isfinite x = true -> Np.isnan x = false.
Proof.
  intros H. unfold Np.isnan. rewrite eqb_spec. unfold SFeqb.
  destruct (FloatFacts.isfinite_spec H) as [(s & ->)|(s & m & e & ->)].
  - reflexivity.
  - now rewrite FloatFacts.SFcompare_refl.
Qed.

Lemma isfinite_not_infinity (x : float) :
  Np.isfinite x = true ->
  PrimFloat.eqb x infinity = false /\ PrimFloat.eqb x neg_infinity = false.
Proof.
  intros H. rewrite !eqb_spec, FloatFacts.Prim2SF_infinity, Prim2SF_neg_infinity.
  destruct (FloatFacts.isfinite_spec H) as [(s & ->)|(s & m & e & ->)].
  - split; reflexivity.
  - split; destruct s; reflexivity.
Qed.

(** [np.nan_to_num] returns a finite number, whatever it is given. *)
Lemma nan_to_num_finite (x : float) : Np.isfinite (Np.nan_to_num x) = true.
Proof.
  unfold Np.nan_to_num.
  destruct (Np.isnan x) eqn:Hnan; [reflexivity|].
  destruct (PrimFloat.eqb x infinity) eqn:Hinf; [reflexivity|].
  destruct (PrimFloat.eqb x neg_infinity) eqn:Hninf; [reflexivity|].
  unfold Np.isnan in Hnan.
  rewrite eqb_spec in Hnan, Hinf, Hninf.
  rewrite FloatFacts.Prim2SF_infinity in Hinf. rewrite Prim2SF_neg_infinity in Hninf.
  unfold Np.isfinite. rewrite ltb_spec, abs_spec, FloatFacts.Prim2SF_infinity.
  destruct (Prim2SF x) as [s|s| |s m e]; try reflexivity.
  - destruct s; discriminate.
  - discriminate.
Qed.

(** [np.nan_to_num] leaves a finite number as it is. *)
Lemma nan_to_num_id (x : float) : Np.isfinite x = true -> Np.nan_to_num x = x.
Proof.
  intros H. unfold Np.nan_to_num.
  rewrite (isfinite_not_nan H).
  destruct (isfinite_not_infinity H) as [-> ->]. reflexivity.
Qed.

(** A number equal to zero is one of the two zeros. *)
Lemma eqb_zero_spec (x : float) :
  PrimFloat.eqb x 0%float = true -> exists s, Prim2SF x = S754_zero s.
Proof.
  rewrite eqb_spec, FloatFacts.Prim2SF_zero. unfold SFeqb.
  destruct (Prim2SF x) as [s|s| |s m e]; simpl; try discriminate; eauto.
  - destruct s; discriminate.
  - destruct s; discriminate.
Qed.

(** Zero divided by zero is the NaN. *)
Lemma div_zero_zero (x y : float) :
  PrimFloat.eqb x 0%float = true -> PrimFloat.eqb y 0%float = true ->
  Np.isnan (PrimFloat.div x y) = true.
Proof.
  intros Hx Hy. destruct (eqb_zero_spec Hx) as (s & Ex), (eqb_zero_spec Hy) as (t & Ey).
  unfold Np.isnan. rewrite eqb_spec, div_spec, Ex, Ey. reflexivity.
Qed.

(** A finite number that is not below zero is at least zero. *)
Lemma not_negative_leb (x : float) :
  Np.isfinite x = true -> PrimFloat.ltb x 0%float = false -> PrimFloat.leb 0%float x = true.
Proof.
  intros Hf Hlt. apply FloatFacts.not_ltb_leb; auto.
  now apply isfinite_not_nan.
Qed.

End FiniteFacts.

(** ** The exposure ratio of an on/off dataset *)

Section AlphaProperties.

Variable Evaluator : Type.

Lemma onoff_geom_acceptance (ds : MapDatasetOnOff Evaluator) (a : FMap) :
  acceptance ds = Some a -> exists g, onoff_geom ds = Ok g.
Proof.
  intros Ha. unfold onoff_geom. rewrite Ha.
  destruct (counts (base ds)), (counts_off ds); eauto.
Qed.

(** X5: [MapDatasetOnOff.alpha] is a map of finite numbers whenever both
    acceptances are set: a bin holds [acceptance / acceptance_off] when that
    quotient is finite, and [0] when both acceptances are zero; a division by
    zero never leaves an infinity or a NaN in the map. *)
Theorem alpha_is_finite (ds : MapDatasetOnOff Evaluator) (a a_off : FMap) :
  acceptance ds = Some a ->
  acceptance_off ds = Some a_off ->
  length (data a) = length (data a_off) ->
  exists m,
    alpha ds = Ok m
    /\ onoff_geom ds = Ok (geom m)
    /\ length (data m) = length (data a)
    /\ forall i, i < length (data a) ->
         let x := nth i (data a) 0%float in
         let y := nth i (data a_off) 0%float in
         let q := PrimFloat.div x y in
         Np.isfinite (nth i (data m) 0%float) = true
         /\ (Np.isfinite q = true -> nth i (data m) 0%float = q)
         /\ (PrimFloat.eqb x 0%float = true -> PrimFloat.eqb y 0%float = true ->
             nth i (data m) 0%float = 0%float).
Proof.
  intros Ha Hoff Hlen. unfold alpha. rewrite Ha, Hoff.
  destruct (onoff_geom_acceptance ds Ha) as (g & Hg). rewrite Hg. cbn [bind].
  eexists. split; [reflexivity|]. cbn [geom data]. split; [reflexivity|].
  assert (Hdiv : length (Np.div (data a) (data a_off)) = length (data a)).
  { unfold Np.div. now apply Np.zip_with_length. }
  split; [now rewrite length_map|].
  intros i Hi. cbv zeta.
  assert (Hnth : nth i (List.map Np.nan_to_num (Np.div (data a) (data a_off))) 0%float
                 = Np.nan_to_num (PrimFloat.div (nth i (data a) 0%float)
                                                (nth i (data a_off) 0%float))).
  { change 0%float with (Np.nan_to_num 0%float) at 1.
    rewrite map_nth. unfold Np.div.
    now rewrite (@Np.zip_with_nth _ _ _ _ _ _ i 0%float 0%float) by congruence. }
  rewrite Hnth.
  split; [apply FiniteFacts.nan_to_num_finite|]. split.
  - apply FiniteFacts.nan_to_num_id.
  - intros Hx Hy. unfold Np.nan_to_num.
    now rewrite (FiniteFacts.div_zero_zero Hx Hy).
Qed.

End AlphaProperties.

Module AlphaRun.

(** Acceptance 1 over acceptance_off 4 in the first bin, 0 over 0 in
    the second and 1 over 0 in the third. *)
Definition geom3 : Geom := mkGeom (1, 1) [mkAxis "energy" 3 []].

Definition dataset : MapDatasetOnOff Example.ToyEvaluator :=
  mkOnOff (OnOffRun.wstat (mkMap geom3 [2%float; 0%float; 1%float] EmptyString)
                          (mkMap geom3 [true; true; true] EmptyString))
          None
          (Some (mkMap geom3 [1%float; 0%float; 1%float] EmptyString))
          (Some (mkMap geom3 [4%float; 0%float; 0%float] EmptyString)).

Example alpha_values :
  option_map (@data float) (match alpha dataset with Ok m => Some m | Raise _ => None end)
  = Some [0.25%float; 0%float; Np.float_max].
Proof. reflexivity. Qed.

End AlphaRun.

Lemma alpha_is_finite_witness :
  exists m,
    alpha AlphaRun.dataset = Ok m
    /\ Np.isfinite (nth 2 (data m) 0%float) = true
    /\ nth 1 (data m) 0%float = 0%float.
Proof.
  destruct (@alpha_is_finite Example.ToyEvaluator AlphaRun.dataset
              (mkMap AlphaRun.geom3 [1%float; 0%float; 1%float] EmptyString)
              (mkMap AlphaRun.geom3 [4%float; 0%float; 0%float] EmptyString)
              eq_refl eq_refl eq_refl)
    as (m & Hm & _ & _ & Hbins).
  exists m. split; [exact Hm|]. split.
  - apply (Hbins 2). simpl. lia.
  - apply (Hbins 1); [simpl; lia | reflexivity | reflexivity].
Defined.

(** ** Asimov datasets *)

Section Asimov.

Variable Evaluator : Type.
Variable needs_update : Evaluator -> bool.
Variable update : Evaluator -> UpdateArgs -> Evaluator.
Variable contributes : Evaluator -> bool.
Variable compute_npred : Evaluator -> FMap * Evaluator.
Variable reset_cache_properties : Evaluator -> Evaluator.
Variable evaluate_geom : list float -> Geom -> list float.
Variable USE_NPRED_CACHE : bool.

Abbreviation npred_of :=
  (npred needs_update update contributes compute_npred reset_cache_properties
         evaluate_geom USE_NPRED_CACHE).

(** [MapDataset._to_asimov_dataset]: the Asimov dataset and the dataset
    [self] as the call leaves it.  The counts are the predicted counts with
    [np.nan_to_num(npred.data, nan=0.0, posinf=0.0, neginf=0.0)]; the
    constructor checks the type of [psf] and [edisp], starts with an empty
    background cache and takes the default statistic; the evaluators it
    builds are replaced by those of [self]. *)
Definition _to_asimov_dataset (ds : MapDataset Evaluator)
  : result (MapDataset Evaluator * MapDataset Evaluator) :=
  do r <- npred_of ds;
  let '(npred, ds1) := r in
  let counts := mkMap (geom npred) (List.map Np.nan_to_num_zero (data npred))
                      (unit npred) in
  if truthy (psf ds1) && negb (is_psf (psf ds1)) then Raise ValueError
  else if truthy (edisp ds1) && negb (is_edisp (edisp ds1)) then Raise ValueError
  else
    Ok (mkDataset (name ds1) (Some counts) (exposure ds1) (background ds1)
                  (psf ds1) (edisp ds1) (mask_safe ds1) (mask_fit ds1)
                  (background_model ds1) None None (evaluators ds1) Cash,
        ds1).

(** The predicted counts are clipped values. *)
Lemma npred_clipped (ds ds' : MapDataset Evaluator) (m : FMap) :
  npred_of ds = Ok (m, ds') -> exists l, data m = List.map clip_negative l.
Proof.
  unfold npred. intros H.
  destruct (npred_signal _ _ _ _ _ _ _ _ _) as [[sig ds1]|]; cbn [bind] in H;
    [|discriminate].
  match type of H with
  | bind ?r _ = _ => destruct r as [[total ds2]|]; cbn [bind] in H; [|discriminate]
  end.
  inversion H; subst. eexists. reflexivity.
Qed.

Lemma clip_negative_finite_not_negative (x : float) :
  let y := Np.nan_to_num_zero (clip_negative x) in
  Np.isfinite y = true /\ PrimFloat.leb 0%float y = true.
Proof.
  cbv zeta. unfold Np.nan_to_num_zero. split.
  - apply FloatFacts.zero_not_finite_finite.
  - unfold Np.zero_not_finite.
    destruct (Np.isfinite (clip_negative x)) eqn:Hf; [|reflexivity].
    unfold clip_negative in *.
    destruct (PrimFloat.ltb x 0%float) eqn:Hlt; [reflexivity|].
    now apply FiniteFacts.not_negative_leb.
Qed.

(** X6: when [npred] returns and the IRFs are of the accepted classes,
    [_to_asimov_dataset] returns a dataset whose counts are the predicted
    counts with every non-finite value replaced by zero: each bin is a finite
    number that is at least zero.  The other maps are those of the dataset
    after the call, and the evaluators are shared with it. *)
Theorem asimov_counts_finite (ds ds1 : MapDataset Evaluator) (m : FMap) :
  npred_of ds = Ok (m, ds1) ->
  (truthy (psf ds1) && negb (is_psf (psf ds1))) = false ->
  (truthy (edisp ds1) && negb (is_edisp (edisp ds1))) = false ->
  exists asimov c,
    _to_asimov_dataset ds = Ok (asimov, ds1)
    /\ counts asimov = Some c
    /\ geom c = geom m
    /\ data c = List.map Np.nan_to_num_zero (data m)
    /\ Forall (fun x => Np.isfinite x = true /\ PrimFloat.leb 0%float x = true) (data c)
    /\ exposure asimov = exposure ds1 /\ background asimov = background ds1
    /\ mask_safe asimov = mask_safe ds1 /\ mask_fit asimov = mask_fit ds1
    /\ evaluators asimov = evaluators ds1.
Proof.
  intros Hn Hpsf Hedisp. unfold _to_asimov_dataset. rewrite Hn. cbn [bind].
  rewrite Hpsf, Hedisp.
  eexists. eexists. split; [reflexivity|]. cbn.
  split; [reflexivity|]. split; [reflexivity|]. split; [reflexivity|].
  split; [|repeat split].
  destruct (@npred_clipped _ _ _ Hn) as (l & ->).
  rewrite map_map. apply Forall_forall. intros y Hy.
  apply in_map_iff in Hy as (x & <- & _).
  apply clip_negative_finite_not_negative.
Qed.

End Asimov.

Module AsimovRun.

Abbreviation _to_asimov_dataset :=
  (_to_asimov_dataset Example.stale Example.toy_update Example.overlaps Example.toy_compute
                      Example.toy_reset Example.norm_evaluate_geom true).

(** A source that predicts an infinite number of counts in the first bin and
    4 counts in the second. *)
Definition dataset : MapDataset Example.ToyEvaluator :=
  Example.dataset None None [("src", Example.mkToy true true (Example.fmap2 infinity 4))].

Definition predicted : FMap * MapDataset Example.ToyEvaluator :=
  Eval vm_compute in
    match Run.npred dataset with
    | Ok r => r
    | Raise _ => (MapOps.from_geom Example.geom2 EmptyString, dataset)
    end.

End AsimovRun.

Lemma asimov_counts_finite_witness :
  exists asimov c,
    AsimovRun._to_asimov_dataset AsimovRun.dataset = Ok (asimov, snd AsimovRun.predicted)
    /\ counts asimov = Some c
    /\ data c = [0%float; 4%float]
    /\ Forall (fun x => Np.isfinite x = true /\ PrimFloat.leb 0%float x = true) (data c).
Proof.
  destruct (@asimov_counts_finite _ Example.stale Example.toy_update Example.overlaps
              Example.toy_compute Example.toy_reset Example.norm_evaluate_geom true
              AsimovRun.dataset (snd AsimovRun.predicted) (fst AsimovRun.predicted))
    as (asimov & c & Hrun & Hc & _ & Hdata & Hall & _);
    [vm_compute; reflexivity | reflexivity | reflexivity |].
  exists asimov, c. split; [exact Hrun|]. split; [exact Hc|]. split; [exact Hdata|exact Hall].
Defined.

(** ** Multiplying by one and adding to zero *)

Module UnitFacts.

Import IntegerFloats.

Local Open Scope Z_scope.

Ltac format_lia :=
  change (SpecFloat.emin prec emax) with (-1074) in *;
  change prec with 53 in *; change emax with 1024 in *; lia.

(** The mantissa [m] with the exponent [e] is that of a binary64 number. *)
Definition canonical (m : positive) (e : Z) : Prop :=
  fexp prec emax (digits m + e) = e.

Lemma shr_fexp_canonical (m : positive) (k : nat) (e : Z) :
  canonical m e ->
  shr_fexp prec emax (Zpos (shl m k)) (e - Z.of_nat k) loc_Exact = (exact_record m, e).
Proof.
  intros Hc. unfold shr_fexp. simpl Zdigits2.
  change (Zpos (digits2_pos (shl m k))) with (digits (shl m k)).
  rewrite digits_shl.
  replace (digits m + Z.of_nat k + (e - Z.of_nat k)) with (digits m + e) by lia.
  rewrite Hc.
  replace (e - (e - Z.of_nat k)) with (Z.of_nat k) by lia.
  simpl shr_record_of_loc. fold (exact_record (shl m k)).
  destruct k as [|k].
  - simpl. f_equal. lia.
  - unfold shr. destruct (Z.of_nat (S k)) as [|p|p] eqn:Hp; try lia.
    rewrite iter_pos_nat. assert (Hk : Pos.to_nat p = S k) by lia.
    rewrite Hk, shr_1_exact. f_equal. lia.
Qed.

(** Rounding the mantissa of a binary64 number followed by [k] zero bits
    gives the number back. *)
Lemma binary_round_aux_canonical (s : bool) (m : positive) (k : nat) (e : Z) :
  canonical m e -> e <= emax - prec ->
  binary_round_aux prec emax s (Zpos (shl m k)) (e - Z.of_nat k) loc_Exact
  = S754_finite s m e.
Proof.
  intros Hc He. unfold binary_round_aux.
  rewrite shr_fexp_canonical by exact Hc. simpl shr_m. simpl loc_of_shr_record.
  simpl round_nearest_even.
  change m with (shl m 0) at 1.
  replace e with (e - Z.of_nat 0) at 1 by (simpl; lia).
  rewrite shr_fexp_canonical by exact Hc.
  simpl shr_m.
  destruct (Z.leb_spec e (emax - prec)); auto. lia.
Qed.

Lemma valid_canonical (s : bool) (m : positive) (e : Z) :
  valid_binary (S754_finite s m e) = true -> canonical m e /\ e <= emax - prec.
Proof.
  unfold SpecFloat.valid_binary, bounded, canonical_mantissa, canonical. intros H.
  apply andb_prop in H as [H1 H2].
  apply Z.eqb_eq in H1. apply Z.leb_le in H2. split; auto.
Qed.

Lemma SFmul_one (x : spec_float) :
  valid_binary x = true -> SFmul prec emax x (Prim2SF 1%float) = x.
Proof.
  intros Hv. destruct x as [s|s| |s m e].
  - now destruct s.
  - now destruct s.
  - reflexivity.
  - destruct (@valid_canonical s m e Hv) as [Hc He].
    change (Prim2SF 1%float) with (S754_finite false (shl 1 52) (-52)).
    unfold SFmul. rewrite shl_mul.
    replace (xorb s false) with s by now destruct s.
    replace (e + -52) with (e - Z.of_nat 52) by (simpl; lia).
    now apply binary_round_aux_canonical.
Qed.

(** Every binary64 number times one is the number itself. *)
Lemma mul_one (x : float) : PrimFloat.mul x 1%float = x.
Proof.
  apply Prim2SF_inj. rewrite mul_spec. apply SFmul_one. apply Prim2SF_valid.
Qed.

(** Zero plus a number is that number (plus zero for minus zero). *)
Lemma add_zero_l (x : float) : FloatFacts.same (PrimFloat.add 0%float x) x = true.
Proof.
  unfold FloatFacts.same, Np.isnan. rewrite !eqb_spec, add_spec, FloatFacts.Prim2SF_zero.
  destruct (Prim2SF x) as [s|s| |s m e]; simpl.
  - now destruct s.
  - unfold SFeqb. now rewrite FloatFacts.SFcompare_refl.
  - reflexivity.
  - unfold SFeqb. now rewrite FloatFacts.SFcompare_refl.
Qed.

(** Zero plus a finite number times the weight of a masked bin is zero. *)
Lemma add_zero_masked (x : float) :
  Np.isfinite x = true ->
  PrimFloat.add 0%float (PrimFloat.mul x (Np.of_bool false)) = 0%float.
Proof.
  intros Hx. apply Prim2SF_inj. rewrite add_spec, mul_spec. simpl Np.of_bool.
  rewrite FloatFacts.Prim2SF_zero.
  destruct (FloatFacts.isfinite_spec Hx) as [(s & ->)|(s & m & e & ->)]; simpl.
  - now destruct s.
  - now destruct s.
Qed.

End UnitFacts.

(** ** More on stacking *)

Section StackMasks.

Variable Evaluator : Type.
Variable evaluate_geom : list float -> Geom -> list float.

Abbreviation stack' := (stack (Evaluator := Evaluator) evaluate_geom).

(** The counts of [other] are on the geometry of the counts of [self] and on
    the pixel grid of the safe mask [w]. *)
Definition counts_compatible (self other : MapDataset Evaluator) (w : BMap) : Prop :=
  forall a b, counts self = Some a -> counts other = Some b ->
              geom a = geom b /\ npix (geom b) = npix (geom w).

Lemma stack_counts_returns (self other : MapDataset Evaluator) (w : BMap)
      (nan_to_num : bool) :
  counts_compatible self other w ->
  exists c, stack_role (counts self) (counts other) (Some w) nan_to_num = Ok c.
Proof.
  intros H. unfold stack_role.
  destruct (counts self) as [a|] eqn:Ha; [|eauto].
  destruct (counts other) as [b|] eqn:Hb; [|eauto].
  destruct (H a b Ha Hb) as [Hg Hp].
  unfold MapOps.stack. rewrite Hg, geom_eqb_refl, Hp. unfold npix_eqb.
  rewrite !Nat.eqb_refl. simpl. eauto.
Qed.

(** The fit mask after stacking. *)
Definition stacked_mask_fit (self other : option BMap) : option BMap :=
  match self, other with
  | Some f, Some f' => Some (mkMap (geom f) (Np.logical_or (data f) (data f')) (unit f))
  | None, Some f' => Some f'
  | _, None => self
  end.

(** X7: stacking two datasets with safe masks on one geometry returns, and
    the safe mask of the stacked dataset is the logical OR of the two safe
    masks: a bin is safe when it is safe in either dataset.  The fit mask is
    the OR of the two fit masks when both are set, the fit mask of [other]
    when only that one is set, and the fit mask of [self] otherwise. *)
Theorem stack_masks_or (self other : MapDataset Evaluator) (a w : BMap)
        (nan_to_num : bool) :
  mask_safe self = Some a ->
  mask_safe other = Some w ->
  length (data a) = length (data w) ->
  compatible evaluate_geom self other w ->
  counts_compatible self other w ->
  exists self' m,
    stack' self other nan_to_num = Ok self'
    /\ mask_safe self' = Some m
    /\ geom m = geom a
    /\ length (data m) = length (data a)
    /\ (forall i, i < length (data a) ->
          nth i (data m) false = nth i (data a) false || nth i (data w) false)
    /\ mask_fit self' = stacked_mask_fit (mask_fit self) (mask_fit other).
Proof.
  intros Ha Hw Hlen Hc Hcounts.
  destruct (stack_counts_returns nan_to_num Hcounts) as (c & Hcs).
  destruct (@stack_returns _ evaluate_geom self other w nan_to_num c Hw Hc Hcs)
    as (e & bk & ms & mf & _ & _ & Hms & Hmf & Hstack).
  unfold stack_mask_safe in Hms. rewrite Ha, Hw in Hms.
  unfold MapOps.stack_bool in Hms.
  rewrite (compatible_mask_safe Hc Ha), geom_eqb_refl in Hms. simpl in Hms.
  inversion Hms as [Ems]. clear Hms. subst ms.
  eexists. eexists. split; [exact Hstack|]. cbn [mask_safe set_maps].
  split; [reflexivity|]. cbn [geom data].
  split; [symmetry; apply (compatible_mask_safe Hc Ha)|].
  split; [unfold Np.logical_or; now apply Np.zip_with_length|].
  split.
  - intros i Hi. unfold Np.logical_or.
    apply (@Np.zip_with_nth _ _ _ orb (data a) (data w) i false false false); lia.
  - cbn [mask_fit set_maps]. unfold stack_mask_fit in Hmf. unfold stacked_mask_fit.
    destruct (mask_fit self) as [f|] eqn:Hf; destruct (mask_fit other) as [f'|] eqn:Hf';
      try (now inversion Hmf).
    unfold MapOps.stack_bool in Hmf.
    rewrite (compatible_mask_fit Hc Hf Hf'), geom_eqb_refl in Hmf. simpl in Hmf.
    inversion Hmf. now rewrite (compatible_mask_fit Hc Hf Hf').
Qed.

End StackMasks.

Module MaskRun.

(** A cumulative dataset safe in its first bin and an observation safe in
    its second bin, with a fit mask. *)
Definition stacked : MapDataset Example.ToyEvaluator :=
  StackRun.cash (Example.fmap2 5 7) (Example.bmap2 true false).

Definition observation : MapDataset Example.ToyEvaluator :=
  mkDataset "obs" (Some (Example.fmap2 2 3)) None None None None
            (Some (Example.bmap2 false true)) (Some (Example.bmap2 true true))
            None None None [] Cash.

Lemma compatible_observation :
  compatible Example.norm_evaluate_geom stacked observation (Example.bmap2 false true).
Proof.
  constructor; simpl; try discriminate.
  intros m Hm. now inversion Hm; subst.
Qed.

Lemma counts_compatible_observation :
  counts_compatible stacked observation (Example.bmap2 false true).
Proof.
  intros a b Ha Hb. inversion Ha; inversion Hb; subst. split; reflexivity.
Qed.

End MaskRun.

Lemma stack_masks_or_witness :
  exists self' m,
    StackRun.stack MaskRun.stacked MaskRun.observation true = Ok self'
    /\ mask_safe self' = Some m
    /\ nth 0 (data m) false = true
    /\ nth 1 (data m) false = true
    /\ mask_fit self' = Some (Example.bmap2 true true).
Proof.
  destruct (@stack_masks_or Example.ToyEvaluator Example.norm_evaluate_geom
              MaskRun.stacked MaskRun.observation (Example.bmap2 true false)
              (Example.bmap2 false true) true eq_refl eq_refl eq_refl
              MaskRun.compatible_observation MaskRun.counts_compatible_observation)
    as (self' & m & Hs & Hm & _ & _ & Hbins & Hfit).
  exists self', m. split; [exact Hs|]. split; [exact Hm|].
  split; [apply (Hbins 0); simpl; lia|].
  split; [apply (Hbins 1); simpl; lia|exact Hfit].
Defined.

(** ** Masked datasets *)

Module Masked.

Section ToMasked.

Variable Evaluator : Type.
Variable evaluate_geom : list float -> Geom -> list float.

(** The geometries of a dataset, the keyword arguments of [from_geoms]. *)
Record Geoms : Type := mkGeoms {
  geoms_geom : Geom;
  geom_exposure : option Geom;
  geom_psf : option Geom;
  geom_edisp : option Geom
}.

(** [self.psf.psf_map.geom] when [self.psf] is truthy. *)
Definition psf_geom (o : option irf_obj) : result (option Geom) :=
  match o with
  | None => Ok None
  | Some (IrfPSFMap m) => Ok (Some (geom m))
  | Some (IrfOther false) => Ok None
  | Some _ => Raise AttributeError
  end.

(** [self.edisp.edisp_map.geom] when [self.edisp] is truthy. *)
Definition edisp_geom (o : option irf_obj) : result (option Geom) :=
  match o with
  | None => Ok None
  | Some (IrfEDispMap m) => Ok (Some (geom m))
  | Some (IrfEDispKernelMap m) => Ok (Some (geom m))
  | Some (IrfOther false) => Ok None
  | Some _ => Raise AttributeError
  end.

(** [MapDataset.geoms] *)
Definition geoms (ds : MapDataset Evaluator) : result Geoms :=
  do g <- _geom ds;
  do g_psf <- psf_geom (psf ds);
  do g_edisp <- edisp_geom (edisp ds);
  Ok (mkGeoms g (option_map (@geom float) (exposure ds)) g_psf g_edisp).

Definition has_axis (n : string) (g : Geom) : bool :=
  existsb (String.eqb n) (axes_names g).

(** [MapDataset.from_geoms(geom, geom_exposure, geom_psf, geom_edisp, name)]:
    zero-filled maps on the given geometries.  [PSFMap.from_geom] fills a map
    of unit [sr-1] with zeros; the [from_geom] of the energy dispersion
    classes and of [RecoPSFMap] are not among the sources and taken to do
    the same on their geometry. *)
Definition from_geoms (gs : Geoms) (n : string) : MapDataset Evaluator :=
  let edisp :=
    match geom_edisp gs with
    | Some g =>
        if has_axis "energy" g then Some (IrfEDispKernelMap (MapOps.from_geom g EmptyString))
        else Some (IrfEDispMap (MapOps.from_geom g EmptyString))
    | None => None
    end in
  let psf :=
    match geom_psf gs with
    | Some g =>
        if has_axis "energy_true" g then Some (IrfPSFMap (MapOps.from_geom g "sr-1"))
        else if has_axis "energy" g then Some (IrfPSFMap (MapOps.from_geom g "sr-1"))
        else None
    | None => None
    end in
  mkDataset n (Some (MapOps.from_geom (geoms_geom gs) EmptyString))
            (option_map (fun g => MapOps.from_geom g "m2 s") (geom_exposure gs))
            (Some (MapOps.from_geom (geoms_geom gs) EmptyString))
            psf edisp
            (Some (MapOps.from_geom_bool (geoms_geom gs))) None None None None [] Cash.

(** [MapDataset.to_masked(name, nan_to_num)] *)
Definition to_masked (ds : MapDataset Evaluator) (n : string) (nan_to_num : bool)
  : result (MapDataset Evaluator) :=
  do gs <- geoms ds;
  stack evaluate_geom (from_geoms gs n) ds nan_to_num.

End ToMasked.

End Masked.

Section MaskedProperties.

Variable Evaluator : Type.
Variable evaluate_geom : list float -> Geom -> list float.

(** With the geometry of the counts alone, [from_geoms] is the empty
    dataset that the stacking of observations starts from. *)
Lemma from_geoms_geom_only (g : Geom) (n : string) :
  Masked.from_geoms Evaluator (Masked.mkGeoms g None None None) n = from_geoms Evaluator g n.
Proof. reflexivity. Qed.

(** The IRFs are absent or maps of the classes the dataset expects. *)
Definition irfs_loaded (ds : MapDataset Evaluator) : Prop :=
  (psf ds = None \/ exists m, psf ds = Some (IrfPSFMap m))
  /\ (edisp ds = None \/ exists m, edisp ds = Some (IrfEDispMap m)
                                   \/ edisp ds = Some (IrfEDispKernelMap m)).

Lemma geoms_returns (ds : MapDataset Evaluator) (g : Geom) :
  _geom ds = Ok g -> irfs_loaded ds ->
  exists gp ge,
    Masked.geoms ds = Ok (Masked.mkGeoms g (option_map (@geom float) (exposure ds)) gp ge).
Proof.
  intros Hg [Hp He]. unfold Masked.geoms. rewrite Hg. cbn [bind].
  destruct Hp as [->|(m & ->)]; destruct He as [->|(m' & [->| ->])]; simpl; eauto.
Qed.

Lemma logical_or_false (l : list bool) :
  Np.logical_or (repeat false (length l)) l = l.
Proof.
  unfold Np.logical_or. induction l as [|b l IH]; simpl; auto. now rewrite IH.
Qed.

Lemma nth_repeat_zero (n i : nat) : nth i (repeat 0%float n) 0%float = 0%float.
Proof.
  revert i; induction n as [|n IH]; intros [|i]; simpl; auto.
Qed.

(** X9: [to_masked] returns a dataset on the geometry of the counts in
    which a bin inside the safe mask holds the counts of the dataset (a
    non-finite value replaced by 0 unless [nan_to_num] is disabled) and a
    bin outside the safe mask holds 0; the safe mask and the fit mask are
    those of the dataset, the name is the one asked for. *)
Theorem to_masked_counts (ds : MapDataset Evaluator) (g : Geom) (c : FMap) (w : BMap)
        (n : string) (nan_to_num : bool) :
  stackable_on evaluate_geom g ds ->
  irfs_loaded ds ->
  (forall e, exposure ds = Some e -> npix (geom e) = npix g) ->
  counts ds = Some c ->
  mask_safe ds = Some w ->
  exists masked c',
    Masked.to_masked evaluate_geom ds n nan_to_num = Ok masked
    /\ name masked = n
    /\ counts masked = Some c'
    /\ geom c' = g
    /\ length (data c') = data_size g
    /\ (forall i, i < data_size g ->
          let x := nth i (data c) 0%float in
          if nth i (data w) false
          then FloatFacts.same (nth i (data c') 0%float) (stacked_value nan_to_num x) = true
          else nan_to_num = true \/ Np.isfinite x = true ->
               nth i (data c') 0%float = 0%float)
    /\ option_map (@data bool) (mask_safe masked) = Some (data w)
    /\ mask_fit masked = mask_fit ds.
Proof.
  intros Hs Hirf Hexp Hc Hw.
  destruct (in_counts Hs) as (c0 & Hc0 & Hgc & Hlc).
  assert (c0 = c) by congruence. subst c0.
  destruct (in_mask Hs) as (w0 & Hw0 & Hgw & Hlw).
  assert (w0 = w) by congruence. subst w0.
  assert (Hgeom : _geom ds = Ok g) by (unfold _geom; now rewrite Hc, Hgc).
  destruct (geoms_returns Hgeom Hirf) as (gp & ge & Hgs).
  unfold Masked.to_masked. rewrite Hgs. cbn [bind].
  set (empty := Masked.from_geoms Evaluator _ n).
  assert (Hcompat : compatible evaluate_geom empty ds w).
  { constructor.
    - intros a b Ha Hb. subst empty. cbn in Ha. rewrite Hb in Ha. cbn in Ha.
      inversion Ha; subst a. cbn [geom]. split; [reflexivity|].
      rewrite (Hexp b Hb). now rewrite Hgw.
    - intros a b _ Ha Hb. subst empty. cbn in Ha. inversion Ha; subst a.
      destruct (in_background Hs Hb) as (bk & Hbk & Hgb).
      eexists. exists bk. split; [reflexivity|]. split; [exact Hbk|].
      cbn [geom]. split; [now symmetry|]. now rewrite Hgb, Hgw.
    - intros a Ha. subst empty. cbn in Ha. inversion Ha; subst a. cbn [geom].
      now symmetry.
    - intros a b Ha. subst empty. cbn in Ha. discriminate. }
  destruct (@stack_returns _ evaluate_geom empty ds w nan_to_num
              (Some (mkMap g (Np.add (repeat 0%float (data_size g))
                                     (masked nan_to_num (data w) (data c)))
                           EmptyString)) Hw Hcompat)
    as (e & bk & ms & mf & _ & _ & Hms & Hmf & Hstack).
  { unfold stack_role. subst empty. cbn [counts Masked.from_geoms Masked.geoms_geom].
    rewrite Hc. rewrite stack_masked; try (cbn [geom MapOps.from_geom]; congruence).
    reflexivity. }
  eexists. eexists. split; [exact Hstack|].
  split; [reflexivity|]. split; [reflexivity|]. split; [reflexivity|].
  cbn [data].
  assert (Hml : length (masked nan_to_num (data w) (data c)) = data_size g).
  { rewrite masked_length; congruence. }
  split.
  { unfold Np.add. rewrite Np.zip_with_length; rewrite repeat_length; congruence. }
  split.
  - intros i Hi. cbv zeta. unfold Np.add.
    rewrite (@Np.zip_with_nth _ _ _ _ _ _ i 0%float 0%float)
      by (rewrite ?repeat_length; congruence).
    rewrite nth_repeat_zero. unfold masked, Np.mul_bool.
    rewrite (@Np.zip_with_nth _ _ _ _ _ _ i 0%float false)
      by (rewrite ?length_map; congruence).
    rewrite (nth_indep _ 0%float (stacked_value nan_to_num 0%float))
      by (rewrite length_map; congruence).
    rewrite map_nth.
    destruct (nth i (data w) false).
    + simpl Np.of_bool. rewrite UnitFacts.mul_one. apply UnitFacts.add_zero_l.
    + intros Hfin. apply UnitFacts.add_zero_masked.
      unfold stacked_value. destruct nan_to_num.
      * apply FloatFacts.zero_not_finite_finite.
      * destruct Hfin as [Hf|Hf]; [discriminate|exact Hf].
  - cbn [mask_safe mask_fit set_maps]. split.
    + unfold stack_mask_safe in Hms. subst empty. cbn in Hms. rewrite Hw in Hms.
      unfold MapOps.stack_bool in Hms. cbn [geom MapOps.from_geom_bool] in Hms.
      rewrite <- Hgw, geom_eqb_refl in Hms. cbn in Hms. inversion Hms. cbn.
      f_equal. rewrite Hgw, <- Hlw. apply logical_or_false.
    + unfold stack_mask_fit in Hmf. subst empty. cbn in Hmf.
      destruct (mask_fit ds); now inversion Hmf.
Qed.

End MaskedProperties.

Module MaskedRun.

Abbreviation to_masked :=
  (Masked.to_masked (Evaluator := Example.ToyEvaluator) Example.norm_evaluate_geom).

Example to_masked_observation :
  option_map (fun ds => (option_map (@data float) (counts ds),
                         option_map (@data bool) (mask_safe ds)))
             (match to_masked StackRun.observation "masked" true with
              | Ok ds => Some ds
              | Raise _ => None
              end)
  = Some (Some [2%float; 0%float], Some [true; false]).
Proof. vm_compute. reflexivity. Qed.

Lemma irfs_loaded_observation : irfs_loaded StackRun.observation.
Proof. split; left; reflexivity. Qed.

End MaskedRun.

Lemma to_masked_counts_witness :
  exists masked c',
    MaskedRun.to_masked StackRun.observation "masked" true = Ok masked
    /\ name masked = "masked"
    /\ counts masked = Some c'
    /\ FloatFacts.same (nth 0 (data c') 0%float) 2%float = true
    /\ nth 1 (data c') 0%float = 0%float
    /\ option_map (@data bool) (mask_safe masked) = Some [true; false].
Proof.
  destruct (@to_masked_counts Example.ToyEvaluator Example.norm_evaluate_geom
              StackRun.observation Example.geom2 (Example.fmap2 2 infinity)
              (Example.bmap2 true false) "masked" true)
    as (masked & c' & Hrun & Hname & Hc & _ & _ & Hbins & Hmask & _).
  - apply OrderRun.cash_stackable; reflexivity.
  - exact MaskedRun.irfs_loaded_observation.
  - discriminate.
  - reflexivity.
  - reflexivity.
  - exists masked, c'. split; [exact Hrun|]. split; [exact Hname|]. split; [exact Hc|].
    split; [|split].
    + apply (Hbins 0). cbv. lia.
    + apply (Hbins 1); [cbv; lia | left; reflexivity].
    + exact Hmask.
Defined.

(** ** The exposure of stacked datasets *)

Section ReducedMask.

Lemma existsb_pointwise {A : Type} (f h : A -> bool) (l : list A) :
  (forall x, f x = h x) -> existsb f l = existsb h l.
Proof.
  intros H. induction l as [|x l IH]; simpl; auto. now rewrite H, IH.
Qed.

Lemma existsb_seq_shift (f : nat -> bool) (n : nat) :
  existsb f (seq 1 n) = existsb (fun k => f (S k)) (seq 0 n).
Proof.
  rewrite <- seq_shift. induction (seq 0 n) as [|k l IH]; simpl; auto.
  now rewrite IH.
Qed.

(** A bin of the OR of the planes of a cube holds whether one of the planes
    holds [true] there. *)
Lemma fold_or_chunks (n size : nat) (l acc : list bool) (p : nat) :
  length l = n * size -> length acc = size -> p < size ->
  nth p (fold_left Np.logical_or (chunks n size l) acc) false
  = nth p acc false || existsb (fun k => nth (k * size + p) l false) (seq 0 n).
Proof.
  revert l acc. induction n as [|n IH]; intros l acc Hl Hacc Hp.
  - simpl. now rewrite orb_false_r.
  - cbn [chunks fold_left].
    assert (Hsize : size <= length l) by (rewrite Hl; simpl; lia).
    rewrite IH.
    + unfold Np.logical_or at 1.
      rewrite (@Np.zip_with_nth _ _ _ orb acc (firstn size l) p false false false)
        by (rewrite ?firstn_length_le; lia).
      rewrite nth_firstn. destruct (Nat.ltb_spec p size) as [_|]; [|lia].
      cbn [seq existsb]. rewrite existsb_seq_shift. simpl Nat.add at 1.
      rewrite <- orb_assoc. f_equal. f_equal.
      apply existsb_pointwise. intros k. rewrite nth_skipn. f_equal. simpl. lia.
    + rewrite length_skipn, Hl. simpl. lia.
    + unfold Np.logical_or. rewrite Np.zip_with_length; rewrite ?firstn_length_le; lia.
    + exact Hp.
Qed.

Lemma fold_or_chunks_length (n size : nat) (l acc : list bool) :
  length l = n * size -> length acc = size ->
  length (fold_left Np.logical_or (chunks n size l) acc) = size.
Proof.
  revert l acc. induction n as [|n IH]; intros l acc Hl Hacc; auto.
  cbn [chunks fold_left]. apply IH.
  - rewrite length_skipn, Hl. simpl. lia.
  - assert (Hsize : size <= length l) by (rewrite Hl; simpl; lia).
    unfold Np.logical_or. rewrite Np.zip_with_length; rewrite ?firstn_length_le; lia.
Qed.

Lemma nth_concat_repeat {A : Type} (w : list A) (q i : nat) (d : A) :
  i < q * length w -> nth i (concat (repeat w q)) d = nth (i mod length w) w d.
Proof.
  revert i. induction q as [|q IH]; intros i Hi; [simpl in Hi; lia|].
  cbn [repeat concat].
  destruct (Nat.lt_ge_cases i (length w)) as [Hlt|Hge].
  - rewrite app_nth1 by exact Hlt. now rewrite Nat.mod_small.
  - rewrite app_nth2 by exact Hge. rewrite IH by (simpl in Hi; lia).
    f_equal. replace i with ((i - length w) + 1 * length w) at 2 by lia.
    now rewrite Nat.Div0.mod_add.
Qed.

(** Whether the pixel [p] of the mask cube [w] is safe at some energy. *)
Definition safe_somewhere (w : BMap) (p : nat) : bool :=
  existsb (fun k => nth (k * image_size (geom w) + p) (data w) false)
          (seq 0 (n_planes (geom w))).

Lemma reduce_over_axes_or_nth (w : BMap) (p : nat) :
  length (data w) = data_size (geom w) -> p < image_size (geom w) ->
  nth p (data (reduce_over_axes_or w)) false = safe_somewhere w p.
Proof.
  intros Hl Hp. unfold reduce_over_axes_or, safe_somewhere. cbn [data].
  rewrite fold_or_chunks; auto.
  - rewrite nth_repeat by exact Hp. reflexivity.
  - apply repeat_length.
Qed.

Lemma reduce_over_axes_or_length (w : BMap) :
  length (data w) = data_size (geom w) ->
  length (data (reduce_over_axes_or w)) = image_size (geom w).
Proof.
  intros Hl. unfold reduce_over_axes_or. cbn [data].
  apply fold_or_chunks_length; auto. apply repeat_length.
Qed.

Lemma broadcast_to_nth (w : list bool) (q i : nat) :
  0 < length w -> i < q * length w ->
  nth i (MapOps.broadcast_to w (q * length w)) false = nth (i mod length w) w false.
Proof.
  intros Hw Hi. unfold MapOps.broadcast_to.
  destruct (Nat.eqb_spec (length w) (q * length w)) as [E|E].
  - rewrite Nat.mod_small by lia. reflexivity.
  - rewrite Nat.div_mul by lia. now apply nth_concat_repeat.
Qed.

End ReducedMask.

Section StackExposure.

Variable Evaluator : Type.
Variable evaluate_geom : list float -> Geom -> list float.

(** X8: the exposure of [other] is stacked weighted by the reduced safe mask
    of [other]: in every bin the stacked exposure is the exposure of [self]
    plus the exposure of [other] (a non-finite value replaced by 0 unless
    [nan_to_num] is disabled) if the pixel of the bin is safe in [other] at
    one energy at least, and the exposure of [self] plus zero times that value
    otherwise. *)
Theorem stack_exposure_weighted (self other : MapDataset Evaluator) (a b : FMap) (w : BMap)
        (planes : nat) (nan_to_num : bool) :
  exposure self = Some a ->
  exposure other = Some b ->
  mask_safe other = Some w ->
  compatible evaluate_geom self other w ->
  counts_compatible self other w ->
  length (data w) = data_size (geom w) ->
  0 < image_size (geom w) ->
  length (data b) = planes * image_size (geom w) ->
  length (data a) = length (data b) ->
  exists self' e,
    stack evaluate_geom self other nan_to_num = Ok self'
    /\ exposure self' = Some e
    /\ geom e = geom a
    /\ length (data e) = length (data a)
    /\ forall i, i < length (data a) ->
         nth i (data e) 0%float
         = PrimFloat.add (nth i (data a) 0%float)
             (PrimFloat.mul (stacked_value nan_to_num (nth i (data b) 0%float))
                (Np.of_bool (safe_somewhere w (i mod image_size (geom w))))).
Proof.
  intros Ha Hb Hw Hc Hcounts Hlw Hsize Hlb Hla.
  destruct (stack_counts_returns nan_to_num Hcounts) as (c & Hcs).
  destruct (@stack_returns _ evaluate_geom self other w nan_to_num c Hw Hc Hcs)
    as (e & bk & ms & mf & He & _ & _ & _ & Hstack).
  destruct (compatible_exposure Hc Ha Hb) as [Hg Hp].
  unfold stack_role, mask_safe_image in He. rewrite Ha, Hb, Hw in He.
  cbn [option_map] in He. unfold MapOps.stack in He.
  rewrite Hg, geom_eqb_refl in He. cbn [negb] in He.
  assert (Hpix : npix_eqb (npix (geom b)) (npix (geom (reduce_over_axes_or w))) = true).
  { unfold reduce_over_axes_or, to_image. cbn [geom npix]. rewrite Hp.
    unfold npix_eqb. now rewrite !Nat.eqb_refl. }
  rewrite Hpix in He. cbn [negb bind] in He. rewrite map_stacked_value in He.
  pose proof (reduce_over_axes_or_length w Hlw) as Hlr.
  pose proof (fun p => @reduce_over_axes_or_nth w p Hlw) as Hnth.
  set (wimg := reduce_over_axes_or w) in *. clearbody wimg.
  set (d := List.map (stacked_value nan_to_num) (data b)) in *.
  inversion He as [Ee]. clear He. subst e.
  eexists. eexists. split; [exact Hstack|]. cbn [exposure set_maps].
  split; [reflexivity|]. cbn [geom data]. split; [now symmetry|].
  assert (Hld : length d = planes * length (data wimg)).
  { subst d. now rewrite length_map, Hlr. }
  assert (Hbl : length (MapOps.broadcast_to (data wimg) (length d)) = length d).
  { unfold MapOps.broadcast_to.
    destruct (Nat.eqb_spec (length (data wimg)) (length d)) as [E|E]; [exact E|].
    rewrite Hld, Nat.div_mul by lia.
    clear. induction planes as [|q IH]; [reflexivity|].
    cbn [repeat concat]. rewrite length_app, IH. reflexivity. }
  assert (Hlm : length (Np.mul_bool d (MapOps.broadcast_to (data wimg) (length d)))
                = length d).
  { unfold Np.mul_bool. now rewrite Np.zip_with_length. }
  assert (Hdb : length d = length (data b)) by (subst d; apply length_map).
  split.
  { unfold Np.add. rewrite Np.zip_with_length; congruence. }
  intros i Hi. unfold Np.add.
  rewrite (@Np.zip_with_nth _ _ _ _ _ _ i 0%float 0%float) by congruence.
  f_equal. unfold Np.mul_bool.
  rewrite (@Np.zip_with_nth _ _ _ _ _ _ i 0%float false) by congruence.
  f_equal.
  - subst d. rewrite (nth_indep _ 0%float (stacked_value nan_to_num 0%float))
      by (rewrite length_map; congruence).
    apply map_nth.
  - f_equal. rewrite Hld.
    rewrite broadcast_to_nth by (rewrite ?Hlr; try lia; rewrite <- Hlr, <- Hld; congruence).
    rewrite Hlr. apply Hnth.
    apply Nat.mod_upper_bound. lia.
Qed.

End StackExposure.

Module ExposureRun.

(** Two pixels and two energy bins for the counts, three true energy bins
    for the exposure. *)
Definition counts_geom : Geom := mkGeom (2, 1) [mkAxis "energy" 2 []].
Definition exposure_geom : Geom := mkGeom (2, 1) [mkAxis "energy_true" 3 []].

Definition observed (e : list float) (w : list bool) : MapDataset Example.ToyEvaluator :=
  mkDataset "obs" (Some (MapOps.from_geom counts_geom EmptyString))
            (Some (mkMap exposure_geom e "m2 s")) None None None
            (Some (mkMap counts_geom w EmptyString)) None None None None [] Cash.

Definition stacked : MapDataset Example.ToyEvaluator :=
  observed [1; 2; 3; 4; 5; 6]%float [true; true; true; true].

(** The first pixel is safe in the first energy bin only, the second pixel
    in no energy bin. *)
Definition safe : BMap := mkMap counts_geom [true; false; false; false] EmptyString.

Definition observation : MapDataset Example.ToyEvaluator :=
  observed [10; 20; 30; 40; 50; 60]%float (data safe).

Lemma compatible_exposures :
  compatible Example.norm_evaluate_geom stacked observation safe.
Proof.
  constructor; simpl; try discriminate.
  - intros a b Ha Hb. inversion Ha; inversion Hb; subst. split; reflexivity.
  - intros m Hm. now inversion Hm; subst.
Qed.

Lemma counts_grid_exposures : counts_compatible stacked observation safe.
Proof.
  intros a b Ha Hb. inversion Ha; inversion Hb; subst. split; reflexivity.
Qed.

Example stack_observation_exposure :
  option_map (fun ds => option_map (@data float) (exposure ds))
             (match StackRun.stack stacked observation true with
              | Ok ds => Some ds
              | Raise _ => None
              end)
  = Some (Some [11; 2; 33; 4; 55; 6]%float).
Proof. vm_compute. reflexivity. Qed.

End ExposureRun.

Lemma stack_exposure_weighted_witness :
  exists self' e,
    StackRun.stack ExposureRun.stacked ExposureRun.observation true = Ok self'
    /\ exposure self' = Some e
    /\ nth 4 (data e) 0%float = 55%float
    /\ nth 5 (data e) 0%float = 6%float.
Proof.
  destruct (@stack_exposure_weighted Example.ToyEvaluator Example.norm_evaluate_geom
              ExposureRun.stacked ExposureRun.observation
              (mkMap ExposureRun.exposure_geom [1; 2; 3; 4; 5; 6]%float "m2 s")
              (mkMap ExposureRun.exposure_geom [10; 20; 30; 40; 50; 60]%float "m2 s")
              ExposureRun.safe 3 true eq_refl eq_refl eq_refl
              ExposureRun.compatible_exposures ExposureRun.counts_grid_exposures)
    as (self' & e & Hs & He & _ & _ & Hbins); try reflexivity.
  - cbv. lia.
  - exists self', e. split; [exact Hs|]. split; [exact He|].
    split; [apply (Hbins 4) | apply (Hbins 5)]; cbv; lia.
Defined.

(** ** More on the predicted signal *)

Section SignalFurther.

Variable Evaluator : Type.
Variable needs_update : Evaluator -> bool.
Variable update : Evaluator -> UpdateArgs -> Evaluator.
Variable contributes : Evaluator -> bool.
Variable compute_npred : Evaluator -> FMap * Evaluator.
Variable reset_cache_properties : Evaluator -> Evaluator.
Variable USE_NPRED_CACHE : bool.

Abbreviation signal_step_ :=
  (signal_step needs_update update contributes compute_npred reset_cache_properties
               USE_NPRED_CACHE).
Abbreviation signal_loop_ :=
  (signal_loop needs_update update contributes compute_npred reset_cache_properties
               USE_NPRED_CACHE).
Abbreviation npred_signal_ :=
  (npred_signal needs_update update contributes compute_npred reset_cache_properties
                USE_NPRED_CACHE).
Abbreviation refreshed_ := (refreshed needs_update update).

Lemma select_missing (evs : list (string * Evaluator)) (names seen : list string) :
  (exists n, In n names /\ lookup n evs = None) ->
  select evs seen names = Raise KeyError.
Proof.
  revert seen. induction names as [|k names IH]; intros seen (n & Hin & Hn).
  - destruct Hin.
  - simpl. destruct (lookup k evs) as [e|] eqn:Hk; [|reflexivity].
    destruct Hin as [->|Hin]; [congruence|].
    rewrite (IH (k :: seen)) by eauto. reflexivity.
Qed.

Lemma select_found (evs : list (string * Evaluator)) (names seen : list string) :
  (forall n, In n names -> lookup n evs <> None) ->
  exists sel, select evs seen names = Ok sel.
Proof.
  revert seen. induction names as [|k names IH]; intros seen H; simpl; [eauto|].
  destruct (lookup k evs) as [e|] eqn:Hk.
  - destruct (IH (k :: seen)) as (tl & ->); [intros n Hn; apply H; now right|].
    simpl. eauto.
  - exfalso. apply (H k); [now left | exact Hk].
Qed.

Lemma stack_raises (a b : FMap) (w : option BMap) (n : bool) (e : exn) :
  MapOps.stack a b w n = Raise e -> e = ValueError.
Proof.
  unfold MapOps.stack. intros H.
  destruct (negb (geom_eqb (geom a) (geom b))); [now inversion H|].
  destruct w as [w|]; [|discriminate].
  destruct (negb (npix_eqb (npix (geom b)) (npix (geom w)))); [now inversion H|].
  discriminate.
Qed.

Lemma signal_step_raises (args : UpdateArgs) (stack : bool) (st : SignalLoop Evaluator)
      (entry : string * Evaluator) (e : exn) :
  signal_step_ args stack st entry = Raise e -> e = ValueError.
Proof.
  unfold signal_step. destruct entry as [n ev].
  destruct (contributes (if needs_update ev then update ev args else ev)); [|discriminate].
  destruct (compute_npred _) as [m ev'].
  destruct stack.
  - destruct (MapOps.stack (npred_total st) m None true) eqn:Hs; simpl; [discriminate|].
    intros H. inversion H; subst. eapply stack_raises, Hs.
  - destruct (MapOps.stack (MapOps.from_geom (arg_geom args) EmptyString) m None true)
      eqn:Hs; simpl; [discriminate|].
    intros H. inversion H; subst. eapply stack_raises, Hs.
Qed.

Lemma signal_loop_raises (args : UpdateArgs) (stack : bool)
      (evs : list (string * Evaluator)) (st : SignalLoop Evaluator) (e : exn) :
  signal_loop_ args stack st evs = Raise e -> e = ValueError.
Proof.
  revert st. induction evs as [|entry evs IH]; intros st; simpl; [discriminate|].
  destruct (signal_step_ args stack st entry) as [st'|e'] eqn:Hs; simpl.
  - apply IH.
  - intros H. inversion H; subst. eapply signal_step_raises, Hs.
Qed.

(** X10: on a dataset with a reference geometry, [npred_signal] with a list
    of model names raises [KeyError] exactly when one of the names is not
    the name of an evaluator of the dataset. *)
Theorem npred_signal_unknown_model (ds : MapDataset Evaluator) (g : Geom)
        (names : list string) (stack : bool) :
  _geom ds = Ok g ->
  (npred_signal_ ds (Some names) stack = Raise KeyError
   <-> exists n, In n names /\ lookup n (evaluators ds) = None).
Proof.
  intros Hg. unfold npred_signal. rewrite Hg. cbn [bind]. split.
  - intros H.
    destruct (List.existsb (fun n => match lookup n (evaluators ds) with
                                     | None => true
                                     | Some _ => false
                                     end) names) eqn:Hex.
    + apply existsb_exists in Hex as (n & Hin & Hn). exists n. split; auto.
      now destruct (lookup n (evaluators ds)).
    + exfalso.
      destruct (@select_found (evaluators ds) names []) as (sel & Hsel).
      { intros n Hin Hn.
        assert (Ht : List.existsb (fun n => match lookup n (evaluators ds) with
                                            | None => true
                                            | Some _ => false
                                            end) names = true).
        { apply existsb_exists. exists n. now rewrite Hn. }
        congruence. }
      rewrite Hsel in H. cbn [bind] in H.
      assert (Hmask : exists image, mask_image ds = Ok image).
      { unfold mask_image. destruct (mask ds); eauto. rewrite Hg. simpl. eauto. }
      destruct Hmask as (image & Hmask). rewrite Hmask in H. cbn [bind] in H.
      destruct (signal_loop_ _ stack _ sel) as [st|e] eqn:Hloop; cbn [bind] in H.
      * destruct (npred_list st); discriminate.
      * apply signal_loop_raises in Hloop. congruence.
  - intros Hmiss. now rewrite (@select_missing (evaluators ds) names [] Hmiss).
Qed.

(** The selected evaluators that contribute, after the update a stale
    evaluator gets. *)
Definition contributing (args : UpdateArgs) (selected : list (string * Evaluator))
  : list (string * Evaluator) :=
  filter (fun entry => contributes (refreshed_ args (snd entry))) selected.

(** The predicted counts of one evaluator on the geometry [g], non-finite
    values replaced by zero. *)
Definition model_counts (args : UpdateArgs) (g : Geom) (entry : string * Evaluator)
  : list float :=
  Np.add (repeat 0%float (data_size g))
         (List.map Np.zero_not_finite
                   (data (fst (compute_npred (refreshed_ args (snd entry)))))).

(** Every contributing evaluator predicts on the geometry [g]. *)
Definition predicts_on (args : UpdateArgs) (g : Geom) (selected : list (string * Evaluator))
  : Prop :=
  forall entry, In entry (contributing args selected) ->
                geom (fst (compute_npred (refreshed_ args (snd entry)))) = g.

Lemma contributing_cons (args : UpdateArgs) (n : string) (e : Evaluator)
      (evs : list (string * Evaluator)) :
  contributing args ((n, e) :: evs)
  = if contributes (refreshed_ args e) then (n, e) :: contributing args evs
    else contributing args evs.
Proof. reflexivity. Qed.

Lemma signal_loop_unstacked (args : UpdateArgs) (g : Geom)
      (evs : list (string * Evaluator)) (st : SignalLoop Evaluator) :
  arg_geom args = g ->
  predicts_on args g evs ->
  exists st',
    signal_loop_ args false st evs = Ok st'
    /\ List.map (@data float) (npred_list st')
       = List.map (@data float) (npred_list st)
         ++ List.map (model_counts args g) (contributing args evs)
    /\ loop_labels st' = loop_labels st ++ List.map fst (contributing args evs).
Proof.
  intros Hg. revert st. induction evs as [|[n e] evs IH]; intros st Hp.
  - exists st. simpl. now rewrite !app_nil_r.
  - cbn [signal_loop]. unfold signal_step at 1.
    change (if needs_update e then update e args else e) with (refreshed_ args e).
    unfold predicts_on in Hp. rewrite contributing_cons in *.
    destruct (contributes (refreshed_ args e)) eqn:Hc.
    + assert (Hgeom : geom (fst (compute_npred (refreshed_ args e))) = g).
      { apply (Hp (n, e)). now left. }
      destruct (compute_npred (refreshed_ args e)) as [m e'] eqn:Hm. cbn [fst] in *.
      rewrite Hg. unfold MapOps.stack. cbn [geom MapOps.from_geom].
      rewrite Hgeom, geom_eqb_refl. cbn [negb bind].
      match goal with
      | |- exists st', signal_loop _ _ _ _ _ _ _ _ ?s evs = _ /\ _ =>
          destruct (IH s) as (st' & Hloop & Hl & Hlab)
      end.
      { intros entry Hin. apply Hp. now right. }
      exists st'. split; [exact Hloop|]. cbn [npred_list loop_labels] in Hl, Hlab.
      split.
      * rewrite Hl, map_app, <- app_assoc. f_equal. cbn [List.map app]. f_equal.
        unfold model_counts. cbn [snd data]. now rewrite Hm.
      * rewrite Hlab, <- app_assoc. reflexivity.
    + cbn [bind].
      match goal with
      | |- exists st', signal_loop _ _ _ _ _ _ _ _ ?s evs = _ /\ _ =>
          destruct (IH s) as (st' & Hloop & Hl & Hlab)
      end.
      { exact Hp. }
      exists st'. split; [exact Hloop|]. now split.
Qed.

(** X11: with [stack=False] and at least one contributing evaluator,
    [npred_signal] returns a map on the reference geometry with one more
    axis, named [models], whose labels are the names of the selected
    evaluators that contribute, in their order; the data are the predicted
    counts of these evaluators, one after the other. *)
Theorem npred_signal_unstacked
        (ds : MapDataset Evaluator) (g : Geom) (model_names : option (list string))
        (selected : list (string * Evaluator)) :
  _geom ds = Ok g ->
  match model_names with
  | None => Ok (evaluators ds)
  | Some names => select (evaluators ds) [] names
  end = Ok selected ->
  let args := update_args ds g in
  let entries := contributing args selected in
  predicts_on args g selected ->
  entries <> [] ->
  exists m ds',
    npred_signal_ ds model_names false = Ok (m, ds')
    /\ geom m = mkGeom (npix g)
                       (axes g ++ [mkAxis "models" (length entries) (List.map fst entries)])
    /\ data m = concat (List.map (model_counts args g) entries).
Proof.
  intros Hg Hsel args entries Hp Hne.
  unfold npred_signal. rewrite Hg. cbn [bind]. rewrite Hsel. cbn [bind].
  assert (Hmask : mask_image ds = Ok (arg_mask args)).
  { unfold mask_image, args, update_args. cbn [arg_mask].
    destruct (mask ds); auto. now rewrite Hg. }
  rewrite Hmask. cbn [bind].
  destruct (@signal_loop_unstacked args g selected
              (mkLoop (MapOps.from_geom g EmptyString) [] [] (evaluators ds)) eq_refl Hp)
    as (st' & Hloop & Hl & Hlab).
  change (mkArgs (exposure ds) (psf ds) (edisp ds) g (arg_mask args)) with args.
  rewrite Hloop. cbn [bind]. cbn [npred_list loop_labels List.map app] in Hl, Hlab.
  fold entries in Hl, Hlab.
  destruct (npred_list st') as [|x l] eqn:Hlist.
  - exfalso. destruct entries; [now apply Hne | discriminate].
  - eexists. eexists. split; [reflexivity|].
    unfold MapOps.from_stack. cbn [geom data]. split.
    + rewrite Hlab, length_map. reflexivity.
    + now rewrite Hl.
Qed.

End SignalFurther.

Lemma npred_signal_unknown_model_witness :
  Run.npred_signal Run.observed (Some ["src"; "other"]) true = Raise KeyError
  <-> exists n, In n ["src"; "other"] /\ lookup n (evaluators Run.observed) = None.
Proof.
  apply (@npred_signal_unknown_model _ Example.stale Example.toy_update Example.overlaps
           Example.toy_compute Example.toy_reset true Run.observed Example.geom2).
  reflexivity.
Defined.

Module LabelRun.

(** A dataset with a source out of the field of view and one inside. *)
Definition dataset : MapDataset Example.ToyEvaluator :=
  Example.dataset None None [("far", Example.far_source); ("src", Example.source)].

Example npred_per_model :
  option_map (fun r => (geom (fst r), data (fst r)))
             (match Run.npred_signal dataset None false with
              | Ok r => Some r
              | Raise _ => None
              end)
  = Some (mkGeom (1, 1) [Example.energy_axis; mkAxis "models" 1 ["src"]],
          [3%float; 4%float]).
Proof. vm_compute. reflexivity. Qed.

End LabelRun.

Lemma npred_signal_unstacked_witness :
  exists m ds',
    Run.npred_signal LabelRun.dataset None false = Ok (m, ds')
    /\ geom m = mkGeom (1, 1) [Example.energy_axis; mkAxis "models" 1 ["src"]]
    /\ data m = [3%float; 4%float].
Proof.
  destruct (@npred_signal_unstacked _ Example.stale Example.toy_update Example.overlaps
              Example.toy_compute Example.toy_reset true LabelRun.dataset Example.geom2
              None (evaluators LabelRun.dataset) eq_refl eq_refl)
    as (m & ds' & Hrun & Hgeom & Hdata).
  - intros entry [<-|[]]. reflexivity.
  - discriminate.
  - exists m, ds'. split; [exact Hrun|]. split; [exact Hgeom|exact Hdata].
Defined.

(** ** The energy range of a mask *)

Module EnergyRange.

(** [a.argmax()] of a boolean array: the index of the first [True], and 0
    when there is none. *)
Fixpoint argmax (l : list bool) : nat :=
  match l with
  | [] => 0
  | b :: l' => if b then 0 else if Np.any l' then S (argmax l') else 0
  end.

(** [values[idx]] for an array of indices: an index out of range raises
    [IndexError]. *)
Fixpoint np_take (values : list float) (idx : list nat) : result (list float) :=
  match idx with
  | [] => Ok []
  | i :: rest =>
      match nth_error values i with
      | Some v => do l <- np_take values rest; Ok (v :: l)
      | None => Raise IndexError
      end
  end.

(** [values[mask_nan] = np.nan] *)
Definition set_nan (values : list float) (mask_nan : list bool) : list float :=
  Np.zip_with (fun v (b : bool) => if b then nan else v) values mask_nan.

(** The mask along the energy axis, one column for every pixel. *)
Definition columns (n size : nat) (mask : list bool) : list (list bool) :=
  List.map (fun p => List.map (fun plane => nth p plane false) (chunks n size mask))
           (seq 0 size).

(** The arrays that [MapDataset._energy_range] computes, for a geometry whose
    only non-spatial axis is the energy axis, with [n] bins and the edges
    [energy], over [size] pixels: the energy axis is the first axis of the
    mask data. *)
Definition _energy_range (energy : list float) (n size : nat) (mask_map : option (list bool))
  : result (list float * list float) :=
  match mask_map with
  | Some mask =>
      if Np.any mask then
        let cols := columns n size mask in
        do energy_min <- np_take energy (List.map argmax cols);
        let mask_nan := List.map (fun col => negb (Np.any col)) cols in
        let energy_min := set_nan energy_min mask_nan in
        do energy_max <- np_take (rev energy) (List.map (fun col => argmax (rev col)) cols);
        let energy_max := set_nan energy_max mask_nan in
        Ok (energy_min, energy_max)
      else Ok (repeat nan size, repeat nan size)
  | None =>
      match energy with
      | [] => Raise IndexError
      | first :: _ => Ok (repeat first size, repeat (last energy first) size)
      end
  end.

End EnergyRange.

Section EnergyRangeProperties.

Import EnergyRange.

Lemma nth_map_default {A B : Type} (f : A -> B) (l : list A) (k : nat) (a : A) (b : B) :
  k < length l -> nth k (List.map f l) b = f (nth k l a).
Proof.
  intros H. rewrite (nth_indep _ b (f a)) by now rewrite length_map.
  apply map_nth.
Qed.

Lemma any_nth (l : list bool) :
  Np.any l = true <-> exists k, k < length l /\ nth k l false = true.
Proof.
  unfold Np.any. rewrite existsb_exists. split.
  - intros (b & Hin & Hb). subst b. apply (In_nth _ _ false) in Hin as (k & Hk & E).
    exists k. split; auto.
  - intros (k & Hk & E). exists true. split; auto. rewrite <- E. now apply nth_In.
Qed.

Lemma any_false_nth (l : list bool) (k : nat) :
  Np.any l = false -> nth k l false = false.
Proof.
  intros H. destruct (nth k l false) eqn:E; auto.
  assert (Np.any l = true); [|congruence].
  apply any_nth. exists k. split; auto.
  destruct (Nat.lt_ge_cases k (length l)); auto.
  rewrite nth_overflow in E by lia. discriminate.
Qed.

Lemma argmax_le (l : list bool) : argmax l <= length l.
Proof.
  induction l as [|b l IH]; simpl; auto.
  destruct b; [lia|]. destruct (Np.any l); lia.
Qed.

(** The index of the first [True]. *)
Lemma argmax_first (l : list bool) (k : nat) :
  nth k l false = true -> (forall j, j < k -> nth j l false = false) -> argmax l = k.
Proof.
  revert k. induction l as [|b l IH]; intros k Hk Hlow.
  - destruct k; discriminate.
  - destruct k as [|k].
    + simpl in Hk. subst b. reflexivity.
    + simpl. assert (Hb : b = false) by (apply (Hlow 0); lia). subst b.
      assert (Hany : Np.any l = true).
      { apply any_nth. exists k. split; auto.
        destruct (Nat.lt_ge_cases k (length l)); auto.
        simpl in Hk. rewrite nth_overflow in Hk by lia. discriminate. }
      rewrite Hany. f_equal. apply IH; auto.
      intros j Hj. apply (Hlow (S j)). lia.
Qed.

Lemma np_take_nth (values : list float) (idx : list nat) :
  Forall (fun i => i < length values) idx ->
  np_take values idx = Ok (List.map (fun i => nth i values 0%float) idx).
Proof.
  induction idx as [|i idx IH]; intros H; [reflexivity|].
  inversion H as [|? ? Hi Hrest]; subst. simpl.
  destruct (nth_error values i) as [v|] eqn:E.
  - rewrite (IH Hrest). simpl. f_equal. f_equal. symmetry. now apply nth_error_nth.
  - apply nth_error_None in E. lia.
Qed.

Lemma chunks_length {A : Type} (n size : nat) (l : list A) : length (chunks n size l) = n.
Proof.
  revert l. induction n as [|n IH]; intros l; simpl; auto.
Qed.

Lemma chunks_nth {A : Type} (n size : nat) (l : list A) (k p : nat) (d : A) :
  length l = n * size -> k < n -> p < size ->
  nth p (nth k (chunks n size l) []) d = nth (k * size + p) l d.
Proof.
  revert l k. induction n as [|n IH]; intros l k Hl Hk Hp; [lia|].
  cbn [chunks]. destruct k as [|k].
  - cbn [nth]. rewrite nth_firstn. destruct (Nat.ltb_spec p size); [reflexivity|lia].
  - cbn [nth]. rewrite IH; try lia.
    + rewrite nth_skipn. f_equal. simpl. lia.
    + rewrite length_skipn, Hl. simpl. lia.
Qed.

(** The column of the pixel [p]: its [k]-th element is the mask of the bin
    [k] of the energy axis at that pixel. *)
Definition column (n size : nat) (mask : list bool) (p : nat) : list bool :=
  List.map (fun plane => nth p plane false) (chunks n size mask).

Lemma column_length (n size : nat) (mask : list bool) (p : nat) :
  length (column n size mask p) = n.
Proof. unfold column. now rewrite length_map, chunks_length. Qed.

Lemma column_nth (n size : nat) (mask : list bool) (p k : nat) :
  length mask = n * size -> k < n -> p < size ->
  nth k (column n size mask p) false = nth (k * size + p) mask false.
Proof.
  intros Hl Hk Hp. unfold column.
  rewrite (nth_map_default _ _ [] false) by (rewrite chunks_length; exact Hk).
  now apply chunks_nth.
Qed.

Lemma columns_nth (n size : nat) (mask : list bool) (p : nat) :
  p < size -> nth p (columns n size mask) [] = column n size mask p.
Proof.
  intros Hp. unfold columns.
  rewrite (nth_map_default _ _ 0 []) by (rewrite length_seq; exact Hp).
  rewrite seq_nth by exact Hp. reflexivity.
Qed.

Lemma set_nan_map {A : Type} (f : A -> float) (g : A -> bool) (l : list A) :
  set_nan (List.map f l) (List.map g l)
  = List.map (fun x => if g x then nan else f x) l.
Proof.
  unfold set_nan. induction l as [|x l IH]; simpl; auto. now rewrite IH.
Qed.

Lemma columns_length (n size : nat) (mask : list bool) :
  length (columns n size mask) = size.
Proof. unfold columns. now rewrite length_map, length_seq. Qed.

Lemma columns_In (n size : nat) (mask col : list bool) :
  In col (columns n size mask) -> length col = n.
Proof.
  unfold columns. intros H. apply in_map_iff in H as (p & <- & _).
  now rewrite length_map, chunks_length.
Qed.

(** X12: for a mask on [n] energy bins and [size] pixels, [_energy_range]
    returns one minimum and one maximum per pixel: both are NaN for a pixel
    that the mask selects in no energy bin; otherwise the minimum is the
    lower edge of the first selected bin and the maximum is the upper edge
    of the last selected bin of that pixel. *)
Theorem energy_range_edges (energy : list float) (n size : nat) (mask : list bool) :
  length mask = n * size ->
  length energy = S n ->
  exists energy_min energy_max,
    _energy_range energy n size (Some mask) = Ok (energy_min, energy_max)
    /\ length energy_min = size
    /\ length energy_max = size
    /\ forall p, p < size ->
         ((forall k, k < n -> nth (k * size + p) mask false = false) ->
          Np.isnan (nth p energy_min 0%float) = true
          /\ Np.isnan (nth p energy_max 0%float) = true)
         /\ (forall first last,
               first <= last < n ->
               nth (first * size + p) mask false = true ->
               (forall k, k < first -> nth (k * size + p) mask false = false) ->
               nth (last * size + p) mask false = true ->
               (forall k, last < k < n -> nth (k * size + p) mask false = false) ->
               nth p energy_min 0%float = nth first energy 0%float
               /\ nth p energy_max 0%float = nth (S last) energy 0%float).
Proof.
  intros Hmask Henergy. unfold _energy_range.
  destruct (Np.any mask) eqn:Hany.
  - rewrite np_take_nth.
    2:{ apply Forall_forall. intros i Hi. apply in_map_iff in Hi as (col & <- & Hcol).
        pose proof (argmax_le col). rewrite (@columns_In n size mask col Hcol) in *. lia. }
    cbn [bind]. rewrite np_take_nth.
    2:{ apply Forall_forall. intros i Hi. apply in_map_iff in Hi as (col & <- & Hcol).
        pose proof (argmax_le (rev col)) as Hle.
        rewrite length_rev, (@columns_In n size mask col Hcol) in *. lia. }
    cbn [bind]. rewrite !map_map, !set_nan_map.
    eexists. eexists. split; [reflexivity|].
    split; [now rewrite length_map, columns_length|].
    split; [now rewrite length_map, columns_length|].
    intros p Hp.
    rewrite !(nth_map_default _ _ [] 0%float) by (rewrite columns_length; exact Hp).
    rewrite !columns_nth by exact Hp.
    pose proof (column_length n size mask p) as Hcl.
    split.
    + intros Hnone.
      assert (Hc : Np.any (column n size mask p) = false).
      { destruct (Np.any (column n size mask p)) eqn:E; auto.
        apply any_nth in E as (k & Hk & Hkt). rewrite Hcl in Hk.
        rewrite column_nth in Hkt by auto. rewrite Hnone in Hkt by exact Hk.
        discriminate. }
      rewrite Hc. split; reflexivity.
    + intros first last Hfl Hfirst Hlow Hlast Hhigh.
      assert (Hc : Np.any (column n size mask p) = true).
      { apply any_nth. exists first. rewrite Hcl. split; [lia|].
        rewrite column_nth by (auto; lia). exact Hfirst. }
      rewrite Hc. cbn [negb]. split.
      * f_equal. apply argmax_first.
        -- rewrite column_nth by (auto; lia). exact Hfirst.
        -- intros j Hj. rewrite column_nth by (auto; lia). apply Hlow. exact Hj.
      * assert (Harg : argmax (rev (column n size mask p)) = n - S last).
        { apply argmax_first.
          - rewrite rev_nth by (rewrite Hcl; lia). rewrite Hcl.
            replace (n - S (n - S last)) with last by lia.
            rewrite column_nth by (auto; lia). exact Hlast.
          - intros j Hj. rewrite rev_nth by (rewrite Hcl; lia). rewrite Hcl.
            rewrite column_nth by (auto; lia). apply Hhigh. lia. }
        rewrite Harg. rewrite rev_nth by (rewrite Henergy; lia). rewrite Henergy.
        f_equal. lia.
  - eexists. eexists. split; [reflexivity|].
    split; [apply repeat_length|]. split; [apply repeat_length|].
    intros p Hp.
    rewrite !(nth_indep (repeat nan size) 0%float nan) by (rewrite repeat_length; exact Hp).
    rewrite !nth_repeat. split.
    + intros _. split; reflexivity.
    + intros first last Hfl Hfirst _ _ _.
      rewrite (@any_false_nth mask _ Hany) in Hfirst. discriminate.
Qed.

(** Without a mask the range of every pixel is the whole energy axis. *)
Lemma energy_range_unmasked (energy : list float) (n size : nat) (first : float)
      (rest : list float) :
  energy = first :: rest ->
  _energy_range energy n size None
  = Ok (repeat first size, repeat (last energy first) size).
Proof. intros ->. reflexivity. Qed.

End EnergyRangeProperties.

Module EnergyRun.

(** Three energy bins with the edges 1, 2, 4 and 8 TeV over two pixels: the
    mask selects the first pixel in the two upper bins and the second pixel
    nowhere. *)
Definition edges : list float := [1; 2; 4; 8]%float.
Definition mask : list bool := [false; false; true; false; true; false].

Example energy_range_mask :
  EnergyRange._energy_range edges 3 2 (Some mask) = Ok ([2%float; nan], [8%float; nan]).
Proof. reflexivity. Qed.

End EnergyRun.

Lemma energy_range_edges_witness :
  exists energy_min energy_max,
    EnergyRange._energy_range EnergyRun.edges 3 2 (Some EnergyRun.mask)
    = Ok (energy_min, energy_max)
    /\ nth 0 energy_min 0%float = 2%float
    /\ nth 0 energy_max 0%float = 8%float
    /\ Np.isnan (nth 1 energy_min 0%float) = true.
Proof.
  destruct (@energy_range_edges EnergyRun.edges 3 2 EnergyRun.mask eq_refl eq_refl)
    as (emin & emax & Hrun & _ & _ & Hpix).
  exists emin, emax. split; [exact Hrun|].
  assert (Hlow : forall k, k < 1 -> nth (k * 2 + 0) EnergyRun.mask false = false).
  { intros k Hk. assert (k = 0) by lia. now subst k. }
  assert (Hhigh : forall k, 2 < k < 3 -> nth (k * 2 + 0) EnergyRun.mask false = false).
  { intros k Hk. lia. }
  assert (Hnone : forall k, k < 3 -> nth (k * 2 + 1) EnergyRun.mask false = false).
  { intros k Hk. destruct k as [|[|[|k]]]; try reflexivity. lia. }
  destruct (Hpix 0 ltac:(lia)) as [_ H0].
  destruct (H0 1 2 ltac:(lia) eq_refl Hlow eq_refl Hhigh) as [Hmin Hmax].
  destruct (Hpix 1 ltac:(lia)) as [H1 _].
  destruct (H1 Hnone) as [Hnan _].
  split; [exact Hmin|]. split; [exact Hmax|exact Hnan].
Defined.

(** ** Default width and bin size of a dataset made from IRFs *)

Module Defaults.

(** What [_default_width] looks at in [observation.psf]: a [PSFMap] with
    the widths of its geometry, an IRF with an [offset] axis, or no PSF. *)
Inductive observation_psf : Type :=
  | PsfMap (width : float * float)
  | PsfIrf (offset_edges : list float)
  | PsfNone.

(** [_default_width(observation, spatial_width_max)], in degrees. *)
Definition _default_width (psf : observation_psf) (spatial_width_max : float)
  : result float :=
  do width <- match psf with
              | PsfMap (w1, w2) =>
                  do m <- PSF.np_max [w1; w2];
                  Ok (PrimFloat.mul 2%float m)
              | PsfIrf edges =>
                  match rev edges with
                  | [] => Raise IndexError
                  | e :: _ => Ok (PrimFloat.mul 2%float e)
                  end
              | PsfNone => Ok spatial_width_max
              end;
  Ok (PSF.np_minimum width spatial_width_max).

(** [np.nanmin]: the smallest of the numbers that are not NaN, and the NaN
    when there is none. *)
Definition nanmin (l : list float) : float :=
  fold_left (fun acc x => if Np.isnan x then acc
                          else if Np.isnan acc then x
                          else if PrimFloat.ltb x acc then x else acc)
            l nan.

(** [np.nan_to_num(x, nan=-np.inf)] *)
Definition nan_to_neg_infinity (x : float) : float :=
  if Np.isnan x then neg_infinity
  else if PrimFloat.eqb x infinity then Np.float_max
  else if PrimFloat.eqb x neg_infinity then PrimFloat.opp Np.float_max
  else x.

Section BinSize.

(** [np.median] and [scipy.stats.median_abs_deviation]. *)
Variable median : list float -> float.
Variable mad : list float -> float.

(** [_default_binsz], from the 68 % containment radii [psf_r68] that the PSF
    of the observation returns, in degrees. *)
Definition _default_binsz (psf_r68 : list float) (spatial_bin_size_min : float) : float :=
  let psf_r68 := filter Np.isfinite psf_r68 in
  match psf_r68 with
  | _ :: _ =>
      let beyond_mad := PrimFloat.sub (median psf_r68) (mad psf_r68) in
      let psf_r68 := List.map (fun x => if PrimFloat.ltb x beyond_mad then nan else x)
                              psf_r68 in
      let binsz := nan_to_neg_infinity (nanmin psf_r68) in
      PSF.np_maximum binsz spatial_bin_size_min
  | [] => spatial_bin_size_min
  end.

End BinSize.

End Defaults.

Section DefaultsProperties.

Import Defaults.

Lemma ltb_irrefl (x : float) : PrimFloat.ltb x x = false.
Proof.
  rewrite ltb_spec. unfold SFltb.
  destruct (Prim2SF x) as [s|s| |s m e] eqn:E; try reflexivity;
    now rewrite FloatFacts.SFcompare_refl.
Qed.

Lemma np_minimum_bounded (a b : float) :
  Np.isnan b = false ->
  Np.isnan (PSF.np_minimum a b) = true \/ PrimFloat.leb (PSF.np_minimum a b) b = true.
Proof.
  intros Hb. unfold PSF.np_minimum.
  destruct (Np.isnan a) eqn:Ha; [now left|]. rewrite Hb. right.
  destruct (PrimFloat.ltb b a) eqn:Hlt.
  - now apply FloatFacts.leb_refl.
  - now apply FloatFacts.not_ltb_leb.
Qed.

(** X13: [_default_width] never returns more than [spatial_width_max]: for
    a maximum that is a number, the result is at most the maximum, unless
    the width read from the PSF is the NaN, which is then returned; without
    PSF information the result is the maximum itself. *)
Theorem default_width_bounded (psf : observation_psf) (spatial_width_max width : float) :
  Np.isnan spatial_width_max = false ->
  _default_width psf spatial_width_max = Ok width ->
  (Np.isnan width = true \/ PrimFloat.leb width spatial_width_max = true)
  /\ (psf = PsfNone -> width = spatial_width_max).
Proof.
  intros Hmax H. unfold _default_width in H.
  destruct (match psf with
            | PsfMap (w1, w2) => _
            | PsfIrf edges => _
            | PsfNone => _
            end) as [w|e] eqn:Hw; cbn [bind] in H; [|discriminate].
  inversion H; subst width. split.
  - now apply np_minimum_bounded.
  - intros ->. inversion Hw; subst w. unfold PSF.np_minimum.
    now rewrite Hmax, ltb_irrefl.
Qed.

Lemma nanmin_fold (P : float -> Prop) (l : list float) (acc : float) :
  (Np.isnan acc = true \/ P acc) ->
  Forall (fun y => Np.isnan y = true \/ P y) l ->
  let r := fold_left (fun acc x => if Np.isnan x then acc
                                   else if Np.isnan acc then x
                                   else if PrimFloat.ltb x acc then x else acc) l acc in
  Np.isnan r = true \/ P r.
Proof.
  revert acc. induction l as [|x l IH]; intros acc Hacc Hl; [exact Hacc|].
  inversion Hl as [|? ? Hx Hrest]; subst. cbn [fold_left]. apply IH; auto.
  destruct (Np.isnan x) eqn:Hnx; [exact Hacc|].
  destruct Hx as [Hx|Hx]; [discriminate|].
  destruct (Np.isnan acc) eqn:Hna; [now right|].
  destruct Hacc as [Hacc|Hacc]; [discriminate|].
  destruct (PrimFloat.ltb x acc); now right.
Qed.

(** Only minus infinity is not above minus infinity. *)
Lemma not_above_neg_infinity (m : float) :
  Np.isnan m = false -> PrimFloat.ltb neg_infinity m = false -> m = neg_infinity.
Proof.
  intros Hn Hlt. apply Prim2SF_inj. rewrite FiniteFacts.Prim2SF_neg_infinity.
  rewrite ltb_spec, FiniteFacts.Prim2SF_neg_infinity in Hlt.
  pose proof (FloatFacts.not_nan_spec _ Hn) as Hnan.
  destruct (Prim2SF m) as [s|s| |s e x]; try discriminate; try congruence;
    now destruct s.
Qed.

(** X14: [_default_binsz] never returns less than [spatial_bin_size_min]:
    for a minimum that is a number, the result is the minimum or one of the
    finite containment radii of the PSF, and it is at least the minimum,
    whatever the median and the median absolute deviation are. *)
Theorem default_binsz_bounded (median mad : list float -> float) (psf_r68 : list float)
        (spatial_bin_size_min : float) :
  Np.isnan spatial_bin_size_min = false ->
  let binsz := _default_binsz median mad psf_r68 spatial_bin_size_min in
  PrimFloat.leb spatial_bin_size_min binsz = true
  /\ (binsz = spatial_bin_size_min
      \/ (In binsz psf_r68 /\ Np.isfinite binsz = true)).
Proof.
  intros Hmin. cbv zeta. unfold _default_binsz.
  destruct (filter Np.isfinite psf_r68) as [|x l] eqn:Hf.
  - split; [now apply FloatFacts.leb_refl | now left].
  - set (kept := x :: l) in *.
    set (cut := List.map _ kept).
    assert (Hr : Np.isnan (nanmin cut) = true
                 \/ (In (nanmin cut) psf_r68 /\ Np.isfinite (nanmin cut) = true)).
    { unfold nanmin.
      apply (@nanmin_fold (fun y => In y psf_r68 /\ Np.isfinite y = true)); [now left|].
      apply Forall_forall. intros y Hy. subst cut.
      apply in_map_iff in Hy as (z & <- & Hz).
      destruct (PrimFloat.ltb z _); [now left|]. right.
      rewrite <- Hf in Hz. apply filter_In in Hz. exact Hz. }
    unfold nan_to_neg_infinity, PSF.np_maximum.
    destruct Hr as [Hnan|[Hin Hfin]].
    + rewrite Hnan. cbn [Np.isnan]. change (Np.isnan neg_infinity) with false.
      rewrite Hmin.
      destruct (PrimFloat.ltb neg_infinity spatial_bin_size_min) eqn:Hlt.
      * split; [now apply FloatFacts.leb_refl | now left].
      * rewrite (not_above_neg_infinity Hmin Hlt). split; [reflexivity | now left].
    + rewrite (FiniteFacts.isfinite_not_nan Hfin).
      destruct (FiniteFacts.isfinite_not_infinity Hfin) as [-> ->].
      rewrite (FiniteFacts.isfinite_not_nan Hfin), Hmin.
      destruct (PrimFloat.ltb (nanmin cut) spatial_bin_size_min) eqn:Hlt.
      * split; [now apply FloatFacts.leb_refl | now left].
      * split; [|now right].
        apply FloatFacts.not_ltb_leb; auto.
        now apply FiniteFacts.isfinite_not_nan.
Qed.

End DefaultsProperties.

Module DefaultsRun.

(** A PSF map 4 degrees wide and 5 degrees high. *)
Example width_of_psf_map :
  Defaults._default_width (Defaults.PsfMap (4%float, 5%float)) 12%float = Ok 10%float.
Proof. reflexivity. Qed.

Example width_is_capped :
  Defaults._default_width (Defaults.PsfMap (4%float, 8%float)) 12%float = Ok 12%float.
Proof. reflexivity. Qed.

(** Containment radii with a median of 0.25 degrees and no spread: the radius
    0.125 is cut as an outlier, the infinite one is dropped. *)
Definition radii : list float := [0.125; infinity; 0.5; 0.25]%float.

Example binsz_of_radii :
  Defaults._default_binsz (fun _ => 0.25%float) (fun _ => 0%float) radii 0.0625%float
  = 0.25%float.
Proof. reflexivity. Qed.

End DefaultsRun.

Lemma default_width_bounded_witness :
  (Np.isnan 10%float = true \/ PrimFloat.leb 10%float 12%float = true)
  /\ (Defaults.PsfMap (4%float, 5%float) = Defaults.PsfNone -> 10%float = 12%float).
Proof.
  apply (@default_width_bounded (Defaults.PsfMap (4%float, 5%float)) 12%float 10%float);
    reflexivity.
Defined.

Lemma default_binsz_bounded_witness :
  let binsz := Defaults._default_binsz (fun _ => 0.25%float) (fun _ => 0%float)
                                       DefaultsRun.radii 0.0625%float in
  PrimFloat.leb 0.0625%float binsz = true
  /\ (binsz = 0.0625%float \/ (In binsz DefaultsRun.radii /\ Np.isfinite binsz = true)).
Proof.
  apply (@default_binsz_bounded (fun _ => 0.25%float) (fun _ => 0%float) DefaultsRun.radii
           0.0625%float).
  reflexivity.
Defined.

(** ** The background model of a dataset made from an observation *)

Module FromObservation.

(** [isinstance(m, FoVBackgroundModel) and m.datasets_names[0] == dataset.name] *)
Definition is_background_of (dataset_name : string) (m : model) : result bool :=
  match m with
  | SkyModel _ _ => Ok false
  | FoVBackgroundModel _ [] _ => Raise IndexError
  | FoVBackgroundModel _ (first :: _) _ => Ok (String.eqb first dataset_name)
  end.

(** The list comprehension of the check, evaluated for every model. *)
Fixpoint background_flags (dataset_name : string) (models : list model)
  : result (list bool) :=
  match models with
  | [] => Ok []
  | m :: rest =>
      do b <- is_background_of dataset_name m;
      do bs <- background_flags dataset_name rest;
      Ok (b :: bs)
  end.

Section Models.

(** [FoVBackgroundModel(dataset_name=name)], of [gammapy.modeling.models]. *)
Variable new_background : string -> model.

(** The models that [create_map_dataset_from_observation] sets on the
    dataset it made: [Models()] when none are given, and a new
    [FoVBackgroundModel] appended unless one of the models is the
    background model of the dataset. *)
Definition dataset_models (dataset_name : string) (models : option (list model))
  : result (list model) :=
  let models := match models with
                | None => []
                | Some l => l
                end in
  do flags <- background_flags dataset_name models;
  if negb (Np.any flags) then Ok (models ++ [new_background dataset_name])
  else Ok models.

End Models.

End FromObservation.

Section FromObservationProperties.

Import FromObservation.

Variable new_background : string -> model.

(** The new background model is the background model of the dataset it is
    made for. *)
Hypothesis new_background_of :
  forall n, is_background_of n (new_background n) = Ok true.

Lemma background_flags_app (n : string) (l1 l2 : list model) (f1 f2 : list bool) :
  background_flags n l1 = Ok f1 -> background_flags n l2 = Ok f2 ->
  background_flags n (l1 ++ l2) = Ok (f1 ++ f2).
Proof.
  revert f1. induction l1 as [|m l1 IH]; intros f1 H1 H2.
  - inversion H1. exact H2.
  - simpl in *. destruct (is_background_of n m) as [b|]; [|discriminate].
    cbn [bind] in *. destruct (background_flags n l1) as [bs|]; [|discriminate].
    cbn [bind] in *. inversion H1; subst. now rewrite (IH bs eq_refl H2).
Qed.


End FromObservationProperties.

Module ObservationRun.

Definition new_background (n : string) : model :=
  FoVBackgroundModel (n ++ "-bkg") [n] [1%float; 0%float; 1%float].

Lemma new_background_of (n : string) :
  FromObservation.is_background_of n (new_background n) = Ok true.
Proof. simpl. now rewrite String.eqb_refl. Qed.

(** A source and the background model of another dataset. *)
Definition given : list model :=
  [SkyModel "crab" None; FoVBackgroundModel "other-bkg" ["other"] [1%float]].

End ObservationRun.


(** ** Stacking incomplete on/off datasets *)

Section OnOffIncomplete.

Variable Evaluator : Type.
Variable evaluate_geom : list float -> Geom -> list float.
Variable np_sum : list float -> float.

(** One of the maps that the stacking of on/off datasets needs is missing. *)
Definition incomplete (ds : MapDatasetOnOff Evaluator) : Prop :=
  acceptance_off ds = None \/ acceptance ds = None \/ counts_off ds = None.

Lemma is_stackable_spec (ds : MapDatasetOnOff Evaluator) (m : BMap) :
  mask_safe (base ds) = Some m ->
  (incomplete ds /\ Np.any (data m) = true -> _is_stackable ds = Ok false)
  /\ (~ incomplete ds \/ Np.any (data m) = false -> _is_stackable ds = Ok true).
Proof.
  intros Hm. unfold _is_stackable, incomplete. rewrite Hm. split.
  - intros [[H|[H|H]] Hany]; rewrite H, Hany;
      destruct (acceptance_off ds), (acceptance ds), (counts_off ds); reflexivity.
  - intros [H|H].
    + destruct (acceptance_off ds), (acceptance ds), (counts_off ds);
        try reflexivity; exfalso; apply H; auto.
    + rewrite H. now rewrite andb_false_r.
Qed.

(** X17: [MapDatasetOnOff.stack] raises [ValueError] when one of the two
    datasets lacks its off counts or one of its acceptances while its safe
    mask selects a bin; a dataset whose safe mask selects no bin passes the
    check even when it is incomplete. *)
Theorem onoff_stack_incomplete (self other : MapDatasetOnOff Evaluator) (m m' : BMap)
        (nan_to_num : bool) :
  mask_safe (base self) = Some m ->
  mask_safe (base other) = Some m' ->
  (incomplete self /\ Np.any (data m) = true)
  \/ (incomplete other /\ Np.any (data m') = true) ->
  onoff_stack evaluate_geom np_sum self other nan_to_num = Raise ValueError
  /\ forall (ds : MapDatasetOnOff Evaluator) w,
       mask_safe (base ds) = Some w -> Np.any (data w) = false ->
       _is_stackable ds = Ok true.
Proof.
  intros Hm Hm' H. split.
  - unfold onoff_stack.
    destruct (is_stackable_spec self Hm) as [Hs1 Hs2].
    destruct (is_stackable_spec other Hm') as [Ho1 Ho2].
    destruct H as [H|H].
    + rewrite (Hs1 H). reflexivity.
    + rewrite (Ho1 H).
      assert (Hself : exists b, _is_stackable self = Ok b).
      { unfold _is_stackable. rewrite Hm. eauto. }
      destruct Hself as ([|] & ->); reflexivity.
  - intros ds w Hw Hany. destruct (is_stackable_spec ds Hw) as [_ Hok].
    apply Hok. now right.
Qed.

End OnOffIncomplete.

Lemma onoff_stack_incomplete_witness :
  OnOffRun.onoff_stack OnOffRun.stacked WriteRun.on_only true = Raise ValueError
  /\ forall (ds : MapDatasetOnOff Example.ToyEvaluator) w,
       mask_safe (base ds) = Some w -> Np.any (data w) = false ->
       _is_stackable ds = Ok true.
Proof.
  apply (@onoff_stack_incomplete Example.ToyEvaluator Example.norm_evaluate_geom Np.sum_seq
           OnOffRun.stacked WriteRun.on_only (Example.bmap2 true true)
           (Example.bmap2 true false) true eq_refl eq_refl).
  right. split; [|reflexivity]. right. right. reflexivity.
Defined.

(** ** Stacking a dataset without safe mask *)

Section StackUnmasked.

Variable Evaluator : Type.
Variable evaluate_geom : list float -> Geom -> list float.

Abbreviation predicted_background :=
  (fun ds : MapDataset Evaluator => returned (npred_background evaluate_geom ds)).

(** The maps of [other] are on the geometry of the maps of [self] they are
    stacked on. *)
Record same_geometry (self other : MapDataset Evaluator) : Prop := mkSameGeometry {
  same_exposure : forall a b, exposure self = Some a -> exposure other = Some b ->
      geom a = geom b;
  same_background : forall a b, stat_type self = Cash ->
      background self = Some a -> background other = Some b ->
      exists sa sb, predicted_background self = Some sa
                    /\ predicted_background other = Some sb /\ geom sa = geom sb;
  same_mask_fit : forall a b, mask_fit self = Some a -> mask_fit other = Some b ->
      geom a = geom b
}.

(** X16: a dataset without safe mask is stacked whole: the stacked counts
    are, bin by bin, the counts of [self] plus the counts of [other] (a
    non-finite value replaced by 0 unless [nan_to_num] is disabled), and the
    safe mask of [self] stays as it is. *)
Theorem stack_without_safe_mask (self other : MapDataset Evaluator) (a b : FMap)
        (nan_to_num : bool) :
  mask_safe other = None ->
  counts self = Some a -> counts other = Some b ->
  geom a = geom b -> length (data a) = length (data b) ->
  same_geometry self other ->
  exists self' c,
    stack evaluate_geom self other nan_to_num = Ok self'
    /\ counts self' = Some c
    /\ geom c = geom a
    /\ length (data c) = length (data a)
    /\ (forall i, i < length (data a) ->
          nth i (data c) 0%float
          = PrimFloat.add (nth i (data a) 0%float)
                          (stacked_value nan_to_num (nth i (data b) 0%float)))
    /\ mask_safe self' = mask_safe self.
Proof.
  intros Hw Ha Hb Hg Hl Hs. unfold stack.
  unfold stack_role at 1. rewrite Ha, Hb, Hw. rewrite (@stack_whole _ _ nan_to_num Hg). cbn [bind].
  assert (He : exists e, stack_role (exposure self) (exposure other)
                                    (mask_safe_image other) nan_to_num = Ok e).
  { unfold stack_role, mask_safe_image. rewrite Hw. cbn [option_map].
    destruct (exposure self) as [ea|] eqn:Hea; [|eauto].
    destruct (exposure other) as [eb|] eqn:Heb; [|eauto].
    rewrite (@stack_whole _ _ nan_to_num (same_exposure Hs Hea Heb)). cbn [bind]. eauto. }
  destruct He as (e & ->). cbn [bind].
  assert (Hbk : exists bk, stack_background evaluate_geom self other nan_to_num = Ok bk).
  { unfold stack_background.
    destruct (stat_type self) eqn:Hst; [|eauto].
    destruct (background self) as [ba|] eqn:Hba; [|eauto].
    destruct (background other) as [bb|] eqn:Hbb; [|eauto].
    destruct (same_background Hs Hst Hba Hbb) as (sa & sb & H1 & H2 & Hgs).
    cbv zeta. rewrite H1, H2, Hw. rewrite (@stack_whole _ _ nan_to_num Hgs). cbn [bind]. eauto. }
  destruct Hbk as (bk & ->). cbn [bind].
  unfold stack_mask_safe. rewrite Hw.
  replace (match mask_safe self with
           | Some _ => Ok (mask_safe self)
           | None => Ok (mask_safe self)
           end) with (Ok (A := option BMap) (mask_safe self))
    by now destruct (mask_safe self).
  cbn [bind].
  assert (Hmf : exists mf, stack_mask_fit self other = Ok mf).
  { unfold stack_mask_fit.
    destruct (mask_fit self) as [f|] eqn:Hf; destruct (mask_fit other) as [f'|] eqn:Hf';
      eauto.
    unfold MapOps.stack_bool. rewrite (same_mask_fit Hs Hf Hf'), geom_eqb_refl.
    cbn [negb bind]. eauto. }
  destruct Hmf as (mf & ->). cbn [bind].
  eexists. eexists. split; [reflexivity|]. cbn [counts mask_safe set_maps].
  split; [reflexivity|]. cbn [geom data]. split; [reflexivity|].
  assert (Hlw : length (whole nan_to_num (data b)) = length (data b))
    by apply whole_length.
  split; [unfold Np.add; rewrite Np.zip_with_length; congruence|].
  split; [|reflexivity].
  intros i Hi. unfold Np.add.
  rewrite (@Np.zip_with_nth _ _ _ _ _ _ i 0%float 0%float) by congruence.
  f_equal. unfold whole.
  rewrite (nth_indep _ 0%float (stacked_value nan_to_num 0%float))
    by (rewrite length_map; congruence).
  apply map_nth.
Qed.

End StackUnmasked.

Module UnmaskedRun.

(** An observation without safe mask, with an infinite value. *)
Definition observation : MapDataset Example.ToyEvaluator :=
  mkDataset "obs" (Some (Example.fmap2 2 infinity)) None None None None None None
            None None None [] Cash.

Lemma same_geometry_observation :
  same_geometry Example.norm_evaluate_geom StackRun.stacked observation.
Proof. constructor; simpl; discriminate. Qed.

End UnmaskedRun.

Lemma stack_without_safe_mask_witness :
  exists self' c,
    StackRun.stack StackRun.stacked UnmaskedRun.observation true = Ok self'
    /\ counts self' = Some c
    /\ nth 0 (data c) 0%float = 7%float
    /\ nth 1 (data c) 0%float = 7%float
    /\ mask_safe self' = Some (Example.bmap2 true false).
Proof.
  destruct (@stack_without_safe_mask Example.ToyEvaluator Example.norm_evaluate_geom
              StackRun.stacked UnmaskedRun.observation (Example.fmap2 5 7)
              (Example.fmap2 2 infinity) true eq_refl eq_refl eq_refl eq_refl eq_refl
              UnmaskedRun.same_geometry_observation)
    as (self' & c & Hs & Hc & _ & _ & Hbins & Hmask).
  exists self', c. split; [exact Hs|]. split; [exact Hc|].
  split; [apply (Hbins 0); simpl; lia|].
  split; [apply (Hbins 1); simpl; lia|exact Hmask].
Defined.

(** ** The reduced mask *)

Section MaskImage.

Variable Evaluator : Type.

(** X18: [mask_image] of a dataset with a safe mask and a fit mask holds one
    value per pixel, on the image geometry of the masks: a pixel is selected
    exactly when, in one energy bin at least, both masks select it.  A
    dataset without any mask gets an image in which every pixel is
    selected. *)
Theorem mask_image_selects (ds : MapDataset Evaluator) (s f : BMap) :
  mask_safe ds = Some s ->
  mask_fit ds = Some f ->
  length (data s) = data_size (geom s) ->
  length (data f) = length (data s) ->
  (exists image,
      mask_image ds = Ok image
      /\ geom image = to_image (geom s)
      /\ length (data image) = image_size (geom s)
      /\ forall p, p < image_size (geom s) ->
           (nth p (data image) false = true
            <-> exists k, k < n_planes (geom s)
                          /\ nth (k * image_size (geom s) + p) (data s) false = true
                          /\ nth (k * image_size (geom s) + p) (data f) false = true))
  /\ forall (ds' : MapDataset Evaluator) (g : Geom),
       mask_safe ds' = None -> mask_fit ds' = None -> _geom ds' = Ok g ->
       exists image,
         mask_image ds' = Ok image
         /\ geom image = to_image g
         /\ length (data image) = image_size g
         /\ forall p, p < image_size g -> nth p (data image) false = true.
Proof.
  intros Hs Hf Hl Hlf. split.
  - unfold mask_image, mask. rewrite Hs, Hf.
    set (m := mkMap (geom s) (Np.zip_with andb (data s) (data f)) (unit s)).
    assert (Hm : length (data m) = data_size (geom m)).
    { unfold m. cbn [data geom]. rewrite Np.zip_with_length; lia. }
    exists (reduce_over_axes_or m). split; [reflexivity|].
    split; [reflexivity|].
    split; [exact (reduce_over_axes_or_length m Hm)|].
    intros p Hp. rewrite (@reduce_over_axes_or_nth m p Hm Hp).
    unfold safe_somewhere. rewrite existsb_exists. unfold m. cbn [data geom].
    assert (Hbin : forall k, k < n_planes (geom s) ->
                     nth (k * image_size (geom s) + p)
                         (Np.zip_with andb (data s) (data f)) false
                     = nth (k * image_size (geom s) + p) (data s) false
                       && nth (k * image_size (geom s) + p) (data f) false).
    { intros k Hk.
      assert (k * image_size (geom s) + p < length (data s)).
      { rewrite Hl. unfold data_size. nia. }
      apply Np.zip_with_nth; lia. }
    split.
    + intros (k & Hin & Hk). apply in_seq in Hin. exists k.
      rewrite Hbin in Hk by lia. apply andb_true_iff in Hk.
      split; [lia|exact Hk].
    + intros (k & Hk & H1 & H2). exists k. split; [apply in_seq; lia|].
      rewrite Hbin by exact Hk. now rewrite H1, H2.
  - intros ds' g Hs' Hf' Hg. unfold mask_image, mask. rewrite Hs', Hf', Hg.
    cbn [bind]. eexists. split; [reflexivity|]. cbn [geom data].
    split; [reflexivity|]. split; [apply repeat_length|].
    intros p Hp. now rewrite nth_repeat_lt.
Qed.

End MaskImage.

Module MaskImageRun.

(** Two pixels and two energy bins: each mask selects the first pixel in one
    energy bin, but not in the same one; both select the second pixel in the
    first energy bin. *)
Definition geom22 : Geom := mkGeom (2, 1) [Example.energy_axis].

Definition observation : MapDataset Example.ToyEvaluator :=
  mkDataset "obs" None None None None None
            (Some (mkMap geom22 [true; true; false; true] EmptyString))
            (Some (mkMap geom22 [false; true; true; false] EmptyString))
            None None None [] Cash.

End MaskImageRun.

Lemma mask_image_selects_witness :
  exists image,
    mask_image MaskImageRun.observation = Ok image
    /\ nth 0 (data image) false = false
    /\ nth 1 (data image) false = true.
Proof.
  destruct (@mask_image_selects Example.ToyEvaluator MaskImageRun.observation
              (mkMap MaskImageRun.geom22 [true; true; false; true] EmptyString)
              (mkMap MaskImageRun.geom22 [false; true; true; false] EmptyString)
              eq_refl eq_refl eq_refl eq_refl)
    as [(image & Hrun & _ & _ & Hpix) _].
  exists image. split; [exact Hrun|]. split.
  - destruct (nth 0 (data image) false) eqn:E; [|reflexivity].
    apply (Hpix 0) in E; [|cbv; lia].
    destruct E as (k & Hk & H1 & H2).
    destruct k as [|[|k]]; [discriminate H2|discriminate H1|cbv in Hk; lia].
  - apply (Hpix 1); [cbv; lia|].
    exists 0. split; [cbv; lia|]. split; reflexivity.
Defined.
